(** * HYAB data cleaner: analytics core

    A shallow embedding of the analytics functions of
    [hyab_data_cleaner_v6.2.py] and the properties proved about them.

    Modelling conventions.
    - A Python [str] is a Rocq [string] whose characters are code points
      below 256 (one [ascii] per code point); ['\xa0'] is [ascii_of_N 160].
      The amount parser is also given on texts with the two characters
      beyond them that its currency pattern matches ([Wide]).
    - Ledger amounts are Python numbers.  The ledger of the model holds
      integer amounts ([Z]), on which sums and differences are exact; a
      ledger with [float] cells is outside it, and what binary64 sums
      change is shown on the float ledger of [FloatLedger].
    - A percentage is the binary64 number that true division ([/]) of two
      integers followed by [* 100] gives ([B64], on the specification of
      binary64 arithmetic of the Standard Library).
    - The value [float(s)] of the amount parser is the exact decimal value
      of the literal ([Q]), which [float] rounds to the nearest binary64.
    - A Python [dict] is an insertion-ordered association list with unique
      keys ([Dict.t]).
    - A call that can raise returns [option]; [None] is the raised
      exception. *)

From Stdlib Require Import ZArith QArith Qreduction Bool List Ascii String Lia
  DecimalString
  Permutation Sorted RelationClasses SpecFloat.
Import ListNotations.

Open Scope string_scope.
Open Scope list_scope.
Open Scope Z_scope.

(** ** Python string primitives *)
Module Py.

Definition code (c : ascii) : N := N_of_ascii c.

Definition in_range (lo hi : N) (c : ascii) : bool :=
  ((lo <=? code c) && (code c <=? hi))%N.

(** [\d] of [re] and the decimal digits accepted by [int] and [float]. *)
Definition is_digit (c : ascii) : bool := in_range 48 57 c.

(** [str.isspace] and [\s] of [re] on code points below 256. *)
Definition is_space (c : ascii) : bool :=
  in_range 9 13 c || in_range 28 32 c || (code c =? 133)%N || (code c =? 160)%N.

(** White space skipped by [int] and [float] around the literal. *)
Definition is_num_space (c : ascii) : bool :=
  in_range 9 13 c || (code c =? 32)%N || (code c =? 133)%N || (code c =? 160)%N.

Definition lower_char (c : ascii) : ascii :=
  if in_range 65 90 c || (in_range 192 222 c && negb (code c =? 215)%N)
  then ascii_of_N (code c + 32) else c.

(** [str.upper] on the characters whose upper case is again one code point
    below 256. *)
Definition upper_char (c : ascii) : ascii :=
  if in_range 97 122 c || (in_range 224 254 c && negb (code c =? 247)%N)
  then ascii_of_N (code c - 32) else c.

Fixpoint map_string (f : ascii -> ascii) (s : string) : string :=
  match s with
  | EmptyString => EmptyString
  | String c s' => String (f c) (map_string f s')
  end.

Definition lower : string -> string := map_string lower_char.
Definition upper : string -> string := map_string upper_char.

Fixpoint drop_while (p : ascii -> bool) (s : string) : string :=
  match s with
  | EmptyString => EmptyString
  | String c s' => if p c then drop_while p s' else s
  end.

Fixpoint rev_string (acc s : string) : string :=
  match s with
  | EmptyString => acc
  | String c s' => rev_string (String c acc) s'
  end.

Definition drop_while_end (p : ascii -> bool) (s : string) : string :=
  rev_string "" (drop_while p (rev_string "" s)).

(** [s.strip()] *)
Definition strip (s : string) : string :=
  drop_while_end is_space (drop_while is_space s).

(** [s.replace(old, new)] for a non-empty [old]: one left-to-right pass over
    non-overlapping occurrences.  [skip] counts the characters of the
    occurrence being replaced that are still to be passed over. *)
Fixpoint replace_from (old new : string) (skip : nat) (s : string) : string :=
  match s with
  | EmptyString => EmptyString
  | String c s' =>
      match skip with
      | S k => replace_from old new k s'
      | O =>
          if prefix old s
          then (new ++ replace_from old new (Nat.pred (String.length old)) s')%string
          else String c (replace_from old new 0 s')
      end
  end.

Definition replace (old new s : string) : string := replace_from old new 0 s.

(** [s.split(sep)] for a one-character separator; never the empty list. *)
Fixpoint split (sep : ascii) (s : string) : list string :=
  match s with
  | EmptyString => [EmptyString]
  | String c s' =>
      if Ascii.eqb c sep then EmptyString :: split sep s'
      else match split sep s' with
           | h :: t => String c h :: t
           | [] => [String c EmptyString]
           end
  end.

Definition digit_val (c : ascii) : Z := Z.of_N (code c) - 48.

(** Digits of a decimal literal with the single underscores [int] allows
    between digits.  [prev_digit] tells whether the previous character was a
    digit; the accumulator is the value read so far. *)
Fixpoint digits_us (prev_digit : bool) (acc : Z) (s : string) : option Z :=
  match s with
  | EmptyString => if prev_digit then Some acc else None
  | String c s' =>
      if is_digit c then digits_us true (10 * acc + digit_val c) s'
      else if (code c =? 95)%N && prev_digit then
        match s' with
        | String d _ => if is_digit d then digits_us false acc s' else None
        | EmptyString => None
        end
      else None
  end.

(** The number of decimal digits of a literal, leading zeros included. *)
Fixpoint count_digits (s : string) : Z :=
  match s with
  | EmptyString => 0
  | String c s' => (if is_digit c then 1 else 0) + count_digits s'
  end.

(** [sys.get_int_max_str_digits()], at its default. *)
Definition int_max_str_digits : Z := 4300.

(** [int(s)] on a string, base 10: surrounding white space, an optional
    sign, digits with single underscores between them; [None] is the
    [ValueError], which a literal of more than 4300 digits raises too. *)
Definition int (s : string) : option Z :=
  let body := drop_while_end is_num_space (drop_while is_num_space s) in
  if int_max_str_digits <? count_digits body then None
  else
    match body with
    | String "+" r => digits_us false 0 r
    | String "-" r => option_map Z.opp (digits_us false 0 r)
    | _ => digits_us false 0 body
    end.

(** Longest prefix of [s] whose characters satisfy [p], and the rest. *)
Fixpoint span (p : ascii -> bool) (s : string) : string * string :=
  match s with
  | EmptyString => (EmptyString, EmptyString)
  | String c s' =>
      if p c then let (a, b) := span p s' in (String c a, b)
      else (EmptyString, s)
  end.

Fixpoint all_chars (p : ascii -> bool) (s : string) : bool :=
  match s with
  | EmptyString => true
  | String c s' => p c && all_chars p s'
  end.

Fixpoint digits_value (acc : Z) (s : string) : Z :=
  match s with
  | EmptyString => acc
  | String c s' => digits_value (10 * acc + digit_val c) s'
  end.

(** [float(s)] on the strings the amount parser passes to it.  Every
    character of such a string is a decimal digit, a full stop or white
    space (lemma [cleaned_alphabet] below), so the literal is
    [digits], [digits.], [digits.digits] or [.digits] between optional
    white space, and the sign, exponent, underscore, [inf] and [nan]
    spellings of [float] cannot occur.  The result is the exact decimal
    value of the literal. *)
Definition float (s : string) : option Q :=
  let body := drop_while_end is_num_space (drop_while is_num_space s) in
  let (ip, rest) := span is_digit body in
  match rest with
  | EmptyString =>
      match ip with
      | EmptyString => None
      | _ => Some (inject_Z (digits_value 0 ip))
      end
  | String c fp =>
      if (code c =? 46)%N && all_chars is_digit fp
         && negb (String.eqb ip "" && String.eqb fp "")
      then Some (Qred (Qmake (digits_value (digits_value 0 ip) fp)
                             (Z.to_pos (10 ^ Z.of_nat (String.length fp)))))
      else None
  end.

End Py.

(** ** Binary64 numbers *)
Module B64.

Definition prec : Z := 53.
Definition emax : Z := 1024.
Definition t := spec_float.

(** An integer as an exact binary number, before any rounding. *)
Definition exact (n : Z) : t :=
  match n with
  | Z0 => S754_zero false
  | Zpos p => S754_finite false p 0
  | Zneg p => S754_finite true p 0
  end.

(** [float(n)]: the binary64 nearest to [n], ties to even. *)
Definition of_Z (n : Z) : t := binary_normalize prec emax n 0 false.

(** [a / b] on two integers, [b] not zero: the binary64 nearest to the
    quotient, ties to even.  (A quotient beyond the binary64 range, where
    Python raises [OverflowError], comes out as an infinity.) *)
Definition div_Z (a b : Z) : t := SFdiv prec emax (exact a) (exact b).

(** [x * n] for a float [x] and an integer [n] that a binary64 holds. *)
Definition mul_Z (x : t) (n : Z) : t := SFmul prec emax x (exact n).

Definition add : t -> t -> t := SFadd prec emax.
Definition sub : t -> t -> t := SFsub prec emax.
Definition abs : t -> t := SFabs.
Definition compare : t -> t -> option comparison := SFcompare.
Definition ltb : t -> t -> bool := SFltb.
Definition eqb : t -> t -> bool := SFeqb.


End B64.

(** A Python number: an [int] or a [float]. *)
Inductive num :=
| Int (z : Z)
| Float (f : B64.t).

(** Python compares an [int] with a [float] by their exact values. *)
Definition compare_Z_float (z : Z) (f : B64.t) : option comparison :=
  match f with
  | S754_nan => None
  | S754_infinity s => Some (if s then Gt else Lt)
  | S754_zero _ => Some (z ?= 0)
  | S754_finite s m e =>
      let v := if s then Zneg m else Zpos m in
      Some (match e with
            | Zneg k => Z.shiftl z (Zpos k) ?= v
            | _ => z ?= Z.shiftl v e
            end)
  end.

Definition num_compare (x y : num) : option comparison :=
  match x, y with
  | Int a, Int b => Some (a ?= b)
  | Float a, Float b => B64.compare a b
  | Int a, Float b => compare_Z_float a b
  | Float a, Int b => option_map CompOpp (compare_Z_float b a)
  end.

(** [x <= y] *)
Definition num_leb (x y : num) : bool :=
  match num_compare x y with
  | Some (Lt | Eq) => true
  | _ => false
  end.

(** [(a / b * 100) if b > 0 else 0] on integers. *)
Definition percent_of (a b : Z) : num :=
  if 0 <? b then Float (B64.mul_Z (B64.div_Z a b) 100) else Int 0.

(** ** Insertion-ordered dictionaries and Python list helpers *)
Module Dict.

Definition t (V : Type) : Type := list (string * V).

Section Ops.
Context {V : Type}.

Definition empty : t V := [].

Fixpoint get (k : string) (d : t V) : option V :=
  match d with
  | [] => None
  | (k', v) :: d' => if String.eqb k k' then Some v else get k d'
  end.

(** [d.get(k, dflt)] *)
Definition get_default (k : string) (dflt : V) (d : t V) : V :=
  match get k d with
  | Some v => v
  | None => dflt
  end.

(** [d[k] = v]: an existing key keeps its position. *)
Fixpoint set (k : string) (v : V) (d : t V) : t V :=
  match d with
  | [] => [(k, v)]
  | (k', v') :: d' =>
      if String.eqb k k' then (k, v) :: d' else (k', v') :: set k v d'
  end.

Definition keys (d : t V) : list string := map fst d.
Definition values (d : t V) : list V := map snd d.
Definition items (d : t V) : list (string * V) := d.
Definition mem (k : string) (d : t V) : bool :=
  match get k d with Some _ => true | None => false end.
End Ops.

End Dict.

(** [sum(l)] *)
Definition py_sum (l : list Z) : Z := fold_left Z.add l 0.

(** [max(l)]; raises [ValueError] on the empty list. *)
Definition py_max (l : list Z) : option Z :=
  match l with
  | [] => None
  | x :: t => Some (fold_left Z.max t x)
  end.

(** [l[start:]] *)
Definition slice_from {A : Type} (start : Z) (l : list A) : list A :=
  let len := Z.of_nat (List.length l) in
  let s := if start <? 0 then Z.max 0 (start + len) else Z.min start len in
  skipn (Z.to_nat s) l.

(** [l[:stop]] *)
Definition slice_to {A : Type} (stop : Z) (l : list A) : list A :=
  let len := Z.of_nat (List.length l) in
  let s := if stop <? 0 then Z.max 0 (stop + len) else Z.min stop len in
  firstn (Z.to_nat s) l.

(** Stable sorting.  [sorted(l, key=f)] is [sort_by (fun x y => f x <= f y)]
    and [sorted(l, key=f, reverse=True)] is [sort_by (fun x y => f y <= f x)]:
    both keep elements with equal keys in their original order. *)
Fixpoint insert_by {A : Type} (le : A -> A -> bool) (x : A) (l : list A) : list A :=
  match l with
  | [] => [x]
  | y :: l' => if le x y then x :: l else y :: insert_by le x l'
  end.

Definition sort_by {A : Type} (le : A -> A -> bool) (l : list A) : list A :=
  fold_right (insert_by le) [] l.

(** A Python [set] of strings, enumerated in insertion order.  (The
    iteration order of a real [set] is unspecified; every use below sorts
    the elements, so the order only decides how labels with equal sort keys
    are arranged.) *)
Definition set_add (k : string) (s : list string) : list string :=
  if existsb (String.eqb k) s then s else s ++ [k].

Definition set_update (s ks : list string) : list string :=
  fold_left (fun acc k => set_add k acc) ks s.

(** ** Period key resolver *)

Definition swedish_months : Dict.t Z :=
  [("jan", 1); ("feb", 2); ("mar", 3); ("apr", 4); ("maj", 5); ("jun", 6);
   ("jul", 7); ("aug", 8); ("sep", 9); ("okt", 10); ("nov", 11); ("dec", 12)].

Definition sentinel_key : Z * Z := (9999, 99).

(** Tuples [(year, month)] compare lexicographically. *)
Definition key_le (a b : Z * Z) : bool :=
  (fst a <? fst b) || ((fst a =? fst b) && (snd a <=? snd b)).

(** [ltm_sort_key]: any exception inside the [try] gives the sentinel. *)
Definition ltm_sort_key (ltm_str : string) : Z * Z :=
  let parts := Py.split "-" (Py.replace "LTM " "" ltm_str) in
  match Py.int (nth 0 parts "") with
  | None => sentinel_key
  | Some y =>
      let year := y + 2000 in
      match nth_error parts 1 with
      | None => sentinel_key
      | Some p1 =>
          let month := Dict.get_default (Py.lower p1) 1 swedish_months in
          (year, month)
      end
  end.

(** ** Amount parser *)

Definition nbsp : ascii := ascii_of_N 160.

(** The character class [[\d\s\xa0\.,]]. *)
Definition amount_char (c : ascii) : bool :=
  Py.is_digit c || Py.is_space c || Ascii.eqb c nbsp
  || Ascii.eqb c "." || Ascii.eqb c ",".

Definition currency_codes : list string := ["SEK"; "EUR"; "USD"; "GBP"].

(** The optional group [(SEK|EUR|USD|GBP)?] under [re.IGNORECASE], tried at
    the start of [s]: the matched text, if any. *)
Definition match_currency (s : string) : option string :=
  let w := substring 0 3 s in
  if existsb (fun alt => String.eqb (Py.lower w) (Py.lower alt)) currency_codes
  then Some w else None.

(** [re.match(r'([\d\s\xa0\.,]+)\s*(SEK|EUR|USD|GBP)?', s, re.IGNORECASE)]:
    groups 1 and 2.  The first group is greedy and everything after it is
    optional, so the first attempt of the matcher succeeds. *)
Definition match_amount (s : string) : option (string * option string) :=
  let (g1, rest) := Py.span amount_char s in
  match g1 with
  | EmptyString => None
  | _ => Some (g1, match_currency (Py.drop_while Py.is_space rest))
  end.

(** [re.search(r',\d{2}$', s)]: [$] matches at the end of the string and
    just before a final newline. *)
Definition ends_comma_2digits (s : string) : bool :=
  let at_end (r : string) :=
    match r with
    | String d2 (String d1 (String c _)) =>
        Py.is_digit d2 && Py.is_digit d1 && Ascii.eqb c ","
    | _ => false
    end in
  let r := Py.rev_string "" s in
  at_end r
  || match r with
     | String nl r' => (Py.code nl =? 10)%N && at_end r'
     | EmptyString => false
     end.

(** The decimal-convention step of [clean_amount] and [clean_num]. *)
Definition normalise_decimal (s : string) : string :=
  if ends_comma_2digits s
  then Py.replace "," "." (Py.replace "." "" s)
  else Py.replace "," "" s.

(** [clean_amount(raw)]; [raw] is [None] or the text [str(raw)]. *)
Definition clean_amount (raw : option string) : option Q * option string :=
  match raw with
  | None => (None, None)
  | Some text =>
      match match_amount (Py.strip text) with
      | None => (None, None)
      | Some (g1, g2) =>
          let s := Py.replace " " "" (Py.replace (String nbsp "") "" g1) in
          let cur := match g2 with
                     | Some w => Py.upper w
                     | None => "SEK"
                     end in
          match Py.float (normalise_decimal s) with
          | Some v => (Some v, Some cur)
          | None => (None, None)
          end
      end
  end.

(** ** Data model and master parser *)

(** A [datetime] header is observed through [str(h)] and
    [h.strftime('%Y-%m')] only. *)
Record datetime := { dt_str : string; dt_ym : string }.

(** The value of a worksheet cell.  The numbers of the model are integers;
    a worksheet with [float] cells is outside it (what changes on float
    amounts is shown in [FloatLedger]). *)
Inductive cell :=
| CNone
| CInt (z : Z)
| CBool (b : bool)
| CStr (s : string)
| CDate (d : datetime).

Record worksheet := {
  max_row : nat;
  max_column : nat;
  cell_value : nat -> nat -> cell   (* [ws.cell(r, c).value] *)
}.

(** Truth value of a cell, as [if v] and [not v] test it. *)
Definition truthy (v : cell) : bool :=
  match v with
  | CNone => false
  | CInt z => negb (z =? 0)
  | CBool b => b
  | CStr s => negb (String.eqb s "")
  | CDate _ => true
  end.

(** [str(v)] *)
Definition py_str (v : cell) : string :=
  match v with
  | CNone => "None"
  | CInt z => NilZero.string_of_int (Z.to_int z)
  | CBool true => "True"
  | CBool false => "False"
  | CStr s => s
  | CDate d => dt_str d
  end.

(** [v and isinstance(v, (int, float))]: the number kept for the cell.
    [True] is an [int] equal to 1. *)
Definition numeric_cell (v : cell) : option Z :=
  match v with
  | CInt z => if z =? 0 then None else Some z
  | CBool true => Some 1
  | _ => None
  end.

Record header_cols := {
  months : Dict.t nat;
  ltms : Dict.t nat;
  fys : Dict.t nat
}.

(** One iteration of the header loop at column [c]. *)
Definition classify_header (ws : worksheet) (hc : header_cols) (c : nat) : header_cols :=
  match cell_value ws 1 c with
  | CNone => hc
  | CDate d =>
      {| months := Dict.set (dt_ym d) c (months hc); ltms := ltms hc; fys := fys hc |}
  | h =>
      let hs := py_str h in
      if prefix "FY" hs then
        {| months := months hc; ltms := ltms hc; fys := Dict.set hs c (fys hc) |}
      else if prefix "LTM" hs then
        {| months := months hc; ltms := Dict.set hs c (ltms hc); fys := fys hc |}
      else if String.eqb hs "YTD" then
        {| months := months hc; ltms := ltms hc; fys := Dict.set "YTD" c (fys hc) |}
      else hc
  end.

(** [range(lo, hi)] *)
Definition py_range (lo hi : nat) : list nat := seq lo (hi - lo).

Definition scan_headers (ws : worksheet) : header_cols :=
  fold_left (classify_header ws)
            (py_range 3 (Nat.min (max_column ws + 1) 100))
            {| months := Dict.empty; ltms := Dict.empty; fys := Dict.empty |}.

(** The loop [for k, c in cols.items(): v = ws.cell(r, c).value; ...]
    filling one series of the row [r]. *)
Definition collect (ws : worksheet) (r : nat) (cols : Dict.t nat) : Dict.t Z :=
  fold_left (fun acc kc =>
               match numeric_cell (cell_value ws r (snd kc)) with
               | Some v => Dict.set (fst kc) v acc
               | None => acc
               end)
            (Dict.items cols) Dict.empty.

(** [any(d.values())] *)
Definition any_value (d : Dict.t Z) : bool :=
  existsb (fun v => negb (v =? 0)) (Dict.values d).

Module Article.
Record t := {
  artikelnr : string;
  artikelnamn : cell;
  monthly : Dict.t Z;
  fy : Dict.t Z;
  ltm : Dict.t Z
}.
End Article.

Module Customer.
Record t := {
  kund : string;
  monthly : Dict.t Z;
  fy : Dict.t Z;
  ltm : Dict.t Z
}.
End Customer.

(** Rows whose identifier is falsy or ['Summa'] are skipped. *)
Definition skip_row (ident : cell) : bool :=
  negb (truthy ident)
  || match ident with CStr s => String.eqb s "Summa" | _ => false end.

Definition article_row (ws : worksheet) (hc : header_cols)
           (acc : list Article.t) (r : nat) : list Article.t :=
  let art := cell_value ws r 1 in
  if skip_row art then acc
  else
    let name := cell_value ws r 2 in
    let a := {| Article.artikelnr := py_str art;
                Article.artikelnamn := if truthy name then name else CStr "";
                Article.monthly := collect ws r (months hc);
                Article.fy := collect ws r (fys hc);
                Article.ltm := collect ws r (ltms hc) |} in
    if any_value (Article.monthly a) || any_value (Article.fy a)
    then acc ++ [a] else acc.

Definition customer_row (ws : worksheet) (hc : header_cols)
           (acc : list Customer.t) (r : nat) : list Customer.t :=
  let kund := cell_value ws r 2 in
  if skip_row kund then acc
  else
    let cust := {| Customer.kund := py_str kund;
                   Customer.monthly := collect ws r (months hc);
                   Customer.fy := collect ws r (fys hc);
                   Customer.ltm := collect ws r (ltms hc) |} in
    if any_value (Customer.monthly cust) || any_value (Customer.fy cust)
    then acc ++ [cust] else acc.

Definition parse_articles (ws : worksheet) : list Article.t :=
  fold_left (article_row ws (scan_headers ws)) (py_range 2 (max_row ws + 1)) [].

Definition parse_customers (ws : worksheet) : list Customer.t :=
  fold_left (customer_row ws (scan_headers ws)) (py_range 2 (max_row ws + 1)) [].

Record dataset := {
  articles : list Article.t;
  customers : list Customer.t;
  monthly_totals : Dict.t Z;
  ltm_trend : Dict.t Z
}.

(** Union of the key sets of one series over all entities. *)
Definition all_keys {E : Type} (series : E -> Dict.t Z) (es : list E) : list string :=
  fold_left (fun acc e => set_update acc (Dict.keys (series e))) es [].

(** [sum(e[series].get(k, 0) for e in es)] *)
Definition series_total {E : Type} (series : E -> Dict.t Z) (es : list E) (k : string) : Z :=
  py_sum (map (fun e => Dict.get_default k 0 (series e)) es).

(** The loop [for k in order: totals[k] = sum(...)]. *)
Definition totals {E : Type} (series : E -> Dict.t Z) (es : list E)
           (order : list string) : Dict.t Z :=
  fold_left (fun d k => Dict.set k (series_total series es k) d) order Dict.empty.

(** [parse_master(wb)]; each argument is the sheet of that name, when the
    workbook has it. *)
Definition parse_master (art_ws cust_ws : option worksheet) : dataset :=
  let arts := match art_ws with Some ws => parse_articles ws | None => [] end in
  let custs := match cust_ws with Some ws => parse_customers ws | None => [] end in
  {| articles := arts;
     customers := custs;
     monthly_totals :=
       totals Article.monthly arts
              (sort_by String.leb (all_keys Article.monthly arts));
     ltm_trend :=
       totals Customer.ltm custs
              (sort_by (fun a b => key_le (ltm_sort_key a) (ltm_sort_key b))
                       (all_keys Customer.ltm custs)) |}.

(** ** Cohort classifier *)

(** [(chg/pre_v*100) if pre_v > 0 else 0] *)
Definition pct_change (chg pre_v : Z) : num := percent_of chg pre_v.

Module Churned.
Record t := {
  kund : string;
  previous : Z;
  current : Z;
  change : Z;
  last_month : option string
}.
End Churned.

Module Moved.
Record t := {
  kund : string;
  previous : Z;
  current : Z;
  change : Z;
  pct : num
}.
End Moved.

Module New.
Record t := { kund : string; current : Z }.
End New.

Record cohort_lists := {
  churned : list Churned.t;
  declining : list Moved.t;
  growing : list Moved.t;
  new : list New.t
}.

(** The most recent month of the customer's monthly series with a positive
    value. *)
Definition find_last_month (c : Customer.t) : option string :=
  let sorted_months := sort_by String.leb (Dict.keys (Customer.monthly c)) in
  find (fun m => 0 <? Dict.get_default m 0 (Customer.monthly c))
       (rev sorted_months).

Definition moved_rec (c : Customer.t) (pre_v cur_v : Z) : Moved.t :=
  {| Moved.kund := Customer.kund c;
     Moved.previous := pre_v;
     Moved.current := cur_v;
     Moved.change := cur_v - pre_v;
     Moved.pct := pct_change (cur_v - pre_v) pre_v |}.

Definition churned_rec (c : Customer.t) (pre_v cur_v : Z) : Churned.t :=
  {| Churned.kund := Customer.kund c;
     Churned.previous := pre_v;
     Churned.current := cur_v;
     Churned.change := cur_v - pre_v;
     Churned.last_month := find_last_month c |}.

Definition new_rec (c : Customer.t) (cur_v : Z) : New.t :=
  {| New.kund := Customer.kund c; New.current := cur_v |}.

(** The body of the loop over the customers: the [if]/[elif] chain. *)
Definition cohort_step (curr prev : string) (st : cohort_lists) (c : Customer.t)
  : cohort_lists :=
  let cur_v := Dict.get_default curr 0 (Customer.ltm c) in
  let pre_v := Dict.get_default prev 0 (Customer.ltm c) in
  let chg := cur_v - pre_v in
  if (0 <? pre_v) && (cur_v =? 0) then
    {| churned := churned st ++ [churned_rec c pre_v cur_v];
       declining := declining st; growing := growing st; new := new st |}
  else if (pre_v =? 0) && (0 <? cur_v) then
    {| churned := churned st; declining := declining st; growing := growing st;
       new := new st ++ [new_rec c cur_v] |}
  else if chg <? 0 then
    {| churned := churned st;
       declining := declining st ++ [moved_rec c pre_v cur_v];
       growing := growing st; new := new st |}
  else if 0 <? chg then
    {| churned := churned st; declining := declining st;
       growing := growing st ++ [moved_rec c pre_v cur_v]; new := new st |}
  else st.

Definition classify_all (d : dataset) (curr prev : string) : cohort_lists :=
  fold_left (cohort_step curr prev) (customers d)
            {| churned := []; declining := []; growing := []; new := [] |}.

Definition sort_cohorts (st : cohort_lists) : cohort_lists :=
  {| churned := sort_by (fun x y => Churned.previous y <=? Churned.previous x)
                        (churned st);
     declining := sort_by (fun x y => Moved.change x <=? Moved.change y)
                          (declining st);
     growing := sort_by (fun x y => Moved.change y <=? Moved.change x)
                        (growing st);
     new := sort_by (fun x y => New.current y <=? New.current x) (new st) |}.

(** One bucket of the churn timeline: [{'count': _, 'total': _}]. *)
Record bucket := { count : Z; total : Z }.

Definition timeline_step (tl : Dict.t bucket) (c : Churned.t) : Dict.t bucket :=
  let m := match Churned.last_month c with
           | Some m => if String.eqb m "" then "Unknown" else m
           | None => "Unknown"
           end in
  let b := Dict.get_default m {| count := 0; total := 0 |} tl in
  Dict.set m {| count := count b + 1; total := total b + Churned.previous c |} tl.

Record cohorts_result := {
  lists : cohort_lists;
  churn_timeline : Dict.t bucket
}.

Definition analyze_cohorts (d : dataset) (curr prev : string) : cohorts_result :=
  let st := sort_cohorts (classify_all d curr prev) in
  {| lists := st;
     churn_timeline := fold_left timeline_step (churned st) Dict.empty |}.

(** The revenue-bridge aggregates [generate_html] derives from the
    cohorts. *)
Definition churn_loss (r : cohorts_result) : Z :=
  py_sum (map Churned.previous (churned (lists r))).
Definition decline_loss (r : cohorts_result) : Z :=
  Z.abs (py_sum (map Moved.change (declining (lists r)))).
Definition growth_gain (r : cohorts_result) : Z :=
  py_sum (map Moved.change (growing (lists r))).
Definition new_gain (r : cohorts_result) : Z :=
  py_sum (map New.current (new (lists r))).

(** ** Decomposition engine *)

Module Decomp.
Record t := {
  period : string;
  total_change : Z;
  churn : Z;
  decline : Z;
  growth : Z;
  new : Z
}.
End Decomp.

(** The four running sums of one period pair. *)
Record sums := { s_churn : Z; s_decline : Z; s_growth : Z; s_new : Z }.

Definition decomp_step (curr_ltm prev_ltm : string) (a : sums) (c : Customer.t) : sums :=
  let curr_v := Dict.get_default curr_ltm 0 (Customer.ltm c) in
  let prev_v := Dict.get_default prev_ltm 0 (Customer.ltm c) in
  if (0 <? prev_v) && (curr_v =? 0) then
    {| s_churn := s_churn a + prev_v; s_decline := s_decline a;
       s_growth := s_growth a; s_new := s_new a |}
  else if (prev_v =? 0) && (0 <? curr_v) then
    {| s_churn := s_churn a; s_decline := s_decline a;
       s_growth := s_growth a; s_new := s_new a + curr_v |}
  else if curr_v <? prev_v then
    {| s_churn := s_churn a; s_decline := s_decline a + (prev_v - curr_v);
       s_growth := s_growth a; s_new := s_new a |}
  else if prev_v <? curr_v then
    {| s_churn := s_churn a; s_decline := s_decline a;
       s_growth := s_growth a + (curr_v - prev_v); s_new := s_new a |}
  else a.

(** The record appended for the pair [(prev_ltm, curr_ltm)]. *)
Definition decomp_record (d : dataset) (prev_ltm curr_ltm : string) : Decomp.t :=
  let a := fold_left (decomp_step curr_ltm prev_ltm) (customers d)
                     {| s_churn := 0; s_decline := 0; s_growth := 0; s_new := 0 |} in
  {| Decomp.period := curr_ltm;
     Decomp.total_change :=
       Dict.get_default curr_ltm 0 (ltm_trend d)
       - Dict.get_default prev_ltm 0 (ltm_trend d);
     Decomp.churn := - s_churn a;
     Decomp.decline := - s_decline a;
     Decomp.growth := s_growth a;
     Decomp.new := s_new a |}.

(** [(l[i-1], l[i])] for [i] in [range(1, len(l))]. *)
Fixpoint consecutive_pairs {A : Type} (l : list A) : list (A * A) :=
  match l with
  | x :: ((y :: _) as t) => (x, y) :: consecutive_pairs t
  | _ => []
  end.

(** LTM labels of the trend in chronological order. *)
Definition sorted_ltms (d : dataset) : list string :=
  sort_by (fun a b => key_le (ltm_sort_key a) (ltm_sort_key b))
          (Dict.keys (ltm_trend d)).

(** [all_ltms[-num_periods:] if len(all_ltms) >= num_periods else all_ltms] *)
Definition recent_window (all_ltms : list string) (num_periods : Z) : list string :=
  if num_periods <=? Z.of_nat (List.length all_ltms)
  then slice_from (- num_periods) all_ltms else all_ltms.

Record decomposition_result := {
  periods : list string;
  decomposition : list Decomp.t
}.

Definition analyze_ltm_decomposition (d : dataset) (num_periods : Z)
  : decomposition_result :=
  let all_ltms := sorted_ltms d in
  if (List.length all_ltms <? 2)%nat then {| periods := []; decomposition := [] |}
  else
    let recent_ltms := recent_window all_ltms num_periods in
    {| periods := slice_from 1 recent_ltms;
       decomposition :=
         map (fun pc => decomp_record d (fst pc) (snd pc))
             (consecutive_pairs recent_ltms) |}.

(** ** Trajectory analyzer *)

Module AtRisk.
Record t := {
  kund : string;
  current : Z;
  peak : Z;
  decline_pct : num;
  consecutive_months : nat;
  trajectory : list Z
}.
End AtRisk.

Module Consistent.
Record t := {
  kund : string;
  start : Z;
  current : Z;
  decline_pct : num;
  trajectory : list Z
}.
End Consistent.

(** The backward scan [for i in range(len(v) - 1, 0, -1)] on the reversed
    window: counts the steps [v[i] < v[i-1]] until the first that fails. *)
Fixpoint declines_from_end (r : list Z) : nat :=
  match r with
  | a :: ((b :: _) as t) => if a <? b then S (declines_from_end t) else O
  | _ => O
  end.

Definition consecutive_declines (values_only : list Z) : nat :=
  declines_from_end (rev values_only).

(** [all(v[i] < v[i-1] for i in range(1, len(v)) if v[i-1] > 0)] *)
Definition all_declining (values_only : list Z) : bool :=
  forallb (fun pc => if 0 <? fst pc then snd pc <? fst pc else true)
          (consecutive_pairs values_only).

(** [((a - b) / a * 100) if a > 0 else 0] *)
Definition decline_pct_of (a b : Z) : num := percent_of (a - b) a.

(** [v[-1]]; the window is not empty where it is read. *)
Definition last_value (values_only : list Z) : Z := last values_only 0.

Record candidates := {
  at_risk : list AtRisk.t;
  consistent_decline : list Consistent.t
}.

(** Exceptions: [None] is a raised exception, [x <- e ;; k] runs [k] when
    [e] returned. *)
Notation "x <- e ;; k" :=
  (match e with Some x => k | None => None end)
  (at level 61, e at next level, right associativity, only parsing).

(** The body of the loop over the customers.  [max] raises [ValueError] on
    an empty window and [v[0]] raises [IndexError]; after [max(values_only)]
    returned, the window is not empty. *)
Definition trajectory_step (recent_ltms : list string) (st : candidates)
           (c : Customer.t) : option candidates :=
  let values_only :=
    map (fun l => Dict.get_default l 0 (Customer.ltm c)) recent_ltms in
  mx <- py_max values_only ;;
  if mx <? 50000 then Some st
  else
    let cd := consecutive_declines values_only in
    let n := List.length values_only in
    st1 <- (if (3 <=? cd)%nat && (0 <? last_value values_only) then
              peak_val <- (if (cd <? n)%nat
                           then py_max (slice_to (- Z.of_nat cd) values_only)
                           else nth_error values_only 0) ;;
              let curr_val := last_value values_only in
              Some {| at_risk := at_risk st ++
                        [{| AtRisk.kund := Customer.kund c;
                            AtRisk.current := curr_val;
                            AtRisk.peak := peak_val;
                            AtRisk.decline_pct := decline_pct_of peak_val curr_val;
                            AtRisk.consecutive_months := cd;
                            AtRisk.trajectory :=
                              if (6 <=? n)%nat then slice_from (-6) values_only
                              else values_only |}];
                      consistent_decline := consistent_decline st |}
            else Some st) ;;
    Some
      (if all_declining values_only && (4 <=? n)%nat
          && (0 <? last_value values_only)
       then {| at_risk := at_risk st1;
               consistent_decline := consistent_decline st1 ++
                 [{| Consistent.kund := Customer.kund c;
                     Consistent.start := nth 0 values_only 0;
                     Consistent.current := last_value values_only;
                     Consistent.decline_pct :=
                       decline_pct_of (nth 0 values_only 0)
                                      (last_value values_only);
                     Consistent.trajectory := values_only |}] |}
       else st1).

(** The customer loop, stopping at the first exception. *)
Fixpoint trajectory_loop (recent_ltms : list string) (st : candidates)
         (cs : list Customer.t) : option candidates :=
  match cs with
  | [] => Some st
  | c :: cs' =>
      st' <- trajectory_step recent_ltms st c ;;
      trajectory_loop recent_ltms st' cs'
  end.

Record trajectories_result := {
  t_at_risk : list AtRisk.t;
  t_consistent_decline : list Consistent.t;
  t_periods : list string
}.

(** The candidate lists before sorting and capping. *)
Definition trajectory_candidates (d : dataset) (num_periods : Z) : option candidates :=
  trajectory_loop (recent_window (sorted_ltms d) num_periods)
                  {| at_risk := []; consistent_decline := [] |} (customers d).

(** [key=lambda x: x['decline_pct'], reverse=True] *)
Definition by_severity (x y : AtRisk.t) : bool :=
  num_leb (AtRisk.decline_pct y) (AtRisk.decline_pct x).

(** [key=lambda x: x['start'] - x['current'], reverse=True] *)
Definition by_decline_amount (x y : Consistent.t) : bool :=
  Consistent.start y - Consistent.current y
  <=? Consistent.start x - Consistent.current x.

Definition analyze_ltm_trajectories (d : dataset) (num_periods : Z)
  : option trajectories_result :=
  let all_ltms := sorted_ltms d in
  if (List.length all_ltms <? 3)%nat
  then Some {| t_at_risk := []; t_consistent_decline := []; t_periods := [] |}
  else
    st <- trajectory_candidates d num_periods ;;
    Some {| t_at_risk := slice_to 10 (sort_by by_severity (at_risk st));
            t_consistent_decline :=
              slice_to 10 (sort_by by_decline_amount (consistent_decline st));
            t_periods := recent_window all_ltms num_periods |}.

(** ** Commentary generator *)

(** A decoded JSON document, which is also the Python value it decodes to
    ([JNull] is [None], [JObj] a [dict]). *)
#[local] Unset Elimination Schemes.
Inductive json :=
| JNull
| JBool (b : bool)
| JNum (q : Q)
| JStr (s : string)
| JArr (l : list json)
| JObj (m : list (string * json)).
#[local] Set Elimination Schemes.

(** What [requests.post] does: it raises, or it returns a response with a
    status code and a body; [resp_json] is [response.json()], [None] when
    the body does not decode. *)
Inductive post_outcome :=
| TransportError
| Response (status_code : Z) (resp_json : option json).

(** [obj[key]] for a string key. *)
Definition subscript_key (key : string) (obj : json) : option json :=
  match obj with
  | JObj m => Dict.get key m
  | _ => None
  end.

(** [obj[0]] *)
Definition subscript_0 (obj : json) : option json :=
  match obj with
  | JArr (x :: _) => Some x
  | JStr (String c _) => Some (JStr (String c ""))
  | _ => None
  end.

(** [re.search(r'\{[\s\S]*\}', content).group()]: from the first opening
    brace to the last closing brace after it. *)
Definition search_braces (content : string) : option string :=
  let from_open := Py.drop_while (fun c => negb (Ascii.eqb c "{")) content in
  match from_open with
  | EmptyString => None
  | String b rest =>
      match Py.drop_while (fun c => negb (Ascii.eqb c "}")) (Py.rev_string "" rest) with
      | EmptyString => None
      | to_close => Some (String b (Py.rev_string "" to_close))
      end
  end.

(** How a call of the generator ends. *)
Inductive py_outcome :=
| Returned (v : json)
| Raised.

Section Commentary.
(** [json.loads]; [None] when it raises. *)
Variable json_loads : string -> option json.

(** The [try] block after the request returned: [None] is an exception
    raised inside it, [Some v] the value the function returns. *)
Definition commentary_body (status_code : Z) (resp_json : option json)
  : option json :=
  if status_code =? 200 then
    result <- resp_json ;;
    l <- subscript_key "content" result ;;
    item <- subscript_0 l ;;
    text <- subscript_key "text" item ;;
    match text with
    | JStr content =>
        match search_braces content with
        | Some m => json_loads m
        | None => Some JNull   (* no [return] is reached *)
        end
    | _ => None                (* [re.search] raises [TypeError] *)
    end
  else Some (JObj []).

(** [generate_ai_commentary(api_key, chart_data)].  The metrics summary
    is only formatted into the prompt of the request; [post] is what
    [requests.post] does with that request.  Without a key no request is
    made; [except Exception] turns every exception of the [try] block into
    the empty mapping. *)
Definition generate_ai_commentary (api_key : string) (post : post_outcome)
  : py_outcome :=
  if String.eqb api_key "" then Returned (JObj [])
  else
    match post with
    | TransportError => Returned (JObj [])
    | Response status_code resp_json =>
        match commentary_body status_code resp_json with
        | Some v => Returned v
        | None => Returned (JObj [])
        end
    end.
End Commentary.

(** [result['content'][0]['text']]; [None] when a subscript raises. *)
Definition reply_text (result : json) : option json :=
  l <- subscript_key "content" result ;;
  item <- subscript_0 l ;;
  subscript_key "text" item.

(** ** Specification-side definitions *)

(** A well-formed label, in the words of the specification:
    ["LTM <2-digit-year>-<3-letter-month-abbrev>"] with the abbreviation an
    entry of the month table. *)
Definition well_formed_label (s : string) : bool :=
  match s with
  | String "L" (String "T" (String "M" (String " "
      (String d1 (String d2 (String "-" m)))))) =>
      Py.is_digit d1 && Py.is_digit d2 && Dict.mem m swedish_months
  | _ => false
  end.

(** The key the specification gives a well-formed label:
    [(2000 + two-digit year, month number)]. *)
Definition expected_key (s : string) : Z * Z :=
  match s with
  | String _ (String _ (String _ (String _
      (String d1 (String d2 (String _ m)))))) =>
      (2000 + (10 * Py.digit_val d1 + Py.digit_val d2),
       Dict.get_default m 0 swedish_months)
  | _ => (0, 0)
  end.

Definition key_lt (a b : Z * Z) : bool := key_le a b && negb (key_le b a).

(** The label with year digits [d1 d2] and month abbreviation [m]. *)
Definition label_of (d1 d2 : ascii) (m : string) : string :=
  String "L" (String "T" (String "M" (String " "
    (String d1 (String d2 (String "-" m)))))).

Definition all_ascii : list ascii := map ascii_of_nat (seq 0 256).

Definition digit_chars : list ascii :=
  ["0"; "1"; "2"; "3"; "4"; "5"; "6"; "7"; "8"; "9"]%char.

(** The customer's LTM value at a period key, missing = 0. *)
Definition ltm_at (key : string) (c : Customer.t) : Z :=
  Dict.get_default key 0 (Customer.ltm c).

(** The four cohort conditions of the specification, on
    [(prev, cur)]. *)
Definition is_churned (prev_v cur_v : Z) : bool := (0 <? prev_v) && (cur_v =? 0).
Definition is_new (prev_v cur_v : Z) : bool := (prev_v =? 0) && (0 <? cur_v).
Definition is_declining (prev_v cur_v : Z) : bool :=
  (cur_v <? prev_v) && negb (is_churned prev_v cur_v).
Definition is_growing (prev_v cur_v : Z) : bool :=
  (prev_v <? cur_v) && negb (is_new prev_v cur_v).


(** The customers of [d] that satisfy a condition on [(prev, cur)]. *)
Definition customers_where (cond : Z -> Z -> bool) (d : dataset)
           (curr prev : string) : list Customer.t :=
  filter (fun c => cond (ltm_at prev c) (ltm_at curr c)) (customers d).

(** A mathematical sum, [x1 + (x2 + ... + 0)]. *)
Definition Zsum (l : list Z) : Z := fold_right Z.add 0 l.

(** The customer's value dropped between the two periods. *)
Definition dropped (prev_v cur_v : Z) : bool := cur_v <? prev_v.


(** The worksheet with every cell holding the number 0 emptied. *)
Definition blank_zeros (ws : worksheet) : worksheet :=
  {| max_row := max_row ws;
     max_column := max_column ws;
     cell_value := fun r c =>
       match cell_value ws r c with
       | CInt 0 => CNone
       | v => v
       end |}.

(** Every value stored in the series map is non-zero. *)
Definition nonzero_values (d : Dict.t Z) : Prop :=
  forall k v, Dict.get k d = Some v -> v <> 0.





(** ** Sample workbooks *)

(** A worksheet given by its rows; rows and columns are numbered from 1. *)
Definition grid_sheet (rows : list (list cell)) : worksheet :=
  {| max_row := List.length rows;
     max_column := fold_right Nat.max 0%nat (map (@List.length cell) rows);
     cell_value := fun r c => nth (c - 1) (nth (r - 1) rows []) CNone |}.

Definition month_header (ym : string) : cell :=
  CDate {| dt_str := (ym ++ "-01 00:00:00")%string; dt_ym := ym |}.

(** A customer sheet with one invoiced month and thirteen LTM cut-offs. *)
Definition thirteen_ltm_sheet : worksheet :=
  grid_sheet
    [ [CStr "Kundnr"; CStr "Kund"; month_header "2025-11";
       CStr "LTM 24-nov"; CStr "LTM 24-dec"; CStr "LTM 25-jan";
       CStr "LTM 25-feb"; CStr "LTM 25-mar"; CStr "LTM 25-apr";
       CStr "LTM 25-maj"; CStr "LTM 25-jun"; CStr "LTM 25-jul";
       CStr "LTM 25-aug"; CStr "LTM 25-sep"; CStr "LTM 25-okt";
       CStr "LTM 25-nov"];
      [CInt 1001; CStr "Acme AB"; CInt 5000;
       CInt 100; CInt 110; CInt 120; CInt 130; CInt 140; CInt 150; CInt 160;
       CInt 170; CInt 180; CInt 190; CInt 200; CInt 210; CInt 220];
      [CInt 1002; CStr "Borealis AB"; CInt 700;
       CInt 900; CInt 900; CInt 800; CInt 800; CNone; CNone; CNone;
       CNone; CNone; CNone; CInt 50; CInt 60; CInt 0] ].

Definition thirteen_ltm_data : dataset := parse_master None (Some thirteen_ltm_sheet).

(** A customer sheet with five LTM cut-offs, every step a decline. *)
Definition declining_sheet : worksheet :=
  grid_sheet
    [ [CStr "Kundnr"; CStr "Kund"; month_header "2025-11";
       CStr "LTM 25-jul"; CStr "LTM 25-aug"; CStr "LTM 25-sep";
       CStr "LTM 25-okt"; CStr "LTM 25-nov"];
      [CInt 2001; CStr "Nordmagnet AB"; CInt 4000;
       CInt 100000; CInt 95000; CInt 80000; CInt 60000; CInt 55000] ].

Definition declining_data : dataset := parse_master None (Some declining_sheet).

Definition nordmagnet : Customer.t :=
  {| Customer.kund := "Nordmagnet AB";
     Customer.monthly := [("2025-11", 4000)];
     Customer.fy := [];
     Customer.ltm := [("LTM 25-jul", 100000); ("LTM 25-aug", 95000);
                      ("LTM 25-sep", 80000); ("LTM 25-okt", 60000);
                      ("LTM 25-nov", 55000)] |}.

(** A success response whose text carries no JSON object. *)
Definition refusal_body : json :=
  JObj [("id", JStr "msg_01");
        ("type", JStr "message");
        ("content",
         JArr [JObj [("type", JStr "text");
                     ("text", JStr "I am unable to analyse these figures.")]])].

(** The letters of the currency codes. *)
Definition currency_letters : list ascii :=
  ["S"; "E"; "K"; "U"; "R"; "D"; "G"; "B"; "P"]%char.

(** The characters of [s] that satisfy [p], in order. *)
Fixpoint filter_string (p : ascii -> bool) (s : string) : string :=
  match s with
  | EmptyString => EmptyString
  | String c s' => if p c then String c (filter_string p s') else filter_string p s'
  end.

Definition is_not (c : ascii) (x : ascii) : bool := negb (Ascii.eqb x c).

(** A comma becomes a full stop, every other character is kept. *)
Definition comma_to_stop (x : ascii) : ascii := if Ascii.eqb x "," then "."%char else x.

Definition newline : ascii := ascii_of_N 10.

(** The characters a string passed to [float] is made of. *)
Definition float_char (c : ascii) : bool :=
  Py.is_digit c || Ascii.eqb c "." || Py.is_space c.

(** The second customer of the thirteen-period sheet, as parsed: the empty
    cells and the zero cell of its row leave no entry. *)
Definition borealis : Customer.t :=
  {| Customer.kund := "Borealis AB";
     Customer.monthly := [("2025-11", 700)];
     Customer.fy := [];
     Customer.ltm := [("LTM 24-nov", 900); ("LTM 24-dec", 900);
                      ("LTM 25-jan", 800); ("LTM 25-feb", 800);
                      ("LTM 25-sep", 50); ("LTM 25-okt", 60)] |}.

(** ** Further functions of the source *)

(** [sub in s] *)
Fixpoint contains (sub s : string) : bool :=
  prefix sub s
  || match s with
     | EmptyString => false
     | String _ s' => contains sub s'
     end.

Definition a_ring : ascii := ascii_of_N 229.   (* a with ring above *)
Definition o_uml : ascii := ascii_of_N 246.    (* o with diaeresis *)

(** The table [industry_keywords], in its declared order. *)
Definition industry_keywords : list (string * list string) :=
  [("Automotive/EV",
    ["volvo"; "scania"; "autoliv"; "automotive"; "car-o-liner"; "motor";
     "vehicle"; "polestar"]);
   ("Manufacturing/Industrial",
    ["manufacturing"; "industri"; "produktion"; "verkstad"; "maskin"; "tool";
     "sandvik"; "atlas copco"; "skf"; "abb"; "seco tool"]);
   ("Electronics/Tech",
    ["elektr"; "electronic"; "tech"; "sensor"; "circuit"; "pcb"; "kitron";
     "zollner"; "gpv"; "keba"; "automation"; "amada"]);
   ("Medical/Healthcare",
    ["medical"; "medic"; "health"; "pharma"; "hospital"; "dental"; "medi";
     "gambro"]);
   ("Energy/Wind",
    ["energy"; "energi"; "wind"; "solar"; "power"; "kraft"; "vattenfall";
     "nibe"; "heat pump"; "linak"]);
   ("Mining/Steel",
    ["mining"; "gruv"; "steel"; String "s" (String "t" (String a_ring "l"));
     "metall"; "metal"; "ssab"; "lkab"; "boliden"; "metso"]);
   ("Food/Packaging",
    ["food"; "livsmedel"; "tetra pak"; "packaging";
     String "f" (String o_uml "rpackning"); "metos"]);
   ("Construction/Building",
    ["bygg"; "construction"; "building"; "fastighet"; "property"]);
   ("Defense/Aerospace",
    ["defense"; String "f" (String o_uml "rsvar"); "military"; "aerospace";
     "flyg"; "saab"]);
   ("Logistics/Transport",
    ["transport"; "logist"; "shipping"; "frakt"; "truckcam"])].

Definition other_general : string := "Other/General".

(** Some keyword of the list occurs in the lower-cased name. *)
Definition matches_any (name_lower : string) (keywords : list string) : bool :=
  existsb (fun kw => contains kw name_lower) keywords.

(** [classify_customer_industry(name)] for a name that is a string: the
    first industry of the table with a keyword occurring in the lower-cased
    name. *)
Definition classify_customer_industry (name : string) : string :=
  if String.eqb name "" || String.eqb (Py.strip name) "" then other_general
  else
    match find (fun entry => matches_any (Py.lower name) (snd entry))
               industry_keywords with
    | Some entry => fst entry
    | None => other_general
    end.

(** [find_sheet(wb, names)]: the title of the sheet returned, [None] when
    the function returns [None].  [sheetnames] is [wb.sheetnames]. *)
Definition find_sheet (sheetnames names : list string) : option string :=
  let lower := fold_left (fun d n => Dict.set (Py.lower n) n d) sheetnames Dict.empty in
  match find (fun name => Dict.mem (Py.lower name) lower) names with
  | Some name => Dict.get (Py.lower name) lower
  | None =>
      match sheetnames with
      | [n] => Some n
      | _ => None
      end
  end.

Module TopArt.
Record t := { artikelnr : string; artikelnamn : cell; value : Z }.
End TopArt.

Module TopCust.
Record t := { kund : string; current : Z; previous : Z; change : Z }.
End TopCust.

(** [get_top20_art(data, ltm_key)] *)
Definition get_top20_art (d : dataset) (ltm_key : string) : list TopArt.t :=
  let arts :=
    map (fun a => {| TopArt.artikelnr := Article.artikelnr a;
                     TopArt.artikelnamn := Article.artikelnamn a;
                     TopArt.value := Dict.get_default ltm_key 0 (Article.ltm a) |})
        (filter (fun a => 0 <? Dict.get_default ltm_key 0 (Article.ltm a))
                (articles d)) in
  slice_to 20 (sort_by (fun x y => TopArt.value y <=? TopArt.value x) arts).

(** The body of the loop of [get_top20_cust]. *)
Definition top_cust_step (curr prev : string) (custs : list TopCust.t)
           (c : Customer.t) : list TopCust.t :=
  let cur_v := Dict.get_default curr 0 (Customer.ltm c) in
  if 0 <? cur_v then
    custs ++ [{| TopCust.kund := Customer.kund c;
                 TopCust.current := cur_v;
                 TopCust.previous := Dict.get_default prev 0 (Customer.ltm c);
                 TopCust.change := cur_v - Dict.get_default prev 0 (Customer.ltm c) |}]
  else custs.

(** [get_top20_cust(data, curr, prev)] *)
Definition get_top20_cust (d : dataset) (curr prev : string) : list TopCust.t :=
  slice_to 20
    (sort_by (fun x y => TopCust.current y <=? TopCust.current x)
             (fold_left (top_cust_step curr prev) (customers d) [])).

(** The headline figures of [generate_html]. *)
Definition total_ltm (d : dataset) (curr_ltm : string) : Z :=
  Dict.get_default curr_ltm 0 (ltm_trend d).

Definition yoy_chg (d : dataset) (curr_ltm prev_ltm : string) : Z :=
  total_ltm d curr_ltm - Dict.get_default prev_ltm 0 (ltm_trend d).

(** [len([c for c in data['customers'] if c['ltm'].get(curr_ltm, 0) > 0])] *)
Definition active_customers (d : dataset) (curr_ltm : string) : nat :=
  List.length (filter (fun c => 0 <? Dict.get_default curr_ltm 0 (Customer.ltm c))
                      (customers d)).

(** [sum(c['current'] for c in top20_cust)] *)
Definition top20_sum (d : dataset) (curr_ltm prev_ltm : string) : Z :=
  py_sum (map TopCust.current (get_top20_cust d curr_ltm prev_ltm)).

(** The period selection of the dashboard:
    [curr = ltms[-1] if ltms else None] and
    [prev = ltms[-13] if len(ltms) > 12 else ltms[0] if ltms else None]. *)
Definition select_periods (ltms : list string) : option string * option string :=
  (match ltms with [] => None | _ => Some (last ltms "") end,
   if (12 <? List.length ltms)%nat then nth_error ltms (List.length ltms - 13)
   else nth_error ltms 0).

(** The chronological order of LTM labels used by every [sorted] call:
    [a] comes no later than [b]. *)
Definition chrono_le (a b : string) : bool :=
  key_le (ltm_sort_key a) (ltm_sort_key b).

(** A worksheet has no cell beyond its last column: [ws.cell(r, c).value]
    is [None] for [c > ws.max_column]. *)
Definition within_columns (ws : worksheet) : Prop :=
  forall r c, (max_column ws < c)%nat -> cell_value ws r c = CNone.

(** Two worksheets with the same number of rows that agree on columns 1 to
    99. *)
Definition same_first_99_columns (ws ws' : worksheet) : Prop :=
  max_row ws = max_row ws'
  /\ forall r c, (c < 100)%nat -> cell_value ws r c = cell_value ws' r c.

(** The columns a header dictionary points to are columns 3 to 99. *)
Definition columns_in_range (cols : Dict.t nat) : Prop :=
  forall k c, In (k, c) cols -> (3 <= c < 100)%nat.

(** The five-period sheet with a hundredth column: one more LTM cut-off. *)
Definition wide_sheet : worksheet :=
  {| max_row := 2;
     max_column := 100;
     cell_value := fun r c =>
       if (c =? 100)%nat
       then (if (r =? 1)%nat then CStr "LTM 25-dec" else CInt 50000)
       else cell_value declining_sheet r c |}.

(** What the header scan keeps in its three dictionaries. *)
Definition headers_ok (hc : header_cols) : Prop :=
  (forall k, In k (Dict.keys (ltms hc)) -> prefix "LTM" k = true)
  /\ (forall k, In k (Dict.keys (fys hc)) -> prefix "FY" k = true \/ k = "YTD")
  /\ columns_in_range (months hc) /\ columns_in_range (ltms hc)
  /\ columns_in_range (fys hc).

(** The customer's monthly value at a month key, missing = 0. *)
Definition monthly_at (m : string) (c : Customer.t) : Z :=
  Dict.get_default m 0 (Customer.monthly c).

(** The buckets of a churn timeline. *)
Definition buckets (tl : Dict.t bucket) : list bucket := Dict.values tl.

(** The top-20 record of a customer. *)
Definition top_cust_rec (curr prev : string) (c : Customer.t) : TopCust.t :=
  {| TopCust.kund := Customer.kund c;
     TopCust.current := ltm_at curr c;
     TopCust.previous := ltm_at prev c;
     TopCust.change := ltm_at curr c - ltm_at prev c |}.

(** The top-20 record of an article. *)
Definition top_art_rec (ltm_key : string) (a : Article.t) : TopArt.t :=
  {| TopArt.artikelnr := Article.artikelnr a;
     TopArt.artikelnamn := Article.artikelnamn a;
     TopArt.value := Dict.get_default ltm_key 0 (Article.ltm a) |}.





(** The sheet title [n] equals the candidate [name] up to letter case. *)
Definition sheet_named (name n : string) : bool :=
  String.eqb (Py.lower n) (Py.lower name).

(** The two character tests of [search_braces]. *)
Definition not_open (c : ascii) : bool := negb (Ascii.eqb c "{").
Definition not_close (c : ascii) : bool := negb (Ascii.eqb c "}").

(** ** Industry aggregation of the dashboard *)

Module Industry.
Record stats := { curr : Z; prev : Z; churned_rev : Z; new_rev : Z; count : Z }.
Record row := {
  industry : string;
  curr_ltm : Z;
  change_pct : num;
  row_churned_rev : Z;
  row_count : Z
}.
End Industry.

(** The default of the [defaultdict]. *)
Definition industry_zero : Industry.stats :=
  {| Industry.curr := 0; Industry.prev := 0; Industry.churned_rev := 0;
     Industry.new_rev := 0; Industry.count := 0 |}.

(** The body of the loop over the customers: a customer with no revenue in
    either period is skipped, every other one is added to the entry of its
    industry, which the first access creates. *)
Definition industry_step (curr prev : string) (st : Dict.t Industry.stats)
           (c : Customer.t) : Dict.t Industry.stats :=
  let curr_v := Dict.get_default curr 0 (Customer.ltm c) in
  let prev_v := Dict.get_default prev 0 (Customer.ltm c) in
  if (curr_v =? 0) && (prev_v =? 0) then st
  else
    let industry := classify_customer_industry (Customer.kund c) in
    let s := Dict.get_default industry industry_zero st in
    Dict.set industry
      {| Industry.curr := Industry.curr s + curr_v;
         Industry.prev := Industry.prev s + prev_v;
         Industry.churned_rev :=
           if (curr_v =? 0) && (0 <? prev_v)
           then Industry.churned_rev s + prev_v else Industry.churned_rev s;
         Industry.new_rev :=
           if (curr_v =? 0) && (0 <? prev_v) then Industry.new_rev s
           else if (0 <? curr_v) && (prev_v =? 0)
                then Industry.new_rev s + curr_v else Industry.new_rev s;
         Industry.count := Industry.count s + 1 |}
      st.

Definition industry_stats (d : dataset) (curr prev : string)
  : Dict.t Industry.stats :=
  fold_left (industry_step curr prev) (customers d) Dict.empty.

(** The rows handed to the report: the entries by current revenue, largest
    first, without those that have no positive revenue in either period. *)
Definition industry_data (d : dataset) (curr prev : string) : list Industry.row :=
  map (fun kv =>
         {| Industry.industry := fst kv;
            Industry.curr_ltm := Industry.curr (snd kv);
            Industry.change_pct :=
              pct_change (Industry.curr (snd kv) - Industry.prev (snd kv))
                         (Industry.prev (snd kv));
            Industry.row_churned_rev := Industry.churned_rev (snd kv);
            Industry.row_count := Industry.count (snd kv) |})
      (filter (fun kv => (0 <? Industry.curr (snd kv))
                         || (0 <? Industry.prev (snd kv)))
              (sort_by (fun x y => Industry.curr (snd y) <=? Industry.curr (snd x))
                       (Dict.items (industry_stats d curr prev)))).

(** The customer has revenue in one of the two periods. *)
Definition has_revenue (curr prev : string) (c : Customer.t) : bool :=
  negb ((ltm_at curr c =? 0) && (ltm_at prev c =? 0)).

(** [c * n] for a one-character string [c]. *)
Fixpoint repeat_char (c : ascii) (n : nat) : string :=
  match n with
  | O => EmptyString
  | S n' => String c (repeat_char c n')
  end.

Definition tab : ascii := ascii_of_N 9.

(** The decimal convention in the words of the specification: a numeric run
    that ends in a comma followed by two digits has its full stops removed
    and its commas turned into the decimal point; any other run has its
    commas removed. *)
Definition ends_in_comma_two_digits (run : string) : bool :=
  match Py.rev_string "" run with
  | String d2 (String d1 (String c _)) =>
      Py.is_digit d2 && Py.is_digit d1 && Ascii.eqb c ","
  | _ => false
  end.

Definition claimed_normalise (run : string) : string :=
  if ends_in_comma_two_digits run
  then Py.map_string comma_to_stop (filter_string (is_not ".") run)
  else filter_string (is_not ",") run.




(** ** The cohort analysis on a ledger of float amounts *)

(** The classification and the two losses of the revenue bridge, as the
    same code computes them when the amounts are [float]: every difference
    and every addition is rounded to binary64.  A missing amount, the
    integer 0 of [get(key, 0)], compares and adds as [0.0].  The customers
    carry their LTM series only, and the [last_month] of a churned record,
    which is read from the monthly series, is left out. *)
Module FloatLedger.

Definition zero : B64.t := S754_zero false.

(** [sum(l)] on floats, started from the integer 0: the additions are made
    from left to right, each rounded (the interpreter up to version 3.11;
    later versions add a correction of the rounding errors at the end). *)
Definition py_sum (l : list B64.t) : B64.t := fold_left B64.add l zero.

Record customer := { kund : string; ltm : Dict.t B64.t }.

(** [c['ltm'].get(key, 0)] *)
Definition ltm_at (key : string) (c : customer) : B64.t :=
  Dict.get_default key zero (ltm c).

Module Churned.
Record t := { kund : string; previous : B64.t; current : B64.t; change : B64.t }.
End Churned.

Module Moved.
Record t := { kund : string; previous : B64.t; current : B64.t; change : B64.t;
              pct : num }.
End Moved.

Module New.
Record t := { kund : string; current : B64.t }.
End New.

Record cohort_lists := {
  churned : list Churned.t;
  declining : list Moved.t;
  growing : list Moved.t;
  new : list New.t
}.

(** [(chg/pre_v*100) if pre_v > 0 else 0] *)
Definition pct_change (chg pre_v : B64.t) : num :=
  if B64.ltb zero pre_v
  then Float (SFmul B64.prec B64.emax (SFdiv B64.prec B64.emax chg pre_v)
                    (B64.of_Z 100))
  else Int 0.

Definition moved_rec (c : customer) (pre_v cur_v : B64.t) : Moved.t :=
  {| Moved.kund := kund c;
     Moved.previous := pre_v;
     Moved.current := cur_v;
     Moved.change := B64.sub cur_v pre_v;
     Moved.pct := pct_change (B64.sub cur_v pre_v) pre_v |}.

(** The body of the loop over the customers: the [if]/[elif] chain. *)
Definition cohort_step (curr prev : string) (st : cohort_lists) (c : customer)
  : cohort_lists :=
  let cur_v := ltm_at curr c in
  let pre_v := ltm_at prev c in
  let chg := B64.sub cur_v pre_v in
  if B64.ltb zero pre_v && B64.eqb cur_v zero then
    {| churned := churned st
                  ++ [{| Churned.kund := kund c; Churned.previous := pre_v;
                         Churned.current := cur_v; Churned.change := chg |}];
       declining := declining st; growing := growing st; new := new st |}
  else if B64.eqb pre_v zero && B64.ltb zero cur_v then
    {| churned := churned st; declining := declining st; growing := growing st;
       new := new st ++ [{| New.kund := kund c; New.current := cur_v |}] |}
  else if B64.ltb chg zero then
    {| churned := churned st;
       declining := declining st ++ [moved_rec c pre_v cur_v];
       growing := growing st; new := new st |}
  else if B64.ltb zero chg then
    {| churned := churned st; declining := declining st;
       growing := growing st ++ [moved_rec c pre_v cur_v]; new := new st |}
  else st.

(** The lists after the four sorts. *)
Definition analyze_cohorts (customers : list customer) (curr prev : string)
  : cohort_lists :=
  let st := fold_left (cohort_step curr prev) customers
              {| churned := []; declining := []; growing := []; new := [] |} in
  {| churned := sort_by (fun x y => SFleb (Churned.previous y) (Churned.previous x))
                        (churned st);
     declining := sort_by (fun x y => SFleb (Moved.change x) (Moved.change y))
                          (declining st);
     growing := sort_by (fun x y => SFleb (Moved.change y) (Moved.change x))
                        (growing st);
     new := sort_by (fun x y => SFleb (New.current y) (New.current x)) (new st) |}.

(** [sum(c['previous'] for c in cohorts['churned'])] *)
Definition churn_loss (r : cohort_lists) : B64.t :=
  py_sum (map Churned.previous (churned r)).

(** [abs(sum(c['change'] for c in cohorts['declining']))] *)
Definition decline_loss (r : cohort_lists) : B64.t :=
  B64.abs (py_sum (map Moved.change (declining r))).



End FloatLedger.

(** ** The amount parser beyond U+0100 *)

(** Under [re.IGNORECASE] two characters beyond U+0100 match a letter of
    the alternation [(SEK|EUR|USD|GBP)]: U+017F (latin small letter long s)
    matches [S] and U+212A (kelvin sign) matches [K]; every other letter of
    the alternation matches its two ASCII cases only.  [Wide] gives
    [clean_amount] on texts made of the characters below U+0100 and these
    two.  Neither is a digit or white space, so the first group, and the
    string given to [float], hold characters below U+0100. *)
Module Wide.

Inductive char := Latin (c : ascii) | LongS | KelvinSign.

Definition text := list char.

Definition of_string (s : string) : text := map Latin (list_ascii_of_string s).

Definition is_space (u : char) : bool :=
  match u with
  | Latin c => Py.is_space c
  | LongS | KelvinSign => false
  end.

Fixpoint drop_while (p : char -> bool) (t : text) : text :=
  match t with
  | [] => []
  | u :: t' => if p u then drop_while p t' else t
  end.

(** [t.strip()] *)
Definition strip (t : text) : text :=
  rev (drop_while is_space (rev (drop_while is_space t))).

(** The greedy first group [([\d\s\xa0\.,]+)] and the text after it. *)
Fixpoint span_amount (t : text) : string * text :=
  match t with
  | Latin c :: t' =>
      if amount_char c
      then let (g, r) := span_amount t' in (String c g, r)
      else (EmptyString, t)
  | _ => (EmptyString, t)
  end.

(** The characters that match the pattern letter [p] under
    [re.IGNORECASE]. *)
Definition letter_match (p : ascii) (u : char) : bool :=
  match u with
  | Latin c => Ascii.eqb (Py.lower_char c) (Py.lower_char p)
  | LongS => Ascii.eqb p "S"
  | KelvinSign => Ascii.eqb p "K"
  end.

Fixpoint literal_match (pat : string) (t : text) : bool :=
  match pat, t with
  | EmptyString, _ => true
  | String p pat', u :: t' => letter_match p u && literal_match pat' t'
  | String _ _, [] => false
  end.

(** The optional group [(SEK|EUR|USD|GBP)?] tried at the start of [t]: the
    alternatives are tried in their order. *)
Definition match_currency (t : text) : option text :=
  match find (fun alt => literal_match alt t) currency_codes with
  | Some alt => Some (firstn (String.length alt) t)
  | None => None
  end.

(** [upper()] on the text of the second group, character by character: a
    letter below U+0100 as [Py.upper_char] gives it, the long s becomes
    [S], and the kelvin sign is an upper-case letter already. *)
Definition upper_char (u : char) : char :=
  match u with
  | Latin c => Latin (Py.upper_char c)
  | LongS => Latin "S"
  | KelvinSign => KelvinSign
  end.

Definition upper (t : text) : text := map upper_char t.

(** [clean_amount(raw)]; [raw] is [None] or the text [str(raw)]. *)
Definition clean_amount (raw : option text) : option Q * option text :=
  match raw with
  | None => (None, None)
  | Some t =>
      let (g1, rest) := span_amount (strip t) in
      match g1 with
      | EmptyString => (None, None)
      | _ =>
          let g2 := match_currency (drop_while is_space rest) in
          let s := Py.replace " " "" (Py.replace (String nbsp "") "" g1) in
          let cur := match g2 with
                     | Some w => upper w
                     | None => of_string "SEK"
                     end in
          match Py.float (normalise_decimal s) with
          | Some v => (Some v, Some cur)
          | None => (None, None)
          end
      end
  end.

(** ['SEK'], the code [SEK] spelled with the kelvin sign. *)
Definition sek_kelvin : text := [Latin "S"; Latin "E"; KelvinSign].

End Wide.

(** * Properties *)

(** ** Characters *)

Lemma in_all_ascii (c : ascii) : In c all_ascii.
Proof.
  unfold all_ascii. rewrite <- (ascii_nat_embedding c).
  apply in_map, in_seq. pose proof (nat_ascii_bounded c). lia.
Qed.

(** A property checked on the 256 characters holds of every character. *)
Lemma forall_ascii (P : ascii -> bool) :
  forallb P all_ascii = true -> forall c, P c = true.
Proof.
  intros H c. rewrite forallb_forall in H. apply H, in_all_ascii.
Qed.

Lemma is_digit_in (c : ascii) : Py.is_digit c = true -> In c digit_chars.
Proof.
  intros H.
  assert (E : existsb (Ascii.eqb c) digit_chars = true).
  { revert H.
    generalize (forall_ascii
      (fun c => implb (Py.is_digit c) (existsb (Ascii.eqb c) digit_chars))
      eq_refl c).
    destruct (Py.is_digit c); simpl; [intros -> | discriminate]; reflexivity. }
  apply existsb_exists in E. destruct E as [x [Hx E]].
  apply Ascii.eqb_eq in E. now subst.
Qed.

(** ** The Python primitives on sample inputs *)

Example replace_single_pass : Py.replace "LTM " "" "LLTM TM 25" = "LTM 25".
Proof. reflexivity. Qed.

Example split_keeps_empty_parts : Py.split "-" "a-b--c" = ["a"; "b"; ""; "c"].
Proof. reflexivity. Qed.

Example int_literals :
  map Py.int [" 1 "; "007"; "1_0"; "+5"; ""; "1__0"; "_1"; "+ 5"; "1.0"]
  = [Some 1; Some 7; Some 10; Some 5; None; None; None; None; None].
Proof. reflexivity. Qed.

Example float_literals :
  map Py.float ["1."; ".5"; "."; "1.2.3"; "12"]
  = [Some (1 # 1); Some (1 # 2); None; None; Some (12 # 1)].
Proof. reflexivity. Qed.

Example sorted_reverse_is_stable :
  sort_by (fun x y => fst y <=? fst x) [(1, "a"); (0, "b"); (1, "c"); (0, "d")]
  = [(1, "a"); (1, "c"); (0, "b"); (0, "d")].
Proof. reflexivity. Qed.

Example slices :
  slice_from 0 [3; 1; 2] = [3; 1; 2] /\ slice_from (-5) [1; 2; 3] = [1; 2; 3]
  /\ slice_from 5 [1; 2; 3] = [] /\ slice_to 0 [1; 2; 3] = []
  /\ slice_to (-1) [1; 2; 3] = [1; 2].
Proof. repeat split. Qed.

(** ** Period key resolver *)

Lemma month_number_range (k : string) :
  1 <= Dict.get_default k 1 swedish_months <= 12.
Proof.
  unfold Dict.get_default, swedish_months. simpl.
  repeat match goal with
         | |- context [String.eqb k ?m] => destruct (String.eqb k m)
         end; lia.
Qed.

Lemma mem_month_in (m : string) :
  Dict.mem m swedish_months = true -> In m (Dict.keys swedish_months).
Proof.
  unfold Dict.mem, swedish_months. simpl.
  repeat match goal with
         | |- context [String.eqb m ?k] =>
             destruct (String.eqb_spec m k); [subst; simpl; tauto |]
         end.
  discriminate.
Qed.

Lemma well_formed_enumerated :
  forallb (fun d1 => forallb (fun d2 => forallb (fun m =>
      let s := label_of d1 d2 m in
      let k := ltm_sort_key s in
      (fst k =? fst (expected_key s)) && (snd k =? snd (expected_key s))
      && key_lt k sentinel_key && (1 <=? snd k) && (snd k <=? 12)
      && (2000 <=? fst k) && (fst k <=? 2099))
    (Dict.keys swedish_months)) digit_chars) digit_chars = true.
Proof. vm_compute. reflexivity. Qed.

Lemma well_formed_key (s : string) :
  well_formed_label s = true ->
  ltm_sort_key s = expected_key s
  /\ key_lt (ltm_sort_key s) sentinel_key = true
  /\ 2000 <= fst (ltm_sort_key s) <= 2099
  /\ 1 <= snd (ltm_sort_key s) <= 12.
Proof.
  intros H. unfold well_formed_label in H.
  repeat match type of H with
         | match ?x with _ => _ end = true => destruct x; try discriminate
         | (if ?b then _ else _) = true => destruct b; try discriminate
         end.
  apply andb_prop in H. destruct H as [H Hm].
  apply andb_prop in H. destruct H as [H1 H2].
  apply is_digit_in in H1. apply is_digit_in in H2. apply mem_month_in in Hm.
  pose proof well_formed_enumerated as E.
  rewrite forallb_forall in E. specialize (E _ H1).
  rewrite forallb_forall in E. specialize (E _ H2).
  rewrite forallb_forall in E. specialize (E _ Hm).
  cbv zeta in E. unfold label_of in E.
  repeat (apply andb_prop in E; destruct E as [E ?]).
  repeat match goal with
         | H : (_ =? _) = true |- _ => apply Z.eqb_eq in H
         | H : (_ <=? _) = true |- _ => apply Z.leb_le in H
         end.
  repeat split; try assumption; try lia.
  apply injective_projections; assumption.
Qed.

Lemma sentinel_iff (s : string) :
  let parts := Py.split "-" (Py.replace "LTM " "" s) in
  ltm_sort_key s = sentinel_key
  <-> (Py.int (nth 0 parts "") = None \/ nth_error parts 1 = None).
Proof.
  cbv zeta. unfold ltm_sort_key.
  destruct (Py.int _) as [y|].
  - destruct (nth_error _ 1) as [p1|].
    + split.
      * intros H. pose proof (month_number_range (Py.lower p1)) as R.
        unfold sentinel_key in H. inversion H. lia.
      * intros [H|H]; discriminate.
    + split; auto.
  - split; auto.
Qed.

(** ** Lists, sums and sorting *)

Lemma fold_left_add_acc (l : list Z) (a : Z) :
  fold_left Z.add l a = a + Zsum l.
Proof.
  revert a. induction l as [|x l IH]; intros a; simpl.
  - lia.
  - rewrite IH. lia.
Qed.

Lemma py_sum_Zsum (l : list Z) : py_sum l = Zsum l.
Proof. unfold py_sum. rewrite fold_left_add_acc. lia. Qed.

Lemma Zsum_app (l1 l2 : list Z) : Zsum (l1 ++ l2) = Zsum l1 + Zsum l2.
Proof. induction l1 as [|x l1 IH]; simpl; lia. Qed.

Lemma Zsum_perm (l1 l2 : list Z) : Permutation l1 l2 -> Zsum l1 = Zsum l2.
Proof. induction 1; simpl; lia. Qed.

Lemma insert_by_perm {A : Type} (le : A -> A -> bool) (x : A) (l : list A) :
  Permutation (insert_by le x l) (x :: l).
Proof.
  induction l as [|y l IH]; simpl.
  - apply Permutation_refl.
  - destruct (le x y).
    + apply Permutation_refl.
    + eapply perm_trans; [apply perm_skip, IH | apply perm_swap].
Qed.

Lemma sort_by_perm {A : Type} (le : A -> A -> bool) (l : list A) :
  Permutation (sort_by le l) l.
Proof.
  induction l as [|x l IH]; simpl.
  - apply perm_nil.
  - eapply perm_trans; [apply insert_by_perm | apply perm_skip, IH].
Qed.

Lemma sort_by_length {A : Type} (le : A -> A -> bool) (l : list A) :
  List.length (sort_by le l) = List.length l.
Proof. apply Permutation_length, sort_by_perm. Qed.

Lemma sort_by_in {A : Type} (le : A -> A -> bool) (l : list A) (x : A) :
  In x (sort_by le l) <-> In x l.
Proof.
  split; apply Permutation_in;
    [apply sort_by_perm | apply Permutation_sym, sort_by_perm].
Qed.

(** ** Cohort classifier *)

(** The loop appends, in customer order, the records of the customers that
    satisfy each condition. *)
Lemma cohort_loop (curr prev : string) (cs : list Customer.t) (st : cohort_lists) :
  let sel cond := filter (fun c => cond (ltm_at prev c) (ltm_at curr c)) cs in
  let res := fold_left (cohort_step curr prev) cs st in
  churned res = churned st ++
    map (fun c => churned_rec c (ltm_at prev c) (ltm_at curr c)) (sel is_churned)
  /\ declining res = declining st ++
    map (fun c => moved_rec c (ltm_at prev c) (ltm_at curr c)) (sel is_declining)
  /\ growing res = growing st ++
    map (fun c => moved_rec c (ltm_at prev c) (ltm_at curr c)) (sel is_growing)
  /\ new res = new st ++ map (fun c => new_rec c (ltm_at curr c)) (sel is_new).
Proof.
  cbv zeta. revert st. induction cs as [|c cs IH]; intros st; simpl.
  - rewrite !app_nil_r. auto.
  - specialize (IH (cohort_step curr prev st c)).
    destruct IH as (Hc & Hd & Hg & Hn).
    rewrite Hc, Hd, Hg, Hn. clear Hc Hd Hg Hn.
    unfold cohort_step, is_declining, is_growing, is_churned, is_new.
    fold (ltm_at curr c). fold (ltm_at prev c).
    set (cu := ltm_at curr c). set (pr := ltm_at prev c).
    destruct (0 <? pr) eqn:E1; destruct (cu =? 0) eqn:E2;
      destruct (pr =? 0) eqn:E3; destruct (0 <? cu) eqn:E4;
      destruct (cu - pr <? 0) eqn:E5; destruct (0 <? cu - pr) eqn:E6;
      destruct (cu <? pr) eqn:E7; destruct (pr <? cu) eqn:E8;
      try (exfalso; lia); simpl; rewrite <- ?app_assoc; simpl; auto.
Qed.

Lemma classify_all_lists (d : dataset) (curr prev : string) :
  let res := classify_all d curr prev in
  churned res =
    map (fun c => churned_rec c (ltm_at prev c) (ltm_at curr c))
        (customers_where is_churned d curr prev)
  /\ declining res =
    map (fun c => moved_rec c (ltm_at prev c) (ltm_at curr c))
        (customers_where is_declining d curr prev)
  /\ growing res =
    map (fun c => moved_rec c (ltm_at prev c) (ltm_at curr c))
        (customers_where is_growing d curr prev)
  /\ new res =
    map (fun c => new_rec c (ltm_at curr c)) (customers_where is_new d curr prev).
Proof.
  cbv zeta. unfold classify_all, customers_where.
  pose proof (cohort_loop curr prev (customers d)
    {| churned := []; declining := []; growing := []; new := [] |}) as H.
  cbv zeta in H. simpl in H. exact H.
Qed.


Lemma map_change_sorted (d : dataset) (curr prev : string) :
  let r := lists (analyze_cohorts d curr prev) in
  Permutation (churned r) (churned (classify_all d curr prev))
  /\ Permutation (declining r) (declining (classify_all d curr prev))
  /\ Permutation (growing r) (growing (classify_all d curr prev))
  /\ Permutation (new r) (new (classify_all d curr prev)).
Proof.
  cbv zeta. unfold analyze_cohorts, sort_cohorts. simpl.
  repeat split; apply sort_by_perm.
Qed.



(** The sample ledger between November 2024 and November 2025: one customer
    grew, the other churned (its zero cell reads as a missing value). *)
Example cohorts_of_sample :
  let r := lists (analyze_cohorts thirteen_ltm_data "LTM 25-nov" "LTM 24-nov") in
  map Churned.kund (churned r) = ["Borealis AB"]
  /\ map Churned.last_month (churned r) = [Some "2025-11"]
  /\ map Moved.kund (growing r) = ["Acme AB"]
  /\ map Moved.change (growing r) = [120]
  /\ declining r = [] /\ new r = [].
Proof. vm_compute. repeat split. Qed.

(** ** Revenue bridge *)

Lemma losses_over (prev curr : string) (cs : list Customer.t) :
  let pv c := ltm_at prev c in
  let cv c := ltm_at curr c in
  let sel cond := filter (fun c => cond (pv c) (cv c)) cs in
  Zsum (map (fun c => cv c - pv c) (sel is_declining))
  = - Zsum (map (fun c => pv c - cv c) (sel is_declining))
  /\ 0 <= Zsum (map (fun c => pv c - cv c) (sel is_declining))
  /\ Zsum (map pv (sel is_churned))
     = Zsum (map (fun c => pv c - cv c) (sel is_churned))
  /\ Zsum (map (fun c => pv c - cv c) (sel is_churned))
     + Zsum (map (fun c => pv c - cv c) (sel is_declining))
     = Zsum (map (fun c => pv c - cv c) (sel dropped)).
Proof.
  cbv zeta. induction cs as [|c cs IH]; simpl.
  - lia.
  - destruct IH as (I1 & I2 & I3 & I4).
    unfold is_declining, is_churned, dropped in *.
    destruct (0 <? ltm_at prev c) eqn:E1; destruct (ltm_at curr c =? 0) eqn:E2;
      destruct (ltm_at curr c <? ltm_at prev c) eqn:E3;
      simpl; try (exfalso; lia); lia.
Qed.



(** ** Dictionaries and key sets *)

Lemma get_set_same {V : Type} (k : string) (v : V) (d : Dict.t V) :
  Dict.get k (Dict.set k v d) = Some v.
Proof.
  induction d as [|[k' v'] d IH]; simpl.
  - now rewrite String.eqb_refl.
  - destruct (String.eqb k k') eqn:E; simpl; rewrite ?String.eqb_refl, ?E; auto.
Qed.

Lemma get_set_other {V : Type} (k k' : string) (v : V) (d : Dict.t V) :
  k <> k' -> Dict.get k (Dict.set k' v d) = Dict.get k d.
Proof.
  intros N. apply String.eqb_neq in N.
  induction d as [|[k0 v0] d IH]; simpl.
  - now rewrite N.
  - destruct (String.eqb k' k0) eqn:E; simpl.
    + apply String.eqb_eq in E. subst k0. now rewrite N.
    + now rewrite IH.
Qed.

Lemma get_in_keys {V : Type} (k : string) (d : Dict.t V) :
  Dict.get k d <> None <-> In k (Dict.keys d).
Proof.
  induction d as [|[k' v'] d IH]; simpl.
  - tauto.
  - destruct (String.eqb_spec k k') as [->|N].
    + split; [auto | discriminate].
    + rewrite IH. split; [auto | intros [E|H]; [congruence | exact H]].
Qed.

Lemma set_add_in (k x : string) (s : list string) :
  In x (set_add k s) <-> In x s \/ x = k.
Proof.
  unfold set_add. destruct (existsb (String.eqb k) s) eqn:E.
  - apply existsb_exists in E. destruct E as [y [Hy E]].
    apply String.eqb_eq in E. subst y.
    split; [auto | intros [H| ->]; assumption].
  - rewrite in_app_iff. simpl. intuition.
Qed.

Lemma set_update_in (s ks : list string) (x : string) :
  In x (set_update s ks) <-> In x s \/ In x ks.
Proof.
  unfold set_update. revert s. induction ks as [|k ks IH]; intros s; simpl.
  - tauto.
  - rewrite IH, set_add_in. intuition.
Qed.

Lemma all_keys_in {E : Type} (series : E -> Dict.t Z) (es : list E) (x : string) :
  In x (all_keys series es)
  <-> exists e, In e es /\ In x (Dict.keys (series e)).
Proof.
  unfold all_keys.
  assert (G : forall acc,
             In x (fold_left (fun acc e => set_update acc (Dict.keys (series e)))
                             es acc)
             <-> In x acc \/ exists e, In e es /\ In x (Dict.keys (series e))).
  { induction es as [|e es IH]; intros acc; simpl.
    - split; [auto | intros [H|[e [[] _]]]; exact H].
    - rewrite IH, set_update_in. split.
      + intros [[H|H]|[e' [H1 H2]]]; eauto 6.
      + intros [H|[e' [[->|H1] H2]]]; eauto 6. }
  rewrite G. simpl. split; [intros [[]|H]; exact H | auto].
Qed.

(** The totals loop stores, for each key it visits, the sum at that key. *)
Lemma totals_get {E : Type} (series : E -> Dict.t Z) (es : list E)
      (order : list string) (k : string) :
  Dict.get k (totals series es order)
  = if existsb (String.eqb k) order then Some (series_total series es k) else None.
Proof.
  unfold totals.
  assert (G : forall init,
             Dict.get k (fold_left
                           (fun d k => Dict.set k (series_total series es k) d)
                           order init)
             = if existsb (String.eqb k) order
               then Some (series_total series es k) else Dict.get k init).
  { induction order as [|k' order IH]; intros init; simpl; [reflexivity|].
    rewrite IH. destruct (String.eqb_spec k k') as [->|N]; simpl.
    - destruct (existsb _ order); [reflexivity | apply get_set_same].
    - destruct (existsb _ order); [reflexivity | now apply get_set_other]. }
  rewrite G. reflexivity.
Qed.

Lemma existsb_eqb_in (k : string) (l : list string) :
  existsb (String.eqb k) l = true <-> In k l.
Proof.
  rewrite existsb_exists. split.
  - intros [x [H E]]. apply String.eqb_eq in E. now subst.
  - intros H. exists k. split; [exact H | apply String.eqb_refl].
Qed.

Lemma series_total_absent {E : Type} (series : E -> Dict.t Z) (es : list E)
      (k : string) :
  (forall e, In e es -> Dict.get k (series e) = None) ->
  Zsum (map (fun e => Dict.get_default k 0 (series e)) es) = 0.
Proof.
  induction es as [|e es IH]; intros H; simpl; [reflexivity|].
  unfold Dict.get_default at 1. rewrite (H e (or_introl eq_refl)).
  rewrite IH; [reflexivity | intros e' He'; apply H; now right].
Qed.

(** Totals built over any enumeration of the key set. *)
Lemma totals_over_keys {E : Type} (series : E -> Dict.t Z) (es : list E)
      (order : list string) :
  (forall k, In k order <-> In k (all_keys series es)) ->
  forall k,
    Dict.get_default k 0 (totals series es order)
    = Zsum (map (fun e => Dict.get_default k 0 (series e)) es)
    /\ (Dict.mem k (totals series es order) = true
        <-> exists e, In e es /\ Dict.mem k (series e) = true).
Proof.
  intros Hord k. unfold Dict.get_default at 1, Dict.mem at 1.
  rewrite totals_get.
  destruct (existsb (String.eqb k) order) eqn:X.
  - split.
    + unfold series_total. apply py_sum_Zsum.
    + split; [intros _ | reflexivity].
      apply existsb_eqb_in, Hord, all_keys_in in X.
      destruct X as [e [He Hk]]. exists e. split; [exact He|].
      apply get_in_keys in Hk. unfold Dict.mem.
      destruct (Dict.get k (series e)); [reflexivity | congruence].
  - assert (A : forall e, In e es -> Dict.get k (series e) = None).
    { intros e He. destruct (Dict.get k (series e)) eqn:G; [|reflexivity].
      exfalso. assert (In k order) as I.
      { apply Hord, all_keys_in. exists e. split; [exact He|].
        apply get_in_keys. congruence. }
      apply existsb_eqb_in in I. congruence. }
    split.
    + symmetry. now apply series_total_absent.
    + split; [discriminate|]. intros [e [He M]]. unfold Dict.mem in M.
      rewrite (A e He) in M. discriminate.
Qed.

(** C6.  In every parsed dataset, [monthly_totals] read at any month key
    (missing = 0) is the sum over the retained articles of the article's
    monthly value at that key (missing = 0), and [ltm_trend] read at any LTM
    label is the sum over the retained customers of the customer's LTM value
    at that label; a total has an entry exactly for the keys that occur in
    some retained entity's series. *)
Theorem totals_are_sums (art_ws cust_ws : option worksheet) :
  let d := parse_master art_ws cust_ws in
  (forall m,
      Dict.get_default m 0 (monthly_totals d)
      = Zsum (map (fun a => Dict.get_default m 0 (Article.monthly a)) (articles d)))
  /\ (forall l,
      Dict.get_default l 0 (ltm_trend d)
      = Zsum (map (fun c => Dict.get_default l 0 (Customer.ltm c)) (customers d)))
  /\ (forall m,
      Dict.mem m (monthly_totals d) = true
      <-> exists a, In a (articles d) /\ Dict.mem m (Article.monthly a) = true)
  /\ (forall l,
      Dict.mem l (ltm_trend d) = true
      <-> exists c, In c (customers d) /\ Dict.mem l (Customer.ltm c) = true).
Proof.
  cbv zeta. unfold parse_master. simpl.
  set (arts := match art_ws with Some ws => parse_articles ws | None => [] end).
  set (custs := match cust_ws with Some ws => parse_customers ws | None => [] end).
  pose proof (totals_over_keys Article.monthly arts
                (sort_by String.leb (all_keys Article.monthly arts))
                (fun k => sort_by_in _ _ k)) as HA.
  pose proof (totals_over_keys Customer.ltm custs
                (sort_by (fun a b => key_le (ltm_sort_key a) (ltm_sort_key b))
                         (all_keys Customer.ltm custs))
                (fun k => sort_by_in _ _ k)) as HC.
  repeat split; intros; try apply HA; try apply HC; assumption.
Qed.

Example totals_of_sample :
  Dict.get "LTM 24-nov" (ltm_trend thirteen_ltm_data) = Some 1000
  /\ Dict.get "LTM 25-nov" (ltm_trend thirteen_ltm_data) = Some 220
  /\ Dict.get "LTM 26-jan" (ltm_trend thirteen_ltm_data) = None
  /\ Dict.keys (monthly_totals thirteen_ltm_data) = [].
Proof. vm_compute. repeat split. Qed.

(** ** Master parser: stored values *)

Lemma numeric_cell_nonzero (v : cell) (z : Z) :
  numeric_cell v = Some z -> z <> 0.
Proof.
  destruct v as [|n|[]|?|?]; simpl; try discriminate.
  - destruct (n =? 0) eqn:E; [discriminate|].
    intros H. inversion H. subst. now apply Z.eqb_neq.
  - intros H. inversion H. lia.
Qed.

Lemma set_nonzero (k : string) (v : Z) (d : Dict.t Z) :
  v <> 0 -> nonzero_values d -> nonzero_values (Dict.set k v d).
Proof.
  intros Hv Hd k' v' G. destruct (String.eqb_spec k' k) as [->|N].
  - rewrite get_set_same in G. inversion G. now subst.
  - rewrite get_set_other in G by assumption. eapply Hd, G.
Qed.

Lemma collect_nonzero (ws : worksheet) (r : nat) (cols : Dict.t nat) :
  nonzero_values (collect ws r cols).
Proof.
  unfold collect, Dict.items.
  assert (G : forall acc, nonzero_values acc ->
    nonzero_values
      (fold_left (fun acc kc =>
                    match numeric_cell (cell_value ws r (snd kc)) with
                    | Some v => Dict.set (fst kc) v acc
                    | None => acc
                    end) cols acc)).
  { induction cols as [|kc cols IH]; intros acc Hacc; simpl; [exact Hacc|].
    apply IH. destruct (numeric_cell _) eqn:E; [|exact Hacc].
    apply set_nonzero; [eapply numeric_cell_nonzero, E | exact Hacc]. }
  apply G. intros k v. discriminate.
Qed.

Lemma parse_articles_rows (ws : worksheet) (a : Article.t) :
  In a (parse_articles ws) ->
  exists r,
    Article.monthly a = collect ws r (months (scan_headers ws))
    /\ Article.fy a = collect ws r (fys (scan_headers ws))
    /\ Article.ltm a = collect ws r (ltms (scan_headers ws)).
Proof.
  unfold parse_articles. generalize (py_range 2 (max_row ws + 1)) as rows.
  intros rows.
  assert (G : forall acc,
    In a (fold_left (article_row ws (scan_headers ws)) rows acc) ->
    In a acc \/ exists r,
      Article.monthly a = collect ws r (months (scan_headers ws))
      /\ Article.fy a = collect ws r (fys (scan_headers ws))
      /\ Article.ltm a = collect ws r (ltms (scan_headers ws))).
  { induction rows as [|r rows IH]; intros acc H; simpl in H; [now left|].
    apply IH in H. destruct H as [H|H]; [|now right].
    unfold article_row in H.
    destruct (skip_row _); [now left|].
    match type of H with
    | In _ (if ?b then _ else _) => destruct b
    end; [|now left].
    apply in_app_or in H. destruct H as [H|[<-|[]]]; [now left|].
    right. exists r. simpl. auto. }
  intros H. apply G in H. destruct H as [[]|H]. exact H.
Qed.

Lemma parse_customers_rows (ws : worksheet) (c : Customer.t) :
  In c (parse_customers ws) ->
  exists r,
    Customer.monthly c = collect ws r (months (scan_headers ws))
    /\ Customer.fy c = collect ws r (fys (scan_headers ws))
    /\ Customer.ltm c = collect ws r (ltms (scan_headers ws)).
Proof.
  unfold parse_customers. generalize (py_range 2 (max_row ws + 1)) as rows.
  intros rows.
  assert (G : forall acc,
    In c (fold_left (customer_row ws (scan_headers ws)) rows acc) ->
    In c acc \/ exists r,
      Customer.monthly c = collect ws r (months (scan_headers ws))
      /\ Customer.fy c = collect ws r (fys (scan_headers ws))
      /\ Customer.ltm c = collect ws r (ltms (scan_headers ws))).
  { induction rows as [|r rows IH]; intros acc H; simpl in H; [now left|].
    apply IH in H. destruct H as [H|H]; [|now right].
    unfold customer_row in H.
    destruct (skip_row _); [now left|].
    match type of H with
    | In _ (if ?b then _ else _) => destruct b
    end; [|now left].
    apply in_app_or in H. destruct H as [H|[<-|[]]]; [now left|].
    right. exists r. simpl. auto. }
  intros H. apply G in H. destruct H as [[]|H]. exact H.
Qed.

(** Emptying the zero cells changes nothing the parser reads. *)
Lemma fold_left_ext {A B : Type} (f g : A -> B -> A) (l : list B) (a : A) :
  (forall x y, f x y = g x y) -> fold_left f l a = fold_left g l a.
Proof.
  intros H. revert a. induction l as [|y l IH]; intros a; simpl; [reflexivity|].
  now rewrite H, IH.
Qed.

Lemma blank_cell_cases (ws : worksheet) (r c : nat) :
  (cell_value ws r c = CInt 0 /\ cell_value (blank_zeros ws) r c = CNone)
  \/ cell_value (blank_zeros ws) r c = cell_value ws r c.
Proof.
  simpl. destruct (cell_value ws r c) as [|[| |]| | |]; auto.
Qed.

Lemma classify_header_blank (ws : worksheet) (hc : header_cols) (c : nat) :
  classify_header (blank_zeros ws) hc c = classify_header ws hc c.
Proof.
  unfold classify_header.
  destruct (blank_cell_cases ws 1 c) as [[E1 E2]|E]; [|now rewrite E].
  rewrite E1, E2. reflexivity.
Qed.

Lemma scan_headers_blank (ws : worksheet) :
  scan_headers (blank_zeros ws) = scan_headers ws.
Proof.
  unfold scan_headers. simpl max_column.
  apply fold_left_ext. intros. apply classify_header_blank.
Qed.

Lemma collect_blank (ws : worksheet) (r : nat) (cols : Dict.t nat) :
  collect (blank_zeros ws) r cols = collect ws r cols.
Proof.
  unfold collect. apply fold_left_ext. intros acc kc.
  destruct (blank_cell_cases ws r (snd kc)) as [[E1 E2]|E]; [|now rewrite E].
  rewrite E1, E2. reflexivity.
Qed.

Lemma parse_articles_blank (ws : worksheet) :
  parse_articles (blank_zeros ws) = parse_articles ws.
Proof.
  unfold parse_articles. rewrite scan_headers_blank. simpl max_row.
  apply fold_left_ext. intros acc r. unfold article_row.
  rewrite !collect_blank.
  destruct (blank_cell_cases ws r 1) as [[E1 E2]|E].
  - rewrite E1, E2. reflexivity.
  - rewrite E.
    destruct (blank_cell_cases ws r 2) as [[F1 F2]|F]; [|now rewrite F].
    rewrite F1, F2. reflexivity.
Qed.

Lemma parse_customers_blank (ws : worksheet) :
  parse_customers (blank_zeros ws) = parse_customers ws.
Proof.
  unfold parse_customers. rewrite scan_headers_blank. simpl max_row.
  apply fold_left_ext. intros acc r. unfold customer_row.
  rewrite !collect_blank.
  destruct (blank_cell_cases ws r 2) as [[E1 E2]|E]; [|now rewrite E].
  rewrite E1, E2. reflexivity.
Qed.

(** C9.  Every value the master parser stores in the monthly, fiscal or LTM
    series of a retained article or customer is non-zero; a cell holding the
    number 0 is dropped like an empty or a text cell, and a workbook whose
    zero cells are emptied parses to the same dataset. *)
Theorem stored_values_nonzero (art_ws cust_ws : option worksheet) :
  let d := parse_master art_ws cust_ws in
  (forall a, In a (articles d) ->
     nonzero_values (Article.monthly a) /\ nonzero_values (Article.fy a)
     /\ nonzero_values (Article.ltm a))
  /\ (forall c, In c (customers d) ->
     nonzero_values (Customer.monthly c) /\ nonzero_values (Customer.fy c)
     /\ nonzero_values (Customer.ltm c))
  /\ numeric_cell (CInt 0) = None
  /\ numeric_cell CNone = None
  /\ (forall s, numeric_cell (CStr s) = None)
  /\ parse_master (option_map blank_zeros art_ws) (option_map blank_zeros cust_ws) = d.
Proof.
  cbv zeta. repeat split; try reflexivity.
  - destruct art_ws as [ws|]; simpl in H; [|contradiction].
    apply parse_articles_rows in H. destruct H as [r (E & _ & _)].
    rewrite E. apply collect_nonzero.
  - destruct art_ws as [ws|]; simpl in H; [|contradiction].
    apply parse_articles_rows in H. destruct H as [r (_ & E & _)].
    rewrite E. apply collect_nonzero.
  - destruct art_ws as [ws|]; simpl in H; [|contradiction].
    apply parse_articles_rows in H. destruct H as [r (_ & _ & E)].
    rewrite E. apply collect_nonzero.
  - destruct cust_ws as [ws|]; simpl in H; [|contradiction].
    apply parse_customers_rows in H. destruct H as [r (E & _ & _)].
    rewrite E. apply collect_nonzero.
  - destruct cust_ws as [ws|]; simpl in H; [|contradiction].
    apply parse_customers_rows in H. destruct H as [r (_ & E & _)].
    rewrite E. apply collect_nonzero.
  - destruct cust_ws as [ws|]; simpl in H; [|contradiction].
    apply parse_customers_rows in H. destruct H as [r (_ & _ & E)].
    rewrite E. apply collect_nonzero.
  - unfold parse_master.
    destruct art_ws as [wa|], cust_ws as [wc|]; simpl option_map; cbv iota;
      rewrite ?parse_articles_blank, ?parse_customers_blank; reflexivity.
Qed.

(** ** Decomposition engine *)

Lemma consecutive_pairs_length {A : Type} (l : list A) :
  List.length (consecutive_pairs l) = (List.length l - 1)%nat.
Proof.
  induction l as [|x [|y t] IH]; simpl in *; try reflexivity.
  rewrite IH. lia.
Qed.

Lemma consecutive_pairs_snd {A : Type} (l : list A) :
  map snd (consecutive_pairs l) = tl l.
Proof.
  induction l as [|x [|y t] IH]; simpl in *; try reflexivity.
  now rewrite IH.
Qed.

Lemma recent_window_last (l : list string) (n : Z) :
  1 <= n ->
  let k := Z.to_nat (Z.min n (Z.of_nat (List.length l))) in
  recent_window l n = skipn (List.length l - k) l
  /\ List.length (recent_window l n) = k.
Proof.
  intros H. cbv zeta. unfold recent_window, slice_from.
  destruct (n <=? Z.of_nat (List.length l)) eqn:E.
  - apply Z.leb_le in E.
    destruct (- n <? 0) eqn:F; [|apply Z.ltb_ge in F; lia].
    replace (Z.to_nat (Z.max 0 (- n + Z.of_nat (List.length l))))
      with (List.length l - Z.to_nat (Z.min n (Z.of_nat (List.length l))))%nat
      by lia.
    split; [reflexivity|]. rewrite length_skipn. lia.
  - apply Z.leb_gt in E.
    replace (List.length l - Z.to_nat (Z.min n (Z.of_nat (List.length l))))%nat
      with 0%nat by lia.
    simpl. split; [reflexivity | lia].
Qed.


(** The four components of a record are the sums over the cohorts of the
    pair. *)
Lemma decomp_sums (prev_ltm curr_ltm : string) (cs : list Customer.t) (a0 : sums) :
  let pv c := ltm_at prev_ltm c in
  let cv c := ltm_at curr_ltm c in
  let sel cond := filter (fun c => cond (pv c) (cv c)) cs in
  let a := fold_left (decomp_step curr_ltm prev_ltm) cs a0 in
  s_churn a = s_churn a0 + Zsum (map pv (sel is_churned))
  /\ s_decline a = s_decline a0 + Zsum (map (fun c => pv c - cv c) (sel is_declining))
  /\ s_growth a = s_growth a0 + Zsum (map (fun c => cv c - pv c) (sel is_growing))
  /\ s_new a = s_new a0 + Zsum (map cv (sel is_new)).
Proof.
  cbv zeta. revert a0. induction cs as [|c cs IH]; intros a0; simpl.
  - lia.
  - destruct (IH (decomp_step curr_ltm prev_ltm a0 c)) as (I1 & I2 & I3 & I4).
    rewrite I1, I2, I3, I4. clear IH I1 I2 I3 I4.
    unfold decomp_step, is_declining, is_growing, is_churned, is_new.
    fold (ltm_at curr_ltm c). fold (ltm_at prev_ltm c).
    set (cu := ltm_at curr_ltm c). set (pr := ltm_at prev_ltm c).
    destruct (0 <? pr) eqn:E1; destruct (cu =? 0) eqn:E2;
      destruct (pr =? 0) eqn:E3; destruct (0 <? cu) eqn:E4;
      destruct (cu <? pr) eqn:E7; destruct (pr <? cu) eqn:E8;
      try (exfalso; lia); simpl; lia.
Qed.

Lemma decomp_record_fields (d : dataset) (prev_ltm curr_ltm : string) :
  let r := decomp_record d prev_ltm curr_ltm in
  let pv c := ltm_at prev_ltm c in
  let cv c := ltm_at curr_ltm c in
  Decomp.period r = curr_ltm
  /\ Decomp.total_change r
     = Dict.get_default curr_ltm 0 (ltm_trend d)
       - Dict.get_default prev_ltm 0 (ltm_trend d)
  /\ Decomp.churn r
     = - Zsum (map pv (customers_where is_churned d curr_ltm prev_ltm))
  /\ Decomp.decline r
     = - Zsum (map (fun c => pv c - cv c)
                   (customers_where is_declining d curr_ltm prev_ltm))
  /\ Decomp.growth r
     = Zsum (map (fun c => cv c - pv c)
                 (customers_where is_growing d curr_ltm prev_ltm))
  /\ Decomp.new r = Zsum (map cv (customers_where is_new d curr_ltm prev_ltm)).
Proof.
  cbv zeta. unfold decomp_record, customers_where. simpl.
  destruct (decomp_sums prev_ltm curr_ltm (customers d)
              {| s_churn := 0; s_decline := 0; s_growth := 0; s_new := 0 |})
    as (H1 & H2 & H3 & H4).
  cbv zeta in *. simpl in *. rewrite H1, H2, H3, H4. repeat split; lia.
Qed.

(** X27.  For [N >= 1] the decomposition engine takes the most recent [N]
    chronological LTM keys (all keys, if fewer than [N] exist) and emits one
    record per consecutive pair of them, one record less than the keys it
    takes.  Each record carries the later period of its pair,
    [total_change = ltm_trend[curr] - ltm_trend[prev]], and the components
    churn (negated churn loss), decline (negated decline loss), growth and
    new of that pair, on a ledger of integer amounts. *)
Theorem decomposition_window (d : dataset) (num_periods : Z) :
  let all_ltms := sorted_ltms d in
  1 <= num_periods ->
  let r := analyze_ltm_decomposition d num_periods in
  let k := Z.to_nat (Z.min num_periods (Z.of_nat (List.length all_ltms))) in
  let recent := skipn (List.length all_ltms - k) all_ltms in
  List.length (decomposition r) = (k - 1)%nat
  /\ decomposition r
     = map (fun pc => decomp_record d (fst pc) (snd pc)) (consecutive_pairs recent)
  /\ periods r = map Decomp.period (decomposition r)
  /\ (forall prev_ltm curr_ltm,
        In (prev_ltm, curr_ltm) (consecutive_pairs recent) ->
        let rec := decomp_record d prev_ltm curr_ltm in
        let pv c := ltm_at prev_ltm c in
        let cv c := ltm_at curr_ltm c in
        In rec (decomposition r)
        /\ Decomp.period rec = curr_ltm
        /\ Decomp.total_change rec
           = Dict.get_default curr_ltm 0 (ltm_trend d)
             - Dict.get_default prev_ltm 0 (ltm_trend d)
        /\ Decomp.churn rec
           = - Zsum (map pv (customers_where is_churned d curr_ltm prev_ltm))
        /\ Decomp.decline rec
           = - Zsum (map (fun c => pv c - cv c)
                         (customers_where is_declining d curr_ltm prev_ltm))
        /\ Decomp.growth rec
           = Zsum (map (fun c => cv c - pv c)
                       (customers_where is_growing d curr_ltm prev_ltm))
        /\ Decomp.new rec
           = Zsum (map cv (customers_where is_new d curr_ltm prev_ltm))).
Proof.
  cbv zeta. intros HN. unfold analyze_ltm_decomposition.
  destruct (List.length (sorted_ltms d) <? 2)%nat eqn:E.
  { (* fewer than two keys: no pair *)
    apply Nat.ltb_lt in E.
    assert (P : consecutive_pairs
                  (skipn (List.length (sorted_ltms d)
                          - Z.to_nat (Z.min num_periods
                                        (Z.of_nat (List.length (sorted_ltms d)))))
                         (sorted_ltms d)) = []).
    { destruct (sorted_ltms d) as [|x [|y t]]; [reflexivity | | simpl in E; lia].
      simpl List.length.
      destruct (Z.to_nat (Z.min num_periods (Z.of_nat 1))) as [|[|n]];
        reflexivity. }
    rewrite P. cbn [periods decomposition map List.length].
    split; [lia|]. split; [reflexivity|]. split; [reflexivity|].
    intros ? ? []. }
  destruct (recent_window_last (sorted_ltms d) num_periods HN) as [W L].
  cbv zeta in W, L. simpl. rewrite length_map, consecutive_pairs_length.
  split; [lia|]. split; [now rewrite W|]. split.
  - rewrite map_map. simpl.
    change (fun x : string * string => snd x) with (@snd string string).
    rewrite consecutive_pairs_snd. unfold slice_from.
    destruct (recent_window (sorted_ltms d) num_periods) as [|x t];
      [reflexivity|].
    simpl List.length. destruct (1 <? 0) eqn:F; [discriminate|].
    replace (Z.to_nat (Z.min 1 (Z.of_nat (S (List.length t))))) with 1%nat by lia.
    reflexivity.
  - intros p c Hin. split.
    + rewrite W. apply (in_map (fun pc => decomp_record d (fst pc) (snd pc))) in Hin.
      exact Hin.
    + apply decomp_record_fields.
Qed.

(** With [num_periods = 0] the slice [all_ltms[-0:]] is the whole list, so
    every pair of the ledger is decomposed. *)
Example zero_periods_takes_all :
  List.length (decomposition (analyze_ltm_decomposition thirteen_ltm_data 0))
  = 12%nat.
Proof. vm_compute. reflexivity. Qed.

(** C2 (the code at the failing input).  On a ledger with thirteen LTM
    cut-offs, that is [N + 1] keys for the default [N = 12], the engine
    emits eleven records, not twelve; the first is for the third cut-off.
    The report takes [ltm_decomp['decomposition'][-12:]], twelve records. *)
Lemma decomposition_thirteen_keys :
  12 + 1 <= Z.of_nat (List.length (sorted_ltms thirteen_ltm_data))
  /\ List.length (decomposition (analyze_ltm_decomposition thirteen_ltm_data 12))
     = 11%nat
  /\ List.length (decomposition (analyze_ltm_decomposition thirteen_ltm_data 12))
     <> Z.to_nat 12
  /\ periods (analyze_ltm_decomposition thirteen_ltm_data 12)
     = ["LTM 25-jan"; "LTM 25-feb"; "LTM 25-mar"; "LTM 25-apr"; "LTM 25-maj";
        "LTM 25-jun"; "LTM 25-jul"; "LTM 25-aug"; "LTM 25-sep"; "LTM 25-okt";
        "LTM 25-nov"].
Proof.
  split; [vm_compute; discriminate|].
  split; [vm_compute; reflexivity|].
  split; [vm_compute; discriminate|].
  vm_compute; reflexivity.
Qed.

(** Witness of X27: the ledger of thirteen cut-offs, where the twelve most
    recent keys give eleven records. *)
Lemma decomposition_window_thirteen :
  1 <= 12
  /\ List.length (decomposition (analyze_ltm_decomposition thirteen_ltm_data 12))
     = (Z.to_nat (Z.min 12 (Z.of_nat (List.length (sorted_ltms thirteen_ltm_data))))
        - 1)%nat.
Proof.
  assert (HN : 1 <= 12) by lia.
  split; [exact HN|].
  exact (proj1 (decomposition_window thirteen_ltm_data 12 HN)).
Defined.

(** ** Trajectory analyzer *)


















Lemma slice_to_short {A : Type} (l : list A) :
  (List.length l <= 10)%nat -> slice_to 10 l = l.
Proof.
  intros H. unfold slice_to. change (10 <? 0) with false.
  cbv iota. apply firstn_all2. lia.
Qed.

(** ** Commentary generator *)

(** The failures that do give the empty mapping, and no call raises. *)
Lemma commentary_fails_open (json_loads : string -> option json) (api_key : string) :
  generate_ai_commentary json_loads api_key TransportError = Returned (JObj [])
  /\ (forall status body,
        status <> 200 ->
        generate_ai_commentary json_loads api_key (Response status body)
        = Returned (JObj []))
  /\ generate_ai_commentary json_loads api_key (Response 200 None)
     = Returned (JObj [])
  /\ (forall result content text,
        subscript_key "content" result = Some content ->
        subscript_0 content = Some (JObj [("text", JStr text)]) ->
        forall m, search_braces text = Some m -> json_loads m = None ->
        generate_ai_commentary json_loads api_key (Response 200 (Some result))
        = Returned (JObj []))
  /\ (forall post, exists v,
        generate_ai_commentary json_loads api_key post = Returned v).
Proof.
  unfold generate_ai_commentary.
  destruct (String.eqb api_key ""); repeat split; eauto.
  - intros status body N. unfold commentary_body.
    destruct (status =? 200) eqn:E; [apply Z.eqb_eq in E; lia | reflexivity].
  - intros result content text H1 H2 m H3 H4. unfold commentary_body.
    simpl. rewrite H1, H2. simpl. rewrite H3, H4. reflexivity.
  - intros [|status body]; [eauto|].
    destruct (commentary_body json_loads status body); eauto.
Qed.

(** C3 (the code at the failing input).  With a key given, a response with
    status 200 whose text holds no brace-delimited JSON object makes the
    generator return [None], not the empty mapping. *)
Theorem commentary_without_json_is_none (json_loads : string -> option json) :
  search_braces "I am unable to analyse these figures." = None
  /\ generate_ai_commentary json_loads "sk-key" (Response 200 (Some refusal_body))
     = Returned JNull
  /\ Returned JNull <> Returned (JObj []).
Proof. repeat split. discriminate. Qed.

(** ** Period key resolver: the claim *)

(** C4 (counterexample).  A label with a month abbreviation outside the
    table is not well-formed, yet its key is [(2025, 1)], not the sentinel,
    and it sorts before the well-formed label of November 2025. *)
Lemma unknown_month_not_last :
  well_formed_label "LTM 25-xyz" = false
  /\ ltm_sort_key "LTM 25-xyz" = (2025, 1)
  /\ ltm_sort_key "LTM 25-xyz" <> sentinel_key
  /\ well_formed_label "LTM 25-nov" = true
  /\ key_lt (ltm_sort_key "LTM 25-xyz") (ltm_sort_key "LTM 25-nov") = true.
Proof. repeat split; try reflexivity. discriminate. Qed.

(** C4 (amended).  A well-formed label maps to
    [(2000 + two-digit year, month number)] and sorts before the sentinel.
    A label gets the sentinel key [(9999, 99)] exactly when, after ["LTM "]
    is removed, [int] raises on the text before the first hyphen (it is not
    an integer literal, or one of more than 4300 digits) or there is no
    hyphen; a label whose year part [int] accepts and whose month
    abbreviation is outside the table gets the key [(2000 + year, 1)]. *)
Theorem ltm_sort_key_cases (s : string) :
  let parts := Py.split "-" (Py.replace "LTM " "" s) in
  (well_formed_label s = true ->
     ltm_sort_key s = expected_key s
     /\ key_lt (ltm_sort_key s) sentinel_key = true)
  /\ (ltm_sort_key s = sentinel_key
      <-> (Py.int (nth 0 parts "") = None \/ nth_error parts 1 = None))
  /\ (forall y p1,
        Py.int (nth 0 parts "") = Some y ->
        nth_error parts 1 = Some p1 ->
        Dict.get (Py.lower p1) swedish_months = None ->
        ltm_sort_key s = (y + 2000, 1)).
Proof.
  cbv zeta. split; [|split].
  - intros H. destruct (well_formed_key s H) as (H1 & H2 & _). auto.
  - apply sentinel_iff.
  - intros y p1 H1 H2 H3. unfold ltm_sort_key. rewrite H1, H2.
    unfold Dict.get_default. rewrite H3. reflexivity.
Qed.

(** The digit limit of [int]: a year of 4300 digits is read, one of 4301
    digits gives the sentinel. *)
Example year_digit_limit :
  fst (ltm_sort_key ("LTM " ++ repeat_char "1" 4300 ++ "-jan")) <> 9999
  /\ ltm_sort_key ("LTM " ++ repeat_char "1" 4301 ++ "-jan") = sentinel_key.
Proof.
  split; [|vm_compute; reflexivity].
  vm_compute. discriminate.
Qed.

(** Witness of C4: the label of November 2025. *)
Lemma ltm_sort_key_cases_nov :
  well_formed_label "LTM 25-nov" = true
  /\ ltm_sort_key "LTM 25-nov" = (2025, 11)
  /\ key_lt (ltm_sort_key "LTM 25-nov") sentinel_key = true.
Proof.
  assert (H : well_formed_label "LTM 25-nov" = true) by reflexivity.
  split; [exact H|].
  exact (proj1 (ltm_sort_key_cases "LTM 25-nov") H).
Defined.

(** ** Amount parser *)

Lemma prefix_empty (s : string) : prefix "" s = true.
Proof. now destruct s. Qed.

Lemma prefix_char (c a : ascii) (s : string) :
  prefix (String c "") (String a s) = Ascii.eqb a c.
Proof.
  simpl. destruct (ascii_dec c a) as [<-|N].
  - now rewrite prefix_empty, Ascii.eqb_refl.
  - symmetry. apply Ascii.eqb_neq. congruence.
Qed.

Lemma replace_char_step (c a : ascii) (new s : string) :
  Py.replace_from (String c "") new 0 (String a s)
  = if Ascii.eqb a c
    then (new ++ Py.replace_from (String c "") new 0 s)%string
    else String a (Py.replace_from (String c "") new 0 s).
Proof. cbn [Py.replace_from]. rewrite prefix_char. reflexivity. Qed.

Lemma replace_char_delete (c : ascii) (s : string) :
  Py.replace (String c "") "" s = filter_string (is_not c) s.
Proof.
  unfold Py.replace, is_not. induction s as [|a s IH]; [reflexivity|].
  rewrite replace_char_step. cbn [filter_string].
  destruct (Ascii.eqb a c); simpl; now rewrite IH.
Qed.

Lemma replace_char_map (c d : ascii) (s : string) :
  Py.replace (String c "") (String d "") s
  = Py.map_string (fun x => if Ascii.eqb x c then d else x) s.
Proof.
  unfold Py.replace. induction s as [|a s IH]; [reflexivity|].
  rewrite replace_char_step. cbn [Py.map_string].
  destruct (Ascii.eqb a c); simpl; now rewrite IH.
Qed.

Lemma append_empty_r (s : string) : (s ++ "")%string = s.
Proof. induction s as [|a s IH]; simpl; [reflexivity | now rewrite IH]. Qed.

Lemma append_assoc (a b c : string) :
  ((a ++ b) ++ c)%string = (a ++ (b ++ c))%string.
Proof. induction a as [|x a IH]; simpl; [reflexivity | now rewrite IH]. Qed.

Lemma rev_string_app (acc s1 s2 : string) :
  Py.rev_string acc (s1 ++ s2) = Py.rev_string (Py.rev_string acc s1) s2.
Proof.
  revert acc. induction s1 as [|a s1 IH]; intros acc; simpl; [reflexivity|].
  apply IH.
Qed.

Lemma rev_string_acc (acc s : string) :
  Py.rev_string acc s = (Py.rev_string "" s ++ acc)%string.
Proof.
  revert acc. induction s as [|a s IH]; intros acc; simpl; [reflexivity|].
  rewrite (IH (String a acc)), (IH (String a "")), append_assoc. reflexivity.
Qed.

Lemma rev_string_twice (s a b : string) :
  Py.rev_string a (Py.rev_string b s) = Py.rev_string (s ++ a) b.
Proof.
  revert b. induction s as [|c s IH]; intros b; simpl; [reflexivity|].
  now rewrite IH.
Qed.

Lemma rev_string_involutive (s : string) :
  Py.rev_string "" (Py.rev_string "" s) = s.
Proof. rewrite rev_string_twice. simpl. apply append_empty_r. Qed.

Lemma code_eq (c : ascii) (n : N) : (Py.code c =? n)%N = true -> c = ascii_of_N n.
Proof.
  intros H. apply N.eqb_eq in H. unfold Py.code in H.
  rewrite <- H. symmetry. apply ascii_N_embedding.
Qed.

(** The test [re.search(r',\d{2}$', s)] succeeds exactly on the strings
    that end in a comma and two digits, a final newline apart. *)
Lemma ends_comma_2digits_iff (s : string) :
  ends_comma_2digits s = true
  <-> exists p d1 d2,
      Py.is_digit d1 = true /\ Py.is_digit d2 = true
      /\ (s = (p ++ String "," (String d1 (String d2 "")))%string
          \/ s = (p ++ String "," (String d1 (String d2 (String newline ""))))%string).
Proof.
  unfold ends_comma_2digits. split.
  - intros H. rewrite <- (rev_string_involutive s).
    destruct (Py.rev_string "" s) as [|x r]; [discriminate|].
    apply orb_prop in H. destruct H as [H|H].
    + destruct r as [|d1 [|c r']]; try discriminate.
      apply andb_prop in H. destruct H as [H Hc].
      apply andb_prop in H. destruct H as [H2 H1].
      apply Ascii.eqb_eq in Hc. subst c.
      exists (Py.rev_string "" r'), d1, x. repeat split; try assumption.
      left. simpl. now rewrite (rev_string_acc _ r').
    + apply andb_prop in H. destruct H as [Hn H].
      destruct r as [|d2 [|d1 [|c r']]]; try discriminate.
      apply andb_prop in H. destruct H as [H Hc].
      apply andb_prop in H. destruct H as [H2 H1].
      apply Ascii.eqb_eq in Hc. subst c. apply code_eq in Hn. subst x.
      exists (Py.rev_string "" r'), d1, d2. repeat split; try assumption.
      right. simpl. now rewrite (rev_string_acc _ r').
  - intros (p & d1 & d2 & H1 & H2 & [-> | ->]);
      rewrite rev_string_app; simpl; rewrite H1, H2; simpl;
      try reflexivity; apply orb_true_r.
Qed.

Lemma normalise_decimal_cases (s : string) :
  normalise_decimal s
  = if ends_comma_2digits s
    then Py.map_string comma_to_stop (filter_string (is_not ".") s)
    else filter_string (is_not ",") s.
Proof.
  unfold normalise_decimal. destruct (ends_comma_2digits s).
  - now rewrite replace_char_delete, replace_char_map.
  - apply replace_char_delete.
Qed.

(** Alphabet of the string given to [float]. *)
Lemma span_all (p : ascii -> bool) (s a b : string) :
  Py.span p s = (a, b) -> Py.all_chars p a = true.
Proof.
  revert a b. induction s as [|c s IH]; intros a b H; simpl in H.
  - inversion H. reflexivity.
  - destruct (p c) eqn:E.
    + destruct (Py.span p s) as [a' b'] eqn:E'. inversion H. subst.
      simpl. rewrite E. simpl. eapply IH. reflexivity.
    + inversion H. reflexivity.
Qed.

Lemma all_chars_filter (p q r : ascii -> bool) (s : string) :
  (forall c, p c = true -> q c = true -> r c = true) ->
  Py.all_chars p s = true -> Py.all_chars r (filter_string q s) = true.
Proof.
  intros H. induction s as [|c s IH]; simpl; [reflexivity|].
  intros A. apply andb_prop in A. destruct A as [A1 A2].
  destruct (q c) eqn:E; simpl; [|auto].
  rewrite (H c A1 E). simpl. auto.
Qed.

Lemma all_chars_map (p r : ascii -> bool) (f : ascii -> ascii) (s : string) :
  (forall c, p c = true -> r (f c) = true) ->
  Py.all_chars p s = true -> Py.all_chars r (Py.map_string f s) = true.
Proof.
  intros H. induction s as [|c s IH]; simpl; [reflexivity|].
  intros A. apply andb_prop in A. destruct A as [A1 A2].
  rewrite (H c A1). simpl. auto.
Qed.

Lemma cleaned_alphabet (text g1 : string) (g2 : option string) :
  match_amount text = Some (g1, g2) ->
  Py.all_chars float_char
    (normalise_decimal
       (Py.replace " " "" (Py.replace (String nbsp "") "" g1))) = true.
Proof.
  unfold match_amount. destruct (Py.span amount_char text) as [a b] eqn:E.
  destruct a as [|c a']; [discriminate|]. intros H. inversion H. subst g1.
  apply span_all in E.
  rewrite !replace_char_delete, normalise_decimal_cases.
  set (s := filter_string (is_not " ") (filter_string (is_not nbsp) _)).
  assert (A : Py.all_chars amount_char s = true).
  { subst s. eapply all_chars_filter; [|eapply all_chars_filter; [|exact E]];
      intros; eassumption. }
  destruct (ends_comma_2digits s).
  - eapply all_chars_map;
      [|eapply (all_chars_filter amount_char _
                  (fun c => amount_char c && is_not "." c));
        [|exact A]].
    + intros c0 Hc.
      generalize (forall_ascii
        (fun c => implb (amount_char c && is_not "." c)
                        (float_char (comma_to_stop c))) eq_refl c0).
      rewrite Hc. simpl. auto.
    + intros c0 K1 K2. now rewrite K1, K2.
  - eapply (all_chars_filter amount_char); [|exact A].
    intros c0 K1 K2.
    generalize (forall_ascii
      (fun c => implb (amount_char c && is_not "," c) (float_char c)) eq_refl c0).
    rewrite K1, K2. simpl. auto.
Qed.

(** C7 (counterexample).  The convention is decided on the matched run
    with spaces and no-break spaces removed, in which other white space
    stays, and the test [,\d{2}$] also holds before one final newline.  In
    ["5,00<newline>SEK"] the run the parser tests is ["5,00<newline>"], which
    does not end in a comma and two digits, so the claimed rule strips the
    comma and reads 500; the parser returns 5.  In ["5,00<tab>SEK"] the
    digits and separators ["5,00"] end in a comma and two digits, so the
    claimed rule reads 5; the parser returns 500. *)
Lemma decimal_comma_run_end :
  match_amount ("5,00" ++ String newline "SEK")%string
  = Some (("5,00" ++ String newline "")%string, Some "SEK")
  /\ Py.float (claimed_normalise ("5,00" ++ String newline "")%string) = Some (500 # 1)
  /\ clean_amount (Some ("5,00" ++ String newline "SEK")%string) = (Some (5 # 1), Some "SEK")
  /\ match_amount ("5,00" ++ String tab "SEK")%string
     = Some (("5,00" ++ String tab "")%string, Some "SEK")
  /\ Py.float (claimed_normalise "5,00") = Some (5 # 1)
  /\ clean_amount (Some ("5,00" ++ String tab "SEK")%string) = (Some (500 # 1), Some "SEK")
  /\ Some (500 # 1) <> Some (5 # 1).
Proof. repeat split; try (vm_compute; reflexivity). discriminate. Qed.

(** C7 (amended).  The amount parser applies the decimal-comma convention
    to the matched run with spaces and no-break spaces removed (other white
    space stays in it): when that text ends in a comma followed by two
    digits, or in those followed by one final newline, the full stops are
    stripped and the commas become the decimal point; otherwise the commas
    are stripped and the full stops stay; the value is the decimal number
    read from the result.  ["1 234,50 SEK"] gives [(1234.50, "SEK")],
    ["1,234.50"] gives [(1234.50, "SEK")], ["500 EUR"] gives
    [(500.0, "EUR")] and ["n/a"] gives [(None, None)] (1234.50 is the
    rational 2469/2). *)
Theorem decimal_comma_convention :
  (forall p d1 d2 s,
      Py.is_digit d1 = true -> Py.is_digit d2 = true ->
      s = (p ++ String "," (String d1 (String d2 "")))%string
      \/ s = (p ++ String "," (String d1 (String d2 (String newline ""))))%string ->
      normalise_decimal s
      = Py.map_string comma_to_stop (filter_string (is_not ".") s))
  /\ (forall s,
      (forall p d1 d2,
          Py.is_digit d1 = true -> Py.is_digit d2 = true ->
          s <> (p ++ String "," (String d1 (String d2 "")))%string
          /\ s <> (p ++ String "," (String d1 (String d2 (String newline ""))))%string) ->
      normalise_decimal s = filter_string (is_not ",") s)
  /\ (forall text g1 g2,
      match_amount (Py.strip text) = Some (g1, g2) ->
      fst (clean_amount (Some text))
      = Py.float (normalise_decimal
                    (filter_string (is_not " ") (filter_string (is_not nbsp) g1))))
  /\ clean_amount (Some "1 234,50 SEK") = (Some (2469 # 2), Some "SEK")
  /\ clean_amount (Some "1,234.50") = (Some (2469 # 2), Some "SEK")
  /\ clean_amount (Some "500 EUR") = (Some (500 # 1), Some "EUR")
  /\ clean_amount (Some "n/a") = (None, None).
Proof.
  split; [|split; [|split]].
  - intros p d1 d2 s H1 H2 Hs. rewrite normalise_decimal_cases.
    assert (E : ends_comma_2digits s = true).
    { apply ends_comma_2digits_iff. exists p, d1, d2. auto. }
    now rewrite E.
  - intros s H. rewrite normalise_decimal_cases.
    destruct (ends_comma_2digits s) eqn:E; [|reflexivity].
    apply ends_comma_2digits_iff in E.
    destruct E as (p & d1 & d2 & H1 & H2 & E).
    destruct (H p d1 d2 H1 H2) as [N1 N2]. destruct E; contradiction.
  - intros text g1 g2 H. unfold clean_amount. rewrite H.
    rewrite !replace_char_delete.
    destruct (Py.float _); reflexivity.
  - repeat split.
Qed.

(** Witness of C7: the run ["1234,50"] of ["1 234,50 SEK"]. *)
Lemma decimal_comma_convention_sek :
  Py.is_digit "5" = true /\ Py.is_digit "0" = true
  /\ normalise_decimal "1234,50" = "1234.50".
Proof.
  assert (H1 : Py.is_digit "5" = true) by reflexivity.
  assert (H2 : Py.is_digit "0" = true) by reflexivity.
  split; [exact H1|]. split; [exact H2|].
  exact (proj1 decimal_comma_convention "1234" "5"%char "0"%char "1234,50"
               H1 H2 (or_introl eq_refl)).
Defined.

Lemma currency_letter_case :
  forallb (fun a => forallb (fun c =>
      implb (Ascii.eqb (Py.lower_char c) (Py.lower_char a))
            (Ascii.eqb (Py.upper_char c) a)) all_ascii) currency_letters = true.
Proof. vm_compute. reflexivity. Qed.

Lemma upper_of_case_match (c a : ascii) :
  In a currency_letters ->
  Py.lower_char c = Py.lower_char a -> Py.upper_char c = a.
Proof.
  intros Ha E. pose proof currency_letter_case as H.
  rewrite forallb_forall in H. specialize (H a Ha).
  rewrite forallb_forall in H. specialize (H c (in_all_ascii c)).
  rewrite E, Ascii.eqb_refl in H. simpl in H. now apply Ascii.eqb_eq.
Qed.

Lemma upper_of_code (w alt : string) :
  In alt currency_codes -> Py.lower w = Py.lower alt -> Py.upper w = alt.
Proof.
  intros Ha E. unfold currency_codes in Ha. simpl in Ha.
  destruct Ha as [<-|[<-|[<-|[<-|[]]]]];
    destruct w as [|c1 [|c2 [|c3 [|c4 w]]]]; try discriminate;
    simpl in E; inversion E;
    unfold Py.upper; simpl;
    repeat match goal with
           | H : Py.lower_char ?c = ?x |- _ =>
               match goal with
               | |- context [Py.upper_char c] =>
                   rewrite (upper_of_case_match c (Py.upper_char x));
                   [|unfold currency_letters; simpl; tauto | exact H]; clear H
               end
           end; reflexivity.
Qed.

Lemma match_currency_code (s w : string) :
  match_currency s = Some w -> In (Py.upper w) currency_codes.
Proof.
  unfold match_currency.
  destruct (existsb _ currency_codes) eqn:E; [|discriminate].
  intros H. inversion H. subst w. clear H.
  apply existsb_exists in E. destruct E as [alt [Ha E]].
  apply String.eqb_eq in E. rewrite (upper_of_code _ alt Ha E). exact Ha.
Qed.

(** On a text of characters below U+0100, the currency code the amount
    parser returns is [None] or one of ["SEK"], ["EUR"], ["USD"], ["GBP"];
    a trailing code outside the set is not recognised: ["500 NOK"] gives
    the value 500 with the default ["SEK"]. *)
Lemma currency_code_in_fixed_set (raw : option string) :
  (snd (clean_amount raw) = None
   \/ exists code, In code currency_codes /\ snd (clean_amount raw) = Some code)
  /\ clean_amount (Some "500 NOK") = (Some (500 # 1), Some "SEK")
  /\ match_amount "500 NOK" = Some ("500 ", None).
Proof.
  split; [|split; reflexivity].
  unfold clean_amount. destruct raw as [text|]; [|now left].
  destruct (match_amount (Py.strip text)) as [[g1 g2]|] eqn:M; [|now left].
  destruct (Py.float _); [|now left]. right. simpl.
  destruct g2 as [w|].
  - exists (Py.upper w). split; [|reflexivity].
    unfold match_amount in M. destruct (Py.span amount_char _) as [a b].
    destruct a; [discriminate|]. inversion M.
    eapply match_currency_code. eassumption.
  - exists "SEK". split; [simpl; tauto | reflexivity].
Qed.

(** ** The currency group beyond U+0100 *)

Lemma wide_letter_upper (p : ascii) (u : Wide.char) :
  In p currency_letters -> Wide.letter_match p u = true ->
  Wide.upper_char u = Wide.Latin p \/ (p = "K"%char /\ u = Wide.KelvinSign).
Proof.
  intros Hp M. destruct u as [c| |]; simpl in *.
  - left. f_equal. apply upper_of_case_match; [exact Hp|].
    now apply Ascii.eqb_eq.
  - left. apply Ascii.eqb_eq in M. now subst p.
  - right. apply Ascii.eqb_eq in M. now subst p.
Qed.

Lemma wide_literal_upper (p1 p2 p3 : ascii) (t : Wide.text) :
  In p1 currency_letters -> In p2 currency_letters -> In p3 currency_letters ->
  p1 <> "K"%char -> p2 <> "K"%char ->
  Wide.literal_match (String p1 (String p2 (String p3 ""))) t = true ->
  Wide.upper (firstn 3 t) = [Wide.Latin p1; Wide.Latin p2; Wide.Latin p3]
  \/ (p3 = "K"%char
      /\ Wide.upper (firstn 3 t) = [Wide.Latin p1; Wide.Latin p2; Wide.KelvinSign]).
Proof.
  intros H1 H2 H3 N1 N2 M.
  destruct t as [|u1 [|u2 [|u3 t]]]; simpl in M;
    rewrite ?andb_false_r in M; try discriminate.
  apply andb_prop in M. destruct M as [M1 M].
  apply andb_prop in M. destruct M as [M2 M].
  apply andb_prop in M. destruct M as [M3 _].
  apply (wide_letter_upper _ _ H1) in M1. destruct M1 as [M1|[E _]]; [|contradiction].
  apply (wide_letter_upper _ _ H2) in M2. destruct M2 as [M2|[E _]]; [|contradiction].
  apply (wide_letter_upper _ _ H3) in M3.
  unfold Wide.upper. cbn [firstn map]. rewrite M1, M2.
  destruct M3 as [M3|[E M3]].
  - left. now rewrite M3.
  - right. split; [exact E|]. now subst u3.
Qed.

Lemma wide_match_currency_code (t w : Wide.text) :
  Wide.match_currency t = Some w ->
  (exists code, In code currency_codes /\ Wide.upper w = Wide.of_string code)
  \/ Wide.upper w = Wide.sek_kelvin.
Proof.
  unfold Wide.match_currency.
  destruct (find _ currency_codes) as [alt|] eqn:F; [|discriminate].
  intros [= <-]. apply find_some in F. destruct F as [Ha M].
  unfold currency_codes in Ha. simpl in Ha.
  destruct Ha as [<-|[<-|[<-|[<-|[]]]]];
    (apply wide_literal_upper in M;
     [| unfold currency_letters; simpl; tauto ..| discriminate | discriminate ]);
    cbn [String.length];
    (destruct M as [M|[E M]]; [|try discriminate E]);
    rewrite M.
  - left. exists "SEK". split; [simpl; tauto | reflexivity].
  - right. reflexivity.
  - left. exists "EUR". split; [simpl; tauto | reflexivity].
  - left. exists "USD". split; [simpl; tauto | reflexivity].
  - left. exists "GBP". split; [simpl; tauto | reflexivity].
Qed.

Lemma wide_drop_while (s : string) :
  Wide.drop_while Wide.is_space (Wide.of_string s)
  = Wide.of_string (Py.drop_while Py.is_space s).
Proof.
  induction s as [|c s IH]; [reflexivity|].
  change (Wide.of_string (String c s)) with (Wide.Latin c :: Wide.of_string s).
  cbn [Wide.drop_while Py.drop_while Wide.is_space].
  destruct (Py.is_space c); [exact IH | reflexivity].
Qed.

Lemma wide_rev (s acc : string) :
  rev (Wide.of_string s) ++ Wide.of_string acc
  = Wide.of_string (Py.rev_string acc s).
Proof.
  revert acc. induction s as [|c s IH]; intros acc; [reflexivity|].
  change (Wide.of_string (String c s)) with (Wide.Latin c :: Wide.of_string s).
  cbn [rev Py.rev_string]. rewrite <- app_assoc. exact (IH (String c acc)).
Qed.

Lemma wide_strip (s : string) :
  Wide.strip (Wide.of_string s) = Wide.of_string (Py.strip s).
Proof.
  unfold Wide.strip, Py.strip, Py.drop_while_end.
  rewrite wide_drop_while.
  rewrite <- (app_nil_r (rev (Wide.of_string (Py.drop_while Py.is_space s)))).
  change (@nil Wide.char) with (Wide.of_string "") at 1.
  rewrite wide_rev, wide_drop_while.
  rewrite <- (app_nil_r (rev _)).
  change (@nil Wide.char) with (Wide.of_string "") at 1.
  apply wide_rev.
Qed.

Lemma wide_span (s : string) :
  Wide.span_amount (Wide.of_string s)
  = (fst (Py.span amount_char s), Wide.of_string (snd (Py.span amount_char s))).
Proof.
  induction s as [|c s IH]; [reflexivity|].
  change (Wide.of_string (String c s)) with (Wide.Latin c :: Wide.of_string s).
  cbn [Wide.span_amount Py.span]. destruct (amount_char c); [|reflexivity].
  rewrite IH. destruct (Py.span amount_char s). reflexivity.
Qed.

Lemma wide_upper (w : string) :
  Wide.upper (Wide.of_string w) = Wide.of_string (Py.upper w).
Proof.
  induction w as [|c w IH]; [reflexivity|].
  change (Wide.of_string (String c w)) with (Wide.Latin c :: Wide.of_string w).
  unfold Wide.upper in *. cbn [map Wide.upper_char]. rewrite IH. reflexivity.
Qed.

Lemma wide_literal (p1 p2 p3 : ascii) (r : string) :
  Wide.literal_match (String p1 (String p2 (String p3 ""))) (Wide.of_string r)
  = String.eqb (Py.lower (substring 0 3 r))
               (Py.lower (String p1 (String p2 (String p3 "")))).
Proof.
  destruct r as [|c1 [|c2 [|c3 r]]]; cbn;
    rewrite ?andb_false_r, ?andb_true_r;
    repeat match goal with
           | |- context [Ascii.eqb ?a ?b] => destruct (Ascii.eqb a b)
           end; try reflexivity.
  destruct r; reflexivity.
Qed.

Lemma wide_first3 (r : string) :
  firstn 3 (Wide.of_string r) = Wide.of_string (substring 0 3 r).
Proof. destruct r as [|c1 [|c2 [|c3 [|c4 r]]]]; reflexivity. Qed.

Lemma wide_match_currency (r : string) :
  Wide.match_currency (Wide.of_string r)
  = option_map Wide.of_string (match_currency r).
Proof.
  unfold Wide.match_currency, match_currency, currency_codes.
  cbn [find existsb]. rewrite !wide_literal.
  repeat (destruct (String.eqb (Py.lower (substring 0 3 r)) _);
          [cbn [orb option_map String.length]; now rewrite wide_first3|]).
  reflexivity.
Qed.

(** On a text of characters below U+0100 the parser of [Wide] is the
    parser above. *)
Lemma wide_clean_amount_latin (s : string) :
  Wide.clean_amount (Some (Wide.of_string s))
  = (fst (clean_amount (Some s)),
     option_map Wide.of_string (snd (clean_amount (Some s)))).
Proof.
  unfold Wide.clean_amount, clean_amount, match_amount.
  rewrite wide_strip, wide_span.
  destruct (Py.span amount_char (Py.strip s)) as [g1 rest]. cbn [fst snd].
  destruct g1 as [|c g1]; [reflexivity|].
  rewrite wide_drop_while, wide_match_currency.
  destruct (Py.float _); [|reflexivity]. cbn [fst snd option_map].
  destruct (match_currency _) as [w|]; cbn [option_map];
    [now rewrite wide_upper | reflexivity].
Qed.

(** C10 (the code at the failing input).  The text ['500 SE\u212a'], whose
    last character is the kelvin sign: the sign matches the [K] of the
    alternation under [re.IGNORECASE] and [upper()] leaves it, so the
    parser returns 500 with a currency that is none of the four codes (nor
    a key of the table of rates).  The long s matches [S] likewise, but
    [upper()] turns it into [S]: ['500 \u017fek'] gives ["SEK"]. *)
Theorem kelvin_sign_currency :
  Wide.clean_amount (Some (Wide.of_string "500 SE" ++ [Wide.KelvinSign]))
  = (Some (500 # 1), Some Wide.sek_kelvin)
  /\ ~ In Wide.sek_kelvin (map Wide.of_string currency_codes)
  /\ Wide.clean_amount
       (Some (Wide.of_string "500 " ++ Wide.LongS :: Wide.of_string "ek"))
     = (Some (500 # 1), Some (Wide.of_string "SEK")).
Proof.
  split; [reflexivity|]. split; [|reflexivity].
  simpl. intros [H|[H|[H|[H|[]]]]]; discriminate H.
Qed.

(** Witness of C9: the customer whose row has empty cells and a zero
    cell. *)
Lemma stored_values_nonzero_borealis :
  In borealis (customers (parse_master None (Some thirteen_ltm_sheet)))
  /\ cell_value thirteen_ltm_sheet 3 16 = CInt 0
  /\ Dict.get "LTM 25-nov" (Customer.ltm borealis) = None
  /\ nonzero_values (Customer.ltm borealis).
Proof.
  assert (H : In borealis (customers (parse_master None (Some thirteen_ltm_sheet))))
    by (vm_compute; right; left; reflexivity).
  split; [exact H|]. split; [reflexivity|]. split; [reflexivity|].
  exact (proj2 (proj2 (proj1 (proj2
           (stored_values_nonzero None (Some thirteen_ltm_sheet))) borealis H))).
Defined.

(** * Further properties *)

(** ** Stable insertion sort *)

Section SortBy.
Context {A : Type} (le : A -> A -> bool).

Lemma insert_by_hdrel (a x : A) (l : list A) :
  HdRel (fun u v => le u v = true) a l -> le a x = true ->
  HdRel (fun u v => le u v = true) a (insert_by le x l).
Proof.
  intros H Hx. destruct l as [|y l]; simpl.
  - now constructor.
  - destruct (le x y); constructor; [exact Hx | now inversion H].
Qed.

Lemma sort_by_fixed (l : list A) :
  Sorted (fun u v => le u v = true) l -> sort_by le l = l.
Proof.
  induction 1 as [|x l Hs IH Hh]; simpl; [reflexivity|].
  fold (sort_by le l). rewrite IH.
  destruct Hh as [|y l' Hy]; simpl; [reflexivity | now rewrite Hy].
Qed.

Hypothesis le_total : forall x y, le x y = true \/ le y x = true.

Lemma insert_by_sorted (x : A) (l : list A) :
  Sorted (fun u v => le u v = true) l ->
  Sorted (fun u v => le u v = true) (insert_by le x l).
Proof.
  induction 1 as [|y l Hs IH Hh]; simpl.
  - repeat constructor.
  - destruct (le x y) eqn:E.
    + repeat constructor; assumption.
    + constructor; [exact IH|].
      apply insert_by_hdrel; [exact Hh|].
      destruct (le_total x y) as [H|H]; [congruence | exact H].
Qed.

Lemma sort_by_sorted (l : list A) :
  Sorted (fun u v => le u v = true) (sort_by le l).
Proof.
  induction l as [|x l IH]; simpl; [constructor|].
  now apply insert_by_sorted.
Qed.

Hypothesis le_trans : forall x y z, le x y = true -> le y z = true -> le x z = true.

Lemma sort_by_strongly_sorted (l : list A) :
  StronglySorted (fun u v => le u v = true) (sort_by le l).
Proof.
  apply Sorted_StronglySorted; [|apply sort_by_sorted].
  intros x y z. apply le_trans.
Qed.

End SortBy.

Lemma key_le_total (a b : Z * Z) : key_le a b = true \/ key_le b a = true.
Proof.
  unfold key_le. destruct a as [a1 a2], b as [b1 b2]. simpl.
  destruct (a1 <? b1) eqn:E1; destruct (b1 <? a1) eqn:E2;
    destruct (a1 =? b1) eqn:E3; destruct (b1 =? a1) eqn:E4;
    destruct (a2 <=? b2) eqn:E5; destruct (b2 <=? a2) eqn:E6;
    simpl; auto; exfalso; lia.
Qed.

Lemma key_le_trans (a b c : Z * Z) :
  key_le a b = true -> key_le b c = true -> key_le a c = true.
Proof.
  unfold key_le. destruct a as [a1 a2], b as [b1 b2], c as [c1 c2]. simpl.
  destruct (a1 <? b1) eqn:E1; destruct (b1 <? c1) eqn:E2;
    destruct (a1 =? b1) eqn:E3; destruct (b1 =? c1) eqn:E4;
    destruct (a2 <=? b2) eqn:E5; destruct (b2 <=? c2) eqn:E6;
    destruct (a1 <? c1) eqn:E7; destruct (a1 =? c1) eqn:E8;
    destruct (a2 <=? c2) eqn:E9;
    simpl; auto; intros; try discriminate; exfalso; lia.
Qed.

Lemma chrono_le_total (a b : string) : chrono_le a b = true \/ chrono_le b a = true.
Proof. apply key_le_total. Qed.

Lemma chrono_le_trans (a b c : string) :
  chrono_le a b = true -> chrono_le b c = true -> chrono_le a c = true.
Proof. apply key_le_trans. Qed.

(** X1.  For every dataset, the list of LTM labels the decomposition and
    trajectory analyses walk is a rearrangement of the keys of [ltm_trend]
    in which every label comes no later, by its sort key, than every label
    after it. *)
Theorem sorted_ltms_chronological (d : dataset) :
  Permutation (sorted_ltms d) (Dict.keys (ltm_trend d))
  /\ StronglySorted (fun a b => chrono_le a b = true) (sorted_ltms d).
Proof.
  split.
  - apply sort_by_perm.
  - apply (sort_by_strongly_sorted chrono_le chrono_le_total chrono_le_trans).
Qed.

(** ** Period keys of well-formed labels *)

Lemma well_formed_inv (s : string) :
  well_formed_label s = true ->
  exists d1 d2 m,
    s = label_of d1 d2 m /\ Py.is_digit d1 = true /\ Py.is_digit d2 = true
    /\ In m (Dict.keys swedish_months).
Proof.
  intros H. unfold well_formed_label in H.
  repeat match type of H with
         | match ?x with _ => _ end = true => destruct x; try discriminate
         | (if ?b then _ else _) = true => destruct b; try discriminate
         end.
  apply andb_prop in H. destruct H as [H Hm].
  apply andb_prop in H. destruct H as [H1 H2].
  eexists. eexists. eexists. split; [reflexivity|].
  split; [exact H1|]. split; [exact H2|]. now apply mem_month_in.
Qed.

Lemma digit_val_range (c : ascii) : Py.is_digit c = true -> 0 <= Py.digit_val c <= 9.
Proof.
  unfold Py.is_digit, Py.in_range, Py.digit_val. intros H.
  apply andb_prop in H. destruct H as [H1 H2].
  apply N.leb_le in H1. apply N.leb_le in H2. lia.
Qed.

Lemma digit_val_inj (c1 c2 : ascii) : Py.digit_val c1 = Py.digit_val c2 -> c1 = c2.
Proof.
  unfold Py.digit_val, Py.code. intros H.
  assert (E : N_of_ascii c1 = N_of_ascii c2) by lia.
  rewrite <- (ascii_N_embedding c1), <- (ascii_N_embedding c2). now rewrite E.
Qed.

Lemma month_number_inj (m1 m2 : string) :
  In m1 (Dict.keys swedish_months) -> In m2 (Dict.keys swedish_months) ->
  Dict.get_default m1 0 swedish_months = Dict.get_default m2 0 swedish_months ->
  m1 = m2.
Proof.
  simpl. intros H1 H2.
  repeat (destruct H1 as [<-|H1]; [|]); try contradiction;
    repeat (destruct H2 as [<-|H2]; [|]); try contradiction;
    intros E; try reflexivity; vm_compute in E; discriminate.
Qed.

(** X2.  Two well-formed LTM labels with the same sort key are the same
    label, so distinct well-formed labels are always strictly ordered: the
    chronological order of a well-formed ledger has no ties. *)
Theorem ltm_sort_key_injective (s1 s2 : string) :
  well_formed_label s1 = true -> well_formed_label s2 = true ->
  (ltm_sort_key s1 = ltm_sort_key s2 -> s1 = s2)
  /\ (s1 <> s2 ->
      key_lt (ltm_sort_key s1) (ltm_sort_key s2) = true
      \/ key_lt (ltm_sort_key s2) (ltm_sort_key s1) = true).
Proof.
  intros W1 W2.
  assert (Inj : ltm_sort_key s1 = ltm_sort_key s2 -> s1 = s2).
  { destruct (well_formed_key s1 W1) as (K1 & _).
    destruct (well_formed_key s2 W2) as (K2 & _).
    rewrite K1, K2.
    destruct (well_formed_inv s1 W1) as (a1 & a2 & m & -> & A1 & A2 & Hm).
    destruct (well_formed_inv s2 W2) as (b1 & b2 & n & -> & B1 & B2 & Hn).
    unfold label_of, expected_key. intros E.
    pose proof (f_equal fst E) as Ey. pose proof (f_equal snd E) as Em.
    cbn [fst snd] in Ey, Em.
    apply digit_val_range in A1, A2, B1, B2.
    assert (Py.digit_val a1 = Py.digit_val b1) as E1 by lia.
    assert (Py.digit_val a2 = Py.digit_val b2) as E2 by lia.
    apply digit_val_inj in E1, E2. subst.
    now rewrite (month_number_inj m n Hm Hn Em). }
  split; [exact Inj|].
  intros N. unfold key_lt.
  destruct (ltm_sort_key s1) as [y1 k1] eqn:K1.
  destruct (ltm_sort_key s2) as [y2 k2] eqn:K2.
  assert (D : (y1, k1) <> (y2, k2)) by (intros E; apply N, Inj; exact E).
  unfold key_le. simpl.
  destruct (y1 <? y2) eqn:E1; destruct (y2 <? y1) eqn:E2;
    destruct (y1 =? y2) eqn:E3; destruct (y2 =? y1) eqn:E4;
    destruct (k1 <=? k2) eqn:E5; destruct (k2 <=? k1) eqn:E6;
    simpl; auto; exfalso; try lia.
  apply D. f_equal; lia.
Qed.

(** Witness of X2: November 2024 and November 2025. *)
Lemma ltm_sort_key_injective_nov :
  well_formed_label "LTM 24-nov" = true /\ well_formed_label "LTM 25-nov" = true
  /\ key_lt (ltm_sort_key "LTM 24-nov") (ltm_sort_key "LTM 25-nov") = true.
Proof.
  assert (W1 : well_formed_label "LTM 24-nov" = true) by reflexivity.
  assert (W2 : well_formed_label "LTM 25-nov" = true) by reflexivity.
  split; [exact W1|]. split; [exact W2|].
  destruct (proj2 (ltm_sort_key_injective "LTM 24-nov" "LTM 25-nov" W1 W2))
    as [H|H].
  - discriminate.
  - exact H.
  - vm_compute in H. discriminate.
Defined.

(** ** Keys of the derived totals *)

Lemma set_add_nodup (k : string) (s : list string) :
  NoDup s -> NoDup (set_add k s).
Proof.
  intros H. unfold set_add. destruct (existsb (String.eqb k) s) eqn:E; [exact H|].
  apply NoDup_app; [exact H | repeat constructor; intros [] | ].
  intros x Hx [Ex|[]]. subst x.
  assert (existsb (String.eqb k) s = true) by now apply existsb_eqb_in.
  congruence.
Qed.

Lemma set_update_nodup (s ks : list string) :
  NoDup s -> NoDup (set_update s ks).
Proof.
  unfold set_update. revert s. induction ks as [|k ks IH]; intros s H; simpl.
  - exact H.
  - apply IH. now apply set_add_nodup.
Qed.

Lemma all_keys_nodup {E : Type} (series : E -> Dict.t Z) (es : list E) :
  NoDup (all_keys series es).
Proof.
  unfold all_keys.
  assert (G : forall acc, NoDup acc ->
    NoDup (fold_left (fun acc e => set_update acc (Dict.keys (series e))) es acc)).
  { induction es as [|e es IH]; intros acc H; simpl; [exact H|].
    apply IH. now apply set_update_nodup. }
  apply G. constructor.
Qed.

Lemma keys_set_fresh {V : Type} (k : string) (v : V) (d : Dict.t V) :
  ~ In k (Dict.keys d) -> Dict.keys (Dict.set k v d) = Dict.keys d ++ [k].
Proof.
  induction d as [|[k' v'] d IH]; simpl; intros H; [reflexivity|].
  destruct (String.eqb_spec k k') as [->|N].
  - exfalso. apply H. now left.
  - simpl. f_equal. apply IH. intros I. apply H. now right.
Qed.

Lemma keys_totals {E : Type} (series : E -> Dict.t Z) (es : list E)
      (order : list string) :
  NoDup order -> Dict.keys (totals series es order) = order.
Proof.
  unfold totals.
  assert (G : forall init,
    NoDup (Dict.keys init ++ order) ->
    Dict.keys (fold_left (fun d k => Dict.set k (series_total series es k) d)
                         order init)
    = Dict.keys init ++ order).
  { induction order as [|k order IH]; intros init H; simpl.
    - now rewrite app_nil_r.
    - assert (F : ~ In k (Dict.keys init)).
      { apply NoDup_remove_2 in H. intros I. apply H.
        apply in_or_app. now left. }
      rewrite IH; rewrite keys_set_fresh by exact F.
      + now rewrite <- app_assoc.
      + rewrite <- app_assoc. exact H. }
  intros H. apply (G Dict.empty). exact H.
Qed.

Lemma sort_by_nodup {A : Type} (le : A -> A -> bool) (l : list A) :
  NoDup l -> NoDup (sort_by le l).
Proof.
  apply Permutation_NoDup, Permutation_sym, sort_by_perm.
Qed.

(** X3.  In a parsed dataset the keys of [ltm_trend] are distinct and in
    chronological order, so sorting them again, as every analysis does,
    changes nothing; the keys of [monthly_totals] are distinct and in
    ascending order. *)
Theorem parsed_totals_keys (art_ws cust_ws : option worksheet) :
  let d := parse_master art_ws cust_ws in
  NoDup (Dict.keys (ltm_trend d))
  /\ Sorted (fun a b => chrono_le a b = true) (Dict.keys (ltm_trend d))
  /\ sorted_ltms d = Dict.keys (ltm_trend d)
  /\ NoDup (Dict.keys (monthly_totals d))
  /\ Sorted (fun a b => String.leb a b = true) (Dict.keys (monthly_totals d)).
Proof.
  cbv zeta. unfold parse_master, sorted_ltms. cbn [ltm_trend monthly_totals].
  set (arts := match art_ws with Some ws => parse_articles ws | None => [] end).
  set (custs := match cust_ws with Some ws => parse_customers ws | None => [] end).
  fold chrono_le.
  change (fun a b : string => key_le (ltm_sort_key a) (ltm_sort_key b))
    with chrono_le.
  rewrite !keys_totals by (apply sort_by_nodup, all_keys_nodup).
  repeat split.
  - apply sort_by_nodup, all_keys_nodup.
  - apply sort_by_sorted, chrono_le_total.
  - apply sort_by_fixed, sort_by_sorted, chrono_le_total.
  - apply sort_by_nodup, all_keys_nodup.
  - apply sort_by_sorted, String.leb_total.
Qed.

(** ** Master parser: what is retained and what is read *)

Lemma set_items_in {V : Type} (k : string) (v : V) (d : Dict.t V) (kv : string * V) :
  In kv (Dict.set k v d) -> In kv d \/ kv = (k, v).
Proof.
  induction d as [|[k' v'] d IH]; simpl.
  - intros [<-|[]]. now right.
  - destruct (String.eqb k k'); simpl.
    + intros [<-|H]; auto.
    + intros [<-|H]; auto. destruct (IH H); auto.
Qed.

Lemma keys_set_in {V : Type} (k x : string) (v : V) (d : Dict.t V) :
  In x (Dict.keys (Dict.set k v d)) -> In x (Dict.keys d) \/ x = k.
Proof.
  unfold Dict.keys. intros H. apply in_map_iff in H.
  destruct H as [[k0 v0] [<- H]]. apply set_items_in in H.
  destruct H as [H|H].
  - left. apply in_map_iff. exists (k0, v0). auto.
  - inversion H. now right.
Qed.

Lemma mem_in_keys {V : Type} (k : string) (d : Dict.t V) :
  Dict.mem k d = true <-> In k (Dict.keys d).
Proof.
  rewrite <- get_in_keys. unfold Dict.mem.
  destruct (Dict.get k d); split; congruence.
Qed.

Lemma collect_keys (ws : worksheet) (r : nat) (cols : Dict.t nat) (k : string) :
  In k (Dict.keys (collect ws r cols)) -> In k (Dict.keys cols).
Proof.
  unfold collect, Dict.items.
  assert (G : forall acc,
    In k (Dict.keys
            (fold_left (fun acc kc =>
                          match numeric_cell (cell_value ws r (snd kc)) with
                          | Some v => Dict.set (fst kc) v acc
                          | None => acc
                          end) cols acc)) ->
    In k (Dict.keys acc) \/ In k (Dict.keys cols)).
  { induction cols as [|kc cols IH]; intros acc H; simpl in *; [now left|].
    apply IH in H. destruct H as [H|H]; [|now right; right].
    destruct (numeric_cell _); [|now left].
    apply keys_set_in in H. destruct H as [H| ->]; [now left | right; now left]. }
  intros H. apply G in H. destruct H as [[]|H]. exact H.
Qed.

Lemma set_column_in_range (d : Dict.t nat) (k : string) (c : nat) :
  (3 <= c < 100)%nat -> columns_in_range d -> columns_in_range (Dict.set k c d).
Proof.
  intros Hc Hd k0 c0 H. apply set_items_in in H.
  destruct H as [H|H]; [eapply Hd, H | inversion H; subst; exact Hc].
Qed.

Lemma classify_header_ok (ws : worksheet) (hc : header_cols) (c : nat) :
  (3 <= c < 100)%nat -> headers_ok hc -> headers_ok (classify_header ws hc c).
Proof.
  intros Hc (HL & HF & CM & CL & CF). unfold classify_header.
  assert (Other : forall hs,
    headers_ok
      (if prefix "FY" hs then
         {| months := months hc; ltms := ltms hc; fys := Dict.set hs c (fys hc) |}
       else if prefix "LTM" hs then
         {| months := months hc; ltms := Dict.set hs c (ltms hc); fys := fys hc |}
       else if String.eqb hs "YTD" then
         {| months := months hc; ltms := ltms hc; fys := Dict.set "YTD" c (fys hc) |}
       else hc)).
  { intros hs. destruct (prefix "FY" hs) eqn:E1.
    - unfold headers_ok; cbn [months ltms fys].
      split; [exact HL|]. split; [|auto using set_column_in_range].
      intros x H. apply keys_set_in in H. destruct H as [H| ->]; auto.
    - destruct (prefix "LTM" hs) eqn:E2.
      + unfold headers_ok; cbn [months ltms fys].
        split; [|split; [exact HF | auto using set_column_in_range]].
        intros x H. apply keys_set_in in H. destruct H as [H| ->]; auto.
      + destruct (String.eqb hs "YTD") eqn:E3.
        * unfold headers_ok; cbn [months ltms fys].
          split; [exact HL|]. split; [|auto using set_column_in_range].
          intros x H. apply keys_set_in in H. destruct H as [H| ->]; auto.
        * unfold headers_ok; auto. }
  destruct (cell_value ws 1 c) as [|z|b|t|dt]; try apply Other.
  - unfold headers_ok; auto.
  - unfold headers_ok; cbn [months ltms fys].
    auto using set_column_in_range.
Qed.

Lemma scan_headers_ok (ws : worksheet) : headers_ok (scan_headers ws).
Proof.
  unfold scan_headers, py_range.
  set (hi := Nat.min (max_column ws + 1) 100).
  assert (G : forall cs hc,
    (forall c, In c cs -> (3 <= c < 100)%nat) -> headers_ok hc ->
    headers_ok (fold_left (classify_header ws) cs hc)).
  { induction cs as [|c cs IH]; intros hc Hcs Hhc; simpl; [exact Hhc|].
    apply IH; [intros; apply Hcs; now right|].
    apply classify_header_ok; [apply Hcs; now left | exact Hhc]. }
  apply G.
  - intros c Hc. apply in_seq in Hc. subst hi. lia.
  - unfold headers_ok, columns_in_range. simpl. repeat split; intros; contradiction.
Qed.

Lemma nonempty_has_key (d : Dict.t Z) :
  any_value d = true -> exists k, Dict.mem k d = true.
Proof.
  destruct d as [|[k v] d]; [discriminate|]. intros _. exists k.
  unfold Dict.mem. simpl. now rewrite String.eqb_refl.
Qed.

Lemma parse_customers_retained (ws : worksheet) (c : Customer.t) :
  In c (parse_customers ws) ->
  any_value (Customer.monthly c) || any_value (Customer.fy c) = true.
Proof.
  unfold parse_customers. generalize (py_range 2 (max_row ws + 1)) as rows.
  intros rows.
  assert (G : forall acc,
    In c (fold_left (customer_row ws (scan_headers ws)) rows acc) ->
    In c acc \/ any_value (Customer.monthly c) || any_value (Customer.fy c) = true).
  { induction rows as [|r rows IH]; intros acc H; simpl in H; [now left|].
    apply IH in H. destruct H as [H|H]; [|now right].
    unfold customer_row in H.
    destruct (skip_row _); [now left|].
    match type of H with
    | In _ (if ?b then _ else _) => destruct b eqn:B
    end; [|now left].
    apply in_app_or in H. destruct H as [H|[<-|[]]]; [now left|].
    right. exact B. }
  intros H. apply G in H. destruct H as [[]|H]. exact H.
Qed.

Lemma parse_articles_retained (ws : worksheet) (a : Article.t) :
  In a (parse_articles ws) ->
  any_value (Article.monthly a) || any_value (Article.fy a) = true.
Proof.
  unfold parse_articles. generalize (py_range 2 (max_row ws + 1)) as rows.
  intros rows.
  assert (G : forall acc,
    In a (fold_left (article_row ws (scan_headers ws)) rows acc) ->
    In a acc \/ any_value (Article.monthly a) || any_value (Article.fy a) = true).
  { induction rows as [|r rows IH]; intros acc H; simpl in H; [now left|].
    apply IH in H. destruct H as [H|H]; [|now right].
    unfold article_row in H.
    destruct (skip_row _); [now left|].
    match type of H with
    | In _ (if ?b then _ else _) => destruct b eqn:B
    end; [|now left].
    apply in_app_or in H. destruct H as [H|[<-|[]]]; [now left|].
    right. exact B. }
  intros H. apply G in H. destruct H as [[]|H]. exact H.
Qed.

(** X4.  Every customer and every article the master parser retains has an
    entry in its monthly or its fiscal series (a row whose only numbers are
    LTM figures is dropped); every key of an LTM series starts with ["LTM"]
    and every key of a fiscal series starts with ["FY"] or is ["YTD"]. *)
Theorem retained_entities (art_ws cust_ws : option worksheet) :
  let d := parse_master art_ws cust_ws in
  (forall c, In c (customers d) ->
     (exists k, Dict.mem k (Customer.monthly c) = true
                \/ Dict.mem k (Customer.fy c) = true)
     /\ (forall k, Dict.mem k (Customer.ltm c) = true -> prefix "LTM" k = true)
     /\ (forall k, Dict.mem k (Customer.fy c) = true ->
                   prefix "FY" k = true \/ k = "YTD"))
  /\ (forall a, In a (articles d) ->
     (exists k, Dict.mem k (Article.monthly a) = true
                \/ Dict.mem k (Article.fy a) = true)
     /\ (forall k, Dict.mem k (Article.ltm a) = true -> prefix "LTM" k = true)
     /\ (forall k, Dict.mem k (Article.fy a) = true ->
                   prefix "FY" k = true \/ k = "YTD")).
Proof.
  cbv zeta. split.
  - intros c Hc. destruct cust_ws as [ws|]; simpl in Hc; [|contradiction].
    destruct (scan_headers_ok ws) as (HL & HF & _).
    pose proof (parse_customers_retained ws c Hc) as R.
    destruct (parse_customers_rows ws c Hc) as [r (Em & Ef & El)].
    split; [|split].
    + apply orb_prop in R. destruct R as [R|R];
        apply nonempty_has_key in R; destruct R as [k R]; exists k; auto.
    + intros k M. apply mem_in_keys in M. rewrite El in M.
      apply collect_keys in M. now apply HL.
    + intros k M. apply mem_in_keys in M. rewrite Ef in M.
      apply collect_keys in M. now apply HF.
  - intros a Ha. destruct art_ws as [ws|]; simpl in Ha; [|contradiction].
    destruct (scan_headers_ok ws) as (HL & HF & _).
    pose proof (parse_articles_retained ws a Ha) as R.
    destruct (parse_articles_rows ws a Ha) as [r (Em & Ef & El)].
    split; [|split].
    + apply orb_prop in R. destruct R as [R|R];
        apply nonempty_has_key in R; destruct R as [k R]; exists k; auto.
    + intros k M. apply mem_in_keys in M. rewrite El in M.
      apply collect_keys in M. now apply HL.
    + intros k M. apply mem_in_keys in M. rewrite Ef in M.
      apply collect_keys in M. now apply HF.
Qed.

(** Witness of X4: the customer of the five-period sheet. *)
Lemma retained_entities_nordmagnet :
  In nordmagnet (customers (parse_master None (Some declining_sheet)))
  /\ Dict.mem "2025-11" (Customer.monthly nordmagnet) = true
  /\ forall k, Dict.mem k (Customer.ltm nordmagnet) = true -> prefix "LTM" k = true.
Proof.
  assert (H : In nordmagnet (customers (parse_master None (Some declining_sheet))))
    by (vm_compute; left; reflexivity).
  split; [exact H|]. split; [reflexivity|].
  exact (proj1 (proj2 (proj1 (retained_entities None (Some declining_sheet))
                         nordmagnet H))).
Defined.

Lemma fold_left_ext_in {A B : Type} (f g : A -> B -> A) (l : list B) (a : A) :
  (forall x y, In y l -> f x y = g x y) -> fold_left f l a = fold_left g l a.
Proof.
  revert a. induction l as [|y l IH]; intros a H; simpl; [reflexivity|].
  rewrite H by now left. apply IH. intros; apply H; now right.
Qed.

Lemma classify_header_beyond (ws : worksheet) (l : list nat) (hc : header_cols) :
  within_columns ws -> (forall c, In c l -> (max_column ws < c)%nat) ->
  fold_left (classify_header ws) l hc = hc.
Proof.
  intros W. revert hc. induction l as [|c l IH]; intros hc H; [reflexivity|].
  cbn [fold_left]. unfold classify_header at 2.
  rewrite (W 1%nat c) by (apply H; now left).
  apply IH. intros; apply H; now right.
Qed.

(** On a worksheet without cells beyond its last column, the header scan
    is the scan of columns 3 to 99. *)
Lemma scan_headers_full (ws : worksheet) :
  within_columns ws ->
  scan_headers ws
  = fold_left (classify_header ws) (py_range 3 100)
              {| months := Dict.empty; ltms := Dict.empty; fys := Dict.empty |}.
Proof.
  intros W. unfold scan_headers, py_range.
  set (m := Nat.min (max_column ws + 1) 100).
  replace (100 - 3)%nat with ((m - 3) + (97 - (m - 3)))%nat by (subst m; lia).
  rewrite seq_app, fold_left_app. symmetry.
  apply classify_header_beyond; [exact W|].
  intros c Hc. apply in_seq in Hc. subst m. lia.
Qed.

Lemma scan_headers_same (ws ws' : worksheet) :
  within_columns ws -> within_columns ws' ->
  same_first_99_columns ws ws' -> scan_headers ws = scan_headers ws'.
Proof.
  intros W W' (_ & Hc). rewrite !scan_headers_full by assumption.
  apply fold_left_ext_in. intros hc c Hin.
  unfold py_range in Hin. apply in_seq in Hin.
  unfold classify_header. rewrite Hc by lia. reflexivity.
Qed.

Lemma collect_same (ws ws' : worksheet) (r : nat) (cols : Dict.t nat) :
  same_first_99_columns ws ws' -> columns_in_range cols ->
  collect ws r cols = collect ws' r cols.
Proof.
  intros (_ & Hc) Hr. unfold collect, Dict.items.
  apply fold_left_ext_in. intros acc [k c] Hin. simpl.
  rewrite Hc; [reflexivity|]. apply (Hr k c) in Hin. lia.
Qed.

Lemma grid_within_columns (rows : list (list cell)) :
  within_columns (grid_sheet rows).
Proof.
  intros r c H. unfold grid_sheet in *. cbn [max_column cell_value] in *.
  apply nth_overflow.
  assert (L : forall row, In row rows ->
            (List.length row
             <= fold_right Nat.max 0 (map (@List.length cell) rows))%nat).
  { clear. induction rows as [|x rows IH]; intros row Hin; [contradiction|].
    cbn [map fold_right]. destruct Hin as [<-|Hin]; [lia|].
    specialize (IH row Hin). lia. }
  destruct (nth_in_or_default (r - 1) rows []) as [Hin|E].
  - specialize (L _ Hin). lia.
  - rewrite E. cbn [List.length]. lia.
Qed.

(** X5.  The master parser reads the identifier columns and the header
    columns 3 to 99 only: two worksheets with the same number of rows that
    agree on columns 1 to 99 give the same articles and the same customers,
    whatever stands in column 100 and beyond, and however many columns
    each has. *)
Theorem parser_reads_99_columns (ws ws' : worksheet) :
  within_columns ws -> within_columns ws' ->
  same_first_99_columns ws ws' ->
  parse_articles ws = parse_articles ws'
  /\ parse_customers ws = parse_customers ws'
  /\ parse_master (Some ws) (Some ws) = parse_master (Some ws') (Some ws').
Proof.
  intros W W' Sm. pose proof Sm as (Hr & Hc).
  destruct (scan_headers_ok ws') as (_ & _ & CM & CL & CF).
  assert (A : parse_articles ws = parse_articles ws').
  { unfold parse_articles. rewrite (scan_headers_same ws ws' W W' Sm), Hr.
    apply fold_left_ext. intros acc r. unfold article_row.
    rewrite !(collect_same ws ws') by assumption.
    rewrite !Hc by lia. reflexivity. }
  assert (C : parse_customers ws = parse_customers ws').
  { unfold parse_customers. rewrite (scan_headers_same ws ws' W W' Sm), Hr.
    apply fold_left_ext. intros acc r. unfold customer_row.
    rewrite !(collect_same ws ws') by assumption.
    rewrite !Hc by lia. reflexivity. }
  split; [exact A|]. split; [exact C|].
  unfold parse_master. now rewrite A, C.
Qed.

(** Witness of X5: the five-period sheet has eight columns; the LTM
    cut-off in column 100 of the wide sheet is not read. *)
Lemma parser_reads_99_columns_wide :
  within_columns declining_sheet /\ within_columns wide_sheet
  /\ same_first_99_columns declining_sheet wide_sheet
  /\ max_column declining_sheet = 8%nat /\ max_column wide_sheet = 100%nat
  /\ cell_value wide_sheet 1 100 = CStr "LTM 25-dec"
  /\ parse_customers declining_sheet = parse_customers wide_sheet
  /\ Dict.get "LTM 25-dec" (ltm_trend (parse_master None (Some wide_sheet)))
     = None.
Proof.
  assert (W : within_columns declining_sheet) by apply grid_within_columns.
  assert (W' : within_columns wide_sheet).
  { intros r c H. unfold wide_sheet in *. cbn [max_column cell_value] in *.
    destruct (c =? 100)%nat eqn:E; [apply Nat.eqb_eq in E; lia|].
    apply W. change (max_column declining_sheet) with 8%nat. lia. }
  assert (Sm : same_first_99_columns declining_sheet wide_sheet).
  { split; [reflexivity|].
    intros r c Hc. unfold wide_sheet. cbn [cell_value].
    destruct (c =? 100)%nat eqn:E; [apply Nat.eqb_eq in E; lia | reflexivity]. }
  split; [exact W|]. split; [exact W'|]. split; [exact Sm|].
  split; [reflexivity|]. split; [reflexivity|]. split; [reflexivity|].
  split; [exact (proj1 (proj2 (parser_reads_99_columns _ _ W W' Sm)))|].
  vm_compute. reflexivity.
Defined.

(** ** Revenue bridge and decomposition: reconciliation *)

(** The four aggregates of the bridge as sums over the customers of each
    cohort. *)
Lemma bridge_totals (d : dataset) (curr prev : string) :
  let r := analyze_cohorts d curr prev in
  let pv c := ltm_at prev c in
  let cv c := ltm_at curr c in
  churn_loss r = Zsum (map pv (customers_where is_churned d curr prev))
  /\ decline_loss r
     = Zsum (map (fun c => pv c - cv c) (customers_where is_declining d curr prev))
  /\ growth_gain r
     = Zsum (map (fun c => cv c - pv c) (customers_where is_growing d curr prev))
  /\ new_gain r = Zsum (map cv (customers_where is_new d curr prev)).
Proof.
  cbv zeta.
  destruct (map_change_sorted d curr prev) as (Pc & Pd & Pg & Pn).
  destruct (classify_all_lists d curr prev) as (Ec & Ed & Eg & En).
  cbv zeta in *. rewrite Ec in Pc. rewrite Ed in Pd. rewrite Eg in Pg.
  rewrite En in Pn.
  destruct (losses_over prev curr (customers d)) as (L1 & L2 & _ & _).
  cbv zeta in *.
  unfold churn_loss, decline_loss, growth_gain, new_gain.
  rewrite !py_sum_Zsum.
  rewrite (Zsum_perm _ _ (Permutation_map Churned.previous Pc)).
  rewrite (Zsum_perm _ _ (Permutation_map Moved.change Pd)).
  rewrite (Zsum_perm _ _ (Permutation_map Moved.change Pg)).
  rewrite (Zsum_perm _ _ (Permutation_map New.current Pn)).
  rewrite !map_map. cbn [Churned.previous churned_rec Moved.change moved_rec
                         New.current new_rec].
  unfold customers_where. rewrite L1.
  repeat split; try reflexivity. lia.
Qed.

Lemma net_over (prev curr : string) (cs : list Customer.t) :
  let pv c := ltm_at prev c in
  let cv c := ltm_at curr c in
  let sel cond := filter (fun c => cond (pv c) (cv c)) cs in
  Zsum (map (fun c => cv c - pv c) (sel is_growing))
  + Zsum (map cv (sel is_new))
  - Zsum (map pv (sel is_churned))
  - Zsum (map (fun c => pv c - cv c) (sel is_declining))
  = Zsum (map (fun c => cv c - pv c) cs).
Proof.
  cbv zeta. induction cs as [|c cs IH]; simpl; [reflexivity|].
  unfold is_declining, is_growing, is_churned, is_new in *.
  destruct (0 <? ltm_at prev c) eqn:E1; destruct (ltm_at curr c =? 0) eqn:E2;
    destruct (ltm_at prev c =? 0) eqn:E3; destruct (0 <? ltm_at curr c) eqn:E4;
    destruct (ltm_at curr c <? ltm_at prev c) eqn:E5;
    destruct (ltm_at prev c <? ltm_at curr c) eqn:E6;
    simpl; try (exfalso; lia); lia.
Qed.

Lemma Zsum_map_sub {A : Type} (f g : A -> Z) (l : list A) :
  Zsum (map (fun x => f x - g x) l) = Zsum (map f l) - Zsum (map g l).
Proof. induction l as [|x l IH]; simpl; lia. Qed.

Lemma parsed_ltm_trend (art_ws cust_ws : option worksheet) (l : string) :
  let d := parse_master art_ws cust_ws in
  Dict.get_default l 0 (ltm_trend d) = Zsum (map (ltm_at l) (customers d)).
Proof.
  cbv zeta. unfold parse_master. cbn [ltm_trend customers].
  set (custs := match cust_ws with Some ws => parse_customers ws | None => [] end).
  apply (totals_over_keys Customer.ltm custs
           (sort_by (fun a b => key_le (ltm_sort_key a) (ltm_sort_key b))
                    (all_keys Customer.ltm custs))
           (fun k => sort_by_in _ _ k)).
Qed.

(** X6.  On a ledger of integer amounts the revenue bridge reconciles:
    growth gain plus new gain minus churn loss minus decline loss is the
    sum over all customers of [cur - prev]; on a parsed dataset that is the
    year-over-year change of the LTM total shown in the headline.  (On
    float amounts each side is a binary64 sum of its own order.) *)
Theorem bridge_reconciles :
  (forall (d : dataset) (curr prev : string),
     let r := analyze_cohorts d curr prev in
     growth_gain r + new_gain r - churn_loss r - decline_loss r
     = Zsum (map (fun c => ltm_at curr c - ltm_at prev c) (customers d)))
  /\ (forall (art_ws cust_ws : option worksheet) (curr prev : string),
     let d := parse_master art_ws cust_ws in
     let r := analyze_cohorts d curr prev in
     growth_gain r + new_gain r - churn_loss r - decline_loss r
     = yoy_chg d curr prev).
Proof.
  assert (G : forall (d : dataset) (curr prev : string),
     let r := analyze_cohorts d curr prev in
     growth_gain r + new_gain r - churn_loss r - decline_loss r
     = Zsum (map (fun c => ltm_at curr c - ltm_at prev c) (customers d))).
  { intros d curr prev. cbv zeta.
    destruct (bridge_totals d curr prev) as (B1 & B2 & B3 & B4).
    cbv zeta in *. rewrite B1, B2, B3, B4.
    apply (net_over prev curr (customers d)). }
  split; [exact G|].
  intros art_ws cust_ws curr prev. cbv zeta. rewrite G.
  rewrite Zsum_map_sub. unfold yoy_chg, total_ltm.
  now rewrite !parsed_ltm_trend.
Qed.

(** X7.  For every dataset of integer amounts and every pair of periods,
    the four components of the decomposition record of the pair are the
    aggregates of the cohort classifier run on the same pair: churn and
    decline are the negated churn and decline losses, growth and new are
    the two gains.  (The two functions add in different orders, which
    float amounts would show.) *)
Theorem decomposition_matches_cohorts (d : dataset) (prev_ltm curr_ltm : string) :
  let rec := decomp_record d prev_ltm curr_ltm in
  let r := analyze_cohorts d curr_ltm prev_ltm in
  Decomp.churn rec = - churn_loss r
  /\ Decomp.decline rec = - decline_loss r
  /\ Decomp.growth rec = growth_gain r
  /\ Decomp.new rec = new_gain r.
Proof.
  cbv zeta.
  destruct (decomp_record_fields d prev_ltm curr_ltm) as (_ & _ & D1 & D2 & D3 & D4).
  destruct (bridge_totals d curr_ltm prev_ltm) as (B1 & B2 & B3 & B4).
  cbv zeta in *. rewrite D1, D2, D3, D4, B1, B2, B3, B4. auto.
Qed.

(** X8.  On a parsed dataset of integer amounts every decomposition record
    reconciles, for every number of periods: [total_change] is the sum of
    its churn, decline, growth and new components. *)
Theorem decomposition_reconciles (art_ws cust_ws : option worksheet)
        (num_periods : Z) (rec : Decomp.t) :
  In rec (decomposition
            (analyze_ltm_decomposition (parse_master art_ws cust_ws) num_periods)) ->
  Decomp.total_change rec
  = Decomp.churn rec + Decomp.decline rec + Decomp.growth rec + Decomp.new rec.
Proof.
  set (d := parse_master art_ws cust_ws).
  unfold analyze_ltm_decomposition.
  destruct (List.length (sorted_ltms d) <? 2)%nat; [intros []|].
  cbn [decomposition]. intros H. apply in_map_iff in H.
  destruct H as [[p c] [<- _]]. cbn [fst snd].
  destruct (decomp_record_fields d p c) as (_ & T & D1 & D2 & D3 & D4).
  cbv zeta in *. rewrite T, D1, D2, D3, D4.
  subst d. rewrite !parsed_ltm_trend. cbv zeta.
  rewrite <- (Zsum_map_sub (ltm_at c) (ltm_at p)).
  rewrite <- (net_over p c (customers (parse_master art_ws cust_ws))).
  unfold customers_where. cbv zeta. lia.
Qed.

(** Witness of X8: the last record of the thirteen-period ledger. *)
Lemma decomposition_reconciles_thirteen :
  exists rec,
    In rec (decomposition (analyze_ltm_decomposition thirteen_ltm_data 12))
    /\ Decomp.period rec = "LTM 25-nov"
    /\ Decomp.total_change rec = -50
    /\ Decomp.churn rec = -60 /\ Decomp.growth rec = 10
    /\ Decomp.total_change rec
       = Decomp.churn rec + Decomp.decline rec + Decomp.growth rec + Decomp.new rec.
Proof.
  exists (decomp_record thirteen_ltm_data "LTM 25-okt" "LTM 25-nov").
  assert (H : In (decomp_record thirteen_ltm_data "LTM 25-okt" "LTM 25-nov")
                 (decomposition (analyze_ltm_decomposition thirteen_ltm_data 12))).
  { vm_compute. do 10 right. left. reflexivity. }
  split; [exact H|]. split; [reflexivity|].
  split; [vm_compute; reflexivity|]. split; [vm_compute; reflexivity|].
  split; [vm_compute; reflexivity|].
  exact (decomposition_reconciles None (Some thirteen_ltm_sheet) 12 _ H).
Defined.

(** ** Cohort lists: order, timeline and last month *)

Lemma strongly_sorted_impl {A : Type} (R R' : A -> A -> Prop) (l : list A) :
  (forall x y, R x y -> R' x y) -> StronglySorted R l -> StronglySorted R' l.
Proof.
  intros H. induction 1 as [|x l Hs IH Hf]; constructor; [exact IH|].
  eapply Forall_impl; [|exact Hf]. intros y. apply H.
Qed.

Lemma sort_by_key_desc {A : Type} (key : A -> Z) (l : list A) :
  StronglySorted (fun x y => key y <= key x)
                 (sort_by (fun x y => key y <=? key x) l).
Proof.
  apply (strongly_sorted_impl (fun x y => (key y <=? key x) = true)).
  - intros x y H. now apply Z.leb_le.
  - apply sort_by_strongly_sorted.
    + intros x y. destruct (key y <=? key x) eqn:E; [now left|].
      right. apply Z.leb_le. apply Z.leb_gt in E. lia.
    + intros x y z H1 H2. apply Z.leb_le in H1, H2. apply Z.leb_le. lia.
Qed.

Lemma sort_by_key_asc {A : Type} (key : A -> Z) (l : list A) :
  StronglySorted (fun x y => key x <= key y)
                 (sort_by (fun x y => key x <=? key y) l).
Proof.
  apply (strongly_sorted_impl (fun x y => (key x <=? key y) = true)).
  - intros x y H. now apply Z.leb_le.
  - apply sort_by_strongly_sorted.
    + intros x y. destruct (key x <=? key y) eqn:E; [now left|].
      right. apply Z.leb_le. apply Z.leb_gt in E. lia.
    + intros x y z H1 H2. apply Z.leb_le in H1, H2. apply Z.leb_le. lia.
Qed.

(** X9.  The cohort lists are returned in their display order: churned by
    previous value, largest first; declining by change, most negative
    first; growing by change, largest first; new by current value, largest
    first. *)
Theorem cohort_lists_ordered (d : dataset) (curr prev : string) :
  let r := lists (analyze_cohorts d curr prev) in
  StronglySorted (fun x y => Churned.previous y <= Churned.previous x) (churned r)
  /\ StronglySorted (fun x y => Moved.change x <= Moved.change y) (declining r)
  /\ StronglySorted (fun x y => Moved.change y <= Moved.change x) (growing r)
  /\ StronglySorted (fun x y => New.current y <= New.current x) (new r).
Proof.
  cbv zeta. unfold analyze_cohorts, sort_cohorts. cbn [lists churned declining growing new].
  repeat split.
  - apply (sort_by_key_desc Churned.previous).
  - apply (sort_by_key_asc Moved.change).
  - apply (sort_by_key_desc Moved.change).
  - apply (sort_by_key_desc New.current).
Qed.

Lemma set_measure {V : Type} (f : V -> Z) (k : string) (v : V) (d : Dict.t V) :
  Zsum (map f (Dict.values (Dict.set k v d)))
  = Zsum (map f (Dict.values d))
    - match Dict.get k d with Some old => f old | None => 0 end
    + f v.
Proof.
  unfold Dict.values, Zsum. induction d as [|[k' v'] d IH]; simpl.
  - lia.
  - destruct (String.eqb k k'); simpl; [lia|]. rewrite IH. lia.
Qed.

Lemma timeline_step_sums (tl : Dict.t bucket) (c : Churned.t) :
  Zsum (map count (buckets (timeline_step tl c))) = Zsum (map count (buckets tl)) + 1
  /\ Zsum (map total (buckets (timeline_step tl c)))
     = Zsum (map total (buckets tl)) + Churned.previous c.
Proof.
  unfold timeline_step, buckets.
  set (m := match Churned.last_month c with
            | Some m => if String.eqb m "" then "Unknown" else m
            | None => "Unknown"
            end).
  rewrite !set_measure. unfold Dict.get_default.
  destruct (Dict.get m tl); simpl; lia.
Qed.

Lemma timeline_step_keys (tl : Dict.t bucket) (c : Churned.t) (k : string) :
  In k (Dict.keys (timeline_step tl c)) ->
  In k (Dict.keys tl) \/ k = "Unknown" \/ Churned.last_month c = Some k.
Proof.
  unfold timeline_step. intros H. apply keys_set_in in H.
  destruct H as [H| ->]; [now left | right].
  destruct (Churned.last_month c) as [m|]; [|now left].
  destruct (String.eqb m ""); [now left | now right].
Qed.

(** X10.  The churn timeline accounts for every churned customer once: the
    bucket counts add up to the number of churned customers, on a ledger
    of integer amounts the bucket totals add up to the churn loss, and
    every bucket is labelled ["Unknown"] or with the last month of a
    churned customer. *)
Theorem churn_timeline_accounts (d : dataset) (curr prev : string) :
  let r := analyze_cohorts d curr prev in
  Zsum (map count (buckets (churn_timeline r)))
  = Z.of_nat (List.length (churned (lists r)))
  /\ Zsum (map total (buckets (churn_timeline r))) = churn_loss r
  /\ (forall k, Dict.mem k (churn_timeline r) = true ->
        k = "Unknown"
        \/ exists c, In c (churned (lists r)) /\ Churned.last_month c = Some k).
Proof.
  cbv zeta. unfold churn_loss. rewrite py_sum_Zsum.
  unfold analyze_cohorts. cbn [lists churn_timeline].
  generalize (churned (sort_cohorts (classify_all d curr prev))) as cs.
  intros cs.
  assert (G : forall tl,
    let res := fold_left timeline_step cs tl in
    Zsum (map count (buckets res))
    = Zsum (map count (buckets tl)) + Z.of_nat (List.length cs)
    /\ Zsum (map total (buckets res))
       = Zsum (map total (buckets tl)) + Zsum (map Churned.previous cs)
    /\ (forall k, In k (Dict.keys res) ->
          In k (Dict.keys tl) \/ k = "Unknown"
          \/ exists c, In c cs /\ Churned.last_month c = Some k)).
  { induction cs as [|c cs IH]; intros tl; cbv zeta.
    - simpl. split; [lia|]. split; [lia|]. auto.
    - cbn [fold_left]. destruct (IH (timeline_step tl c)) as (I1 & I2 & I3).
      destruct (timeline_step_sums tl c) as (S1 & S2).
      rewrite I1, I2, S1, S2. unfold Zsum. cbn [List.length map fold_right].
      split; [lia|]. split; [lia|].
      intros k Hk. destruct (I3 k Hk) as [H|[H|[c' [H1 H2]]]].
      + apply timeline_step_keys in H. destruct H as [H|[H|H]]; auto.
        right; right. exists c. split; [now left | exact H].
      + auto.
      + right; right. exists c'. split; [now right | exact H2]. }
  destruct (G Dict.empty) as (G1 & G2 & G3). cbv zeta in *.
  simpl in G1, G2. split; [exact G1|]. split; [exact G2|].
  intros k M. apply mem_in_keys in M. destruct (G3 k M) as [[]|H]. exact H.
Qed.

Lemma string_leb_trans (a b c : string) :
  String.leb a b = true -> String.leb b c = true -> String.leb a c = true.
Proof.
  unfold String.leb. revert b c.
  induction a as [|x a IH]; intros [|y b] [|z c]; simpl;
    try (intros; reflexivity); try (intros; discriminate).
  unfold Ascii.compare.
  destruct (N.compare_spec (N_of_ascii x) (N_of_ascii y)) as [E1|E1|E1];
    destruct (N.compare_spec (N_of_ascii y) (N_of_ascii z)) as [E2|E2|E2];
    destruct (N.compare_spec (N_of_ascii x) (N_of_ascii z)) as [E3|E3|E3];
    try (intros; reflexivity); try (intros; discriminate);
    try (exfalso; lia).
  apply IH.
Qed.

Lemma strongly_sorted_app {A : Type} (R : A -> A -> Prop) (l1 l2 : list A) :
  StronglySorted R l1 -> StronglySorted R l2 ->
  (forall a b, In a l1 -> In b l2 -> R a b) ->
  StronglySorted R (l1 ++ l2).
Proof.
  intros H1 H2 H. induction H1 as [|x l1 Hs IH Hf]; simpl; [exact H2|].
  constructor.
  - apply IH. intros a b Ha Hb. apply H; [now right | exact Hb].
  - apply Forall_app. split; [exact Hf|].
    apply Forall_forall. intros b Hb. apply H; [now left | exact Hb].
Qed.

Lemma strongly_sorted_rev {A : Type} (R : A -> A -> Prop) (l : list A) :
  StronglySorted R l -> StronglySorted (fun a b => R b a) (rev l).
Proof.
  induction 1 as [|x l Hs IH Hf]; simpl; [constructor|].
  apply strongly_sorted_app; [exact IH | repeat constructor|].
  intros a b Ha [<-|[]]. apply in_rev in Ha.
  rewrite Forall_forall in Hf. now apply Hf.
Qed.

Lemma strongly_sorted_split {A : Type} (R : A -> A -> Prop) (l1 l2 : list A) :
  StronglySorted R (l1 ++ l2) -> forall a b, In a l1 -> In b l2 -> R a b.
Proof.
  induction l1 as [|x l1 IH]; simpl; intros H a b Ha Hb; [contradiction|].
  inversion H as [|? ? Hs Hf]; subst. destruct Ha as [<-|Ha].
  - rewrite Forall_forall in Hf. apply Hf, in_or_app. now right.
  - now apply IH.
Qed.

Lemma find_first {A : Type} (f : A -> bool) (l : list A) (x : A) :
  find f l = Some x ->
  exists l1 l2, l = l1 ++ x :: l2 /\ f x = true /\ forall y, In y l1 -> f y = false.
Proof.
  induction l as [|a l IH]; simpl; [discriminate|].
  destruct (f a) eqn:E.
  - intros H. inversion H. subst. exists [], l. simpl.
    split; [reflexivity|]. split; [exact E|]. intros y [].
  - intros H. destruct (IH H) as (l1 & l2 & -> & Fx & Hl).
    exists (a :: l1), l2. split; [reflexivity|]. split; [exact Fx|].
    intros y [<-|Hy]; auto.
Qed.

(** X11.  The last month recorded for a churned customer is a month of the
    customer's monthly series with a positive value, and no month with a
    positive value comes after it; it is missing exactly when no month of
    the series has a positive value. *)
Theorem last_month_is_latest (c : Customer.t) :
  (forall m, find_last_month c = Some m ->
     Dict.mem m (Customer.monthly c) = true
     /\ 0 < monthly_at m c
     /\ forall m', Dict.mem m' (Customer.monthly c) = true ->
                   0 < monthly_at m' c -> String.leb m' m = true)
  /\ (find_last_month c = None
      <-> forall m, Dict.mem m (Customer.monthly c) = true -> monthly_at m c <= 0).
Proof.
  unfold find_last_month, monthly_at.
  set (keys := Dict.keys (Customer.monthly c)).
  set (pos := fun m => 0 <? Dict.get_default m 0 (Customer.monthly c)).
  assert (S : StronglySorted (fun a b => String.leb b a = true)
                             (rev (sort_by String.leb keys))).
  { apply strongly_sorted_rev.
    apply (sort_by_strongly_sorted String.leb String.leb_total string_leb_trans). }
  assert (I : forall m, In m (rev (sort_by String.leb keys))
                        <-> Dict.mem m (Customer.monthly c) = true).
  { intros m. rewrite <- in_rev, sort_by_in, mem_in_keys. reflexivity. }
  split.
  - intros m H. destruct (find_first _ _ _ H) as (l1 & l2 & E & Fm & Hl).
    split; [apply I; rewrite E; apply in_or_app; right; now left|].
    split; [now apply Z.ltb_lt|].
    intros m' M' P'. apply I in M'. rewrite E in M', S.
    apply in_app_or in M'. destruct M' as [M'|[<-|M']].
    + apply Hl in M'. unfold pos in M'. apply Z.ltb_ge in M'. lia.
    + destruct (String.leb_total m m); assumption.
    + refine (strongly_sorted_split (fun a b => String.leb b a = true)
                (l1 ++ [m]) l2 _ m m' _ M').
      * now rewrite <- app_assoc.
      * apply in_or_app. right. now left.
  - split.
    + intros H m M. apply I in M.
      pose proof (find_none _ _ H m M) as F. unfold pos in F.
      now apply Z.ltb_ge.
    + intros H. destruct (find pos _) as [m|] eqn:F; [|reflexivity].
      apply find_some in F. destruct F as [F1 F2]. apply I in F1.
      apply H in F1. unfold pos in F2. apply Z.ltb_lt in F2. lia.
Qed.

(** Witness of X11: a customer invoiced in two months, the later one
    credited. *)
Lemma last_month_is_latest_example :
  let c := {| Customer.kund := "Cobalt AB";
              Customer.monthly := [("2025-03", 40); ("2024-11", 900); ("2025-06", -15)];
              Customer.fy := []; Customer.ltm := [] |} in
  find_last_month c = Some "2025-03"
  /\ String.leb "2024-11" "2025-03" = true.
Proof.
  cbv zeta.
  assert (F : find_last_month
                {| Customer.kund := "Cobalt AB";
                   Customer.monthly := [("2025-03", 40); ("2024-11", 900);
                                        ("2025-06", -15)];
                   Customer.fy := []; Customer.ltm := [] |} = Some "2025-03")
    by reflexivity.
  split; [exact F|].
  apply (proj2 (proj2 (proj1 (last_month_is_latest _) _ F))); reflexivity.
Defined.

(** ** Top-20 tables and concentration *)

Lemma slice_to_20 {A : Type} (l : list A) : slice_to 20 l = firstn 20 l.
Proof.
  unfold slice_to. change (20 <? 0) with false. cbv iota.
  destruct (Nat.le_gt_cases 20 (List.length l)) as [H|H].
  - f_equal. lia.
  - rewrite (firstn_all2 (n := 20)) by lia. apply firstn_all2. lia.
Qed.

Lemma strongly_sorted_firstn {A : Type} (R : A -> A -> Prop) (n : nat) (l : list A) :
  StronglySorted R l -> StronglySorted R (firstn n l).
Proof.
  intros H. revert n. induction H as [|x l Hs IH Hf]; intros [|n]; simpl;
    try constructor.
  - apply IH.
  - rewrite Forall_forall in *. intros y Hy. apply Hf.
    rewrite <- (firstn_skipn n l). apply in_or_app. now left.
Qed.

(** The first [n] elements of a sorted list are its top [n]. *)
Lemma top_n_complete {A : Type} (R : A -> A -> Prop) (n : nat) (l : list A) (x : A) :
  StronglySorted R l -> In x l ->
  In x (firstn n l)
  \/ (List.length (firstn n l) = n /\ forall y, In y (firstn n l) -> R y x).
Proof.
  intros S Hx. rewrite <- (firstn_skipn n l) in Hx, S.
  apply in_app_or in Hx. destruct Hx as [Hx|Hx]; [now left | right].
  split.
  - rewrite length_firstn. destruct (Nat.le_gt_cases n (List.length l)); [lia|].
    rewrite skipn_all2 in Hx by lia. contradiction.
  - intros y Hy. eapply strongly_sorted_split; eassumption.
Qed.

Lemma top_cust_loop (curr prev : string) (cs : list Customer.t) (acc : list TopCust.t) :
  fold_left (top_cust_step curr prev) cs acc
  = acc ++ map (top_cust_rec curr prev)
               (filter (fun c => 0 <? ltm_at curr c) cs).
Proof.
  revert acc. induction cs as [|c cs IH]; intros acc; simpl.
  - now rewrite app_nil_r.
  - rewrite IH. unfold top_cust_step. fold (ltm_at curr c). fold (ltm_at prev c).
    destruct (0 <? ltm_at curr c); [|reflexivity].
    rewrite <- app_assoc. reflexivity.
Qed.

(** X12.  The top-20 tables hold at most twenty records, every one has a
    positive value and is the record of a customer (article) of the
    dataset, the records are in descending order of value, and nothing
    larger is left out: a customer (article) with a positive value is in
    the table, or the table is full and all its values are at least as
    large. *)
Theorem top20_tables (d : dataset) (curr prev : string) :
  let tc := get_top20_cust d curr prev in
  let ta := get_top20_art d curr in
  ((List.length tc <= 20)%nat
   /\ (forall r, In r tc ->
         0 < TopCust.current r
         /\ exists c, In c (customers d) /\ r = top_cust_rec curr prev c)
   /\ StronglySorted (fun x y => TopCust.current y <= TopCust.current x) tc
   /\ (forall c, In c (customers d) -> 0 < ltm_at curr c ->
         In (top_cust_rec curr prev c) tc
         \/ (List.length tc = 20%nat
             /\ forall r, In r tc -> ltm_at curr c <= TopCust.current r)))
  /\ ((List.length ta <= 20)%nat
      /\ (forall r, In r ta ->
            0 < TopArt.value r
            /\ exists a, In a (articles d) /\ r = top_art_rec curr a)
      /\ StronglySorted (fun x y => TopArt.value y <= TopArt.value x) ta
      /\ (forall a, In a (articles d) ->
            0 < Dict.get_default curr 0 (Article.ltm a) ->
            In (top_art_rec curr a) ta
            \/ (List.length ta = 20%nat
                /\ forall r, In r ta ->
                     Dict.get_default curr 0 (Article.ltm a) <= TopArt.value r))).
Proof.
  cbv zeta. split.
  - unfold get_top20_cust. rewrite slice_to_20, top_cust_loop. cbn [app].
    set (l := map (top_cust_rec curr prev)
                  (filter (fun c => 0 <? ltm_at curr c) (customers d))).
    set (sl := sort_by (fun x y => TopCust.current y <=? TopCust.current x) l).
    assert (S : StronglySorted (fun x y => TopCust.current y <= TopCust.current x) sl)
      by apply (sort_by_key_desc TopCust.current).
    assert (M : forall r, In r sl <->
                  exists c, (In c (customers d) /\ 0 < ltm_at curr c)
                            /\ r = top_cust_rec curr prev c).
    { intros r. unfold sl. rewrite sort_by_in. unfold l. rewrite in_map_iff.
      split; intros [c [H1 H2]]; exists c.
      - apply filter_In in H2. destruct H2 as [H2 H3]. apply Z.ltb_lt in H3. auto.
      - split; [now symmetry|]. apply filter_In. destruct H1 as [H1 H3].
        split; [exact H1 | now apply Z.ltb_lt]. }
    split; [apply firstn_le_length|]. split; [|split].
    + intros r Hr.
      assert (Hs : In r sl)
        by (rewrite <- (firstn_skipn 20 sl); apply in_or_app; now left).
      apply M in Hs. destruct Hs as [c [[H1 H2] ->]]. split; [exact H2|].
      exists c. auto.
    + now apply strongly_sorted_firstn.
    + intros c Hc Hp.
      assert (Hs : In (top_cust_rec curr prev c) sl)
        by (apply M; exists c; auto).
      destruct (top_n_complete _ 20 sl _ S Hs) as [H|[H1 H2]]; [now left|].
      right. split; [exact H1|]. intros r Hr. apply (H2 r Hr).
  - unfold get_top20_art. rewrite slice_to_20.
    change (fun a : Article.t =>
              {| TopArt.artikelnr := Article.artikelnr a;
                 TopArt.artikelnamn := Article.artikelnamn a;
                 TopArt.value := Dict.get_default curr 0 (Article.ltm a) |})
      with (top_art_rec curr).
    set (l := map (top_art_rec curr)
                  (filter (fun a => 0 <? Dict.get_default curr 0 (Article.ltm a))
                          (articles d))).
    set (sl := sort_by (fun x y => TopArt.value y <=? TopArt.value x) l).
    assert (S : StronglySorted (fun x y => TopArt.value y <= TopArt.value x) sl)
      by apply (sort_by_key_desc TopArt.value).
    assert (M : forall r, In r sl <->
                  exists a, (In a (articles d)
                             /\ 0 < Dict.get_default curr 0 (Article.ltm a))
                            /\ r = top_art_rec curr a).
    { intros r. unfold sl. rewrite sort_by_in. unfold l. rewrite in_map_iff.
      split; intros [a [H1 H2]]; exists a.
      - apply filter_In in H2. destruct H2 as [H2 H3]. apply Z.ltb_lt in H3. auto.
      - split; [now symmetry|]. apply filter_In. destruct H1 as [H1 H3].
        split; [exact H1 | now apply Z.ltb_lt]. }
    split; [apply firstn_le_length|]. split; [|split].
    + intros r Hr.
      assert (Hs : In r sl)
        by (rewrite <- (firstn_skipn 20 sl); apply in_or_app; now left).
      apply M in Hs. destruct Hs as [a [[H1 H2] ->]]. split; [exact H2|].
      exists a. auto.
    + now apply strongly_sorted_firstn.
    + intros a Ha Hp.
      assert (Hs : In (top_art_rec curr a) sl)
        by (apply M; exists a; auto).
      destruct (top_n_complete _ 20 sl _ S Hs) as [H|[H1 H2]]; [now left|].
      right. split; [exact H1|]. intros r Hr. apply (H2 r Hr).
Qed.

Lemma Zsum_firstn_le (n : nat) (l : list Z) :
  (forall x, In x l -> 0 <= x) -> 0 <= Zsum (firstn n l) <= Zsum l.
Proof.
  revert n. induction l as [|x l IH]; intros n H.
  - destruct n; simpl; lia.
  - destruct n; simpl.
    + assert (0 <= Zsum l) by (apply (IH 0%nat); intros; apply H; now right).
      assert (0 <= x) by (apply H; now left). lia.
    + assert (0 <= Zsum (firstn n l) <= Zsum l)
        by (apply IH; intros; apply H; now right).
      assert (0 <= x) by (apply H; now left). lia.
Qed.

Lemma Zsum_positive_part {A : Type} (f : A -> Z) (l : list A) :
  (forall x, In x l -> 0 <= f x) ->
  Zsum (map f (filter (fun x => 0 <? f x) l)) = Zsum (map f l).
Proof.
  induction l as [|x l IH]; intros H; simpl; [reflexivity|].
  assert (0 <= f x) by (apply H; now left).
  rewrite <- IH by (intros; apply H; now right).
  destruct (0 <? f x) eqn:E; simpl; [reflexivity|].
  apply Z.ltb_ge in E. lia.
Qed.

(** X13.  The two sums behind the concentration figure.  On a parsed
    ledger of integer amounts in which no customer has a negative LTM value
    at the current period, the current values of the twenty largest
    customers add up to at least 0 and at most the LTM total; when at most
    twenty customers are active the two sums are equal. *)
Theorem concentration_bounds (art_ws cust_ws : option worksheet) (curr prev : string) :
  let d := parse_master art_ws cust_ws in
  (forall c, In c (customers d) -> 0 <= ltm_at curr c) ->
  0 <= top20_sum d curr prev <= total_ltm d curr
  /\ ((active_customers d curr <= 20)%nat -> top20_sum d curr prev = total_ltm d curr).
Proof.
  cbv zeta. intros NN. set (d := parse_master art_ws cust_ws) in *.
  set (pos := filter (fun c => 0 <? ltm_at curr c) (customers d)).
  set (sl := sort_by (fun x y => TopCust.current y <=? TopCust.current x)
                     (map (top_cust_rec curr prev) pos)).
  assert (T : top20_sum d curr prev = Zsum (firstn 20 (map TopCust.current sl))).
  { unfold top20_sum, get_top20_cust.
    rewrite py_sum_Zsum, slice_to_20, top_cust_loop. cbn [app].
    fold pos. fold sl. now rewrite firstn_map. }
  assert (All : Zsum (map TopCust.current sl) = total_ltm d curr).
  { unfold sl.
    rewrite (Zsum_perm _ _ (Permutation_map TopCust.current (sort_by_perm _ _))).
    rewrite map_map. cbn [TopCust.current top_cust_rec]. unfold pos.
    rewrite (Zsum_positive_part (ltm_at curr)) by exact NN.
    unfold total_ltm, d. now rewrite parsed_ltm_trend. }
  assert (P : forall x, In x (map TopCust.current sl) -> 0 <= x).
  { intros x Hx. apply in_map_iff in Hx. destruct Hx as [r [<- Hr]].
    unfold sl in Hr. apply sort_by_in in Hr. apply in_map_iff in Hr.
    destruct Hr as [c [<- Hc]]. apply filter_In in Hc. cbn. apply NN, Hc. }
  pose proof (Zsum_firstn_le 20 _ P) as B. rewrite <- T, All in B.
  split; [exact B|].
  intros Act. rewrite T, <- All. f_equal. apply firstn_all2.
  rewrite length_map. unfold sl. rewrite sort_by_length, length_map.
  exact Act.
Qed.

(** Witness of X13: the five-period ledger, whose single customer makes all
    of the revenue. *)
Lemma concentration_bounds_declining :
  (forall c, In c (customers (parse_master None (Some declining_sheet))) ->
             0 <= ltm_at "LTM 25-nov" c)
  /\ top20_sum declining_data "LTM 25-nov" "LTM 25-jul" = 55000
  /\ top20_sum declining_data "LTM 25-nov" "LTM 25-jul"
     <= total_ltm declining_data "LTM 25-nov".
Proof.
  assert (H : forall c,
             In c (customers (parse_master None (Some declining_sheet))) ->
             0 <= ltm_at "LTM 25-nov" c).
  { intros c Hc. vm_compute in Hc. destruct Hc as [<-|[]]. vm_compute. discriminate. }
  split; [exact H|]. split; [vm_compute; reflexivity|].
  exact (proj2 (proj1
           (concentration_bounds None (Some declining_sheet)
                                 "LTM 25-nov" "LTM 25-jul" H))).
Defined.

(** ** Order of binary64 percentages *)














(** ** Sorting with an order that is total on the elements sorted *)

Section SortOn.
Context {A : Type} (le : A -> A -> bool) (P : A -> Prop).
Hypothesis le_total : forall x y, P x -> P y -> le x y = true \/ le y x = true.
Hypothesis le_trans :
  forall x y z, P x -> P y -> P z ->
                le x y = true -> le y z = true -> le x z = true.




End SortOn.

(** ** Trajectory records *)
















(** ** Windows that are empty or reach past the list *)

Lemma recent_window_nonpositive (l : list string) (n : Z) :
  n <= 0 -> recent_window l n = skipn (Z.to_nat (- n)) l.
Proof.
  intros H. unfold recent_window, slice_from.
  destruct (n <=? Z.of_nat (List.length l)) eqn:E; [|apply Z.leb_gt in E; lia].
  destruct (- n <? 0) eqn:F; [apply Z.ltb_lt in F; lia|].
  destruct (Z.le_gt_cases (- n) (Z.of_nat (List.length l))) as [L|G].
  - f_equal. lia.
  - rewrite !skipn_all2 by lia. reflexivity.
Qed.



(** X16.  The decomposition engine outside its usual range.  With fewer
    than two LTM keys it returns no period and no record.  With
    [num_periods <= 0] the slice [all_ltms[-num_periods:]] drops the first
    [-num_periods] keys instead of keeping the last ones: the records are
    those of the consecutive pairs of what is left, so [num_periods = 0]
    gives every transition of the trend, one record less than there are
    keys. *)
Theorem decomposition_edge_windows (d : dataset) (num_periods : Z) :
  let all_ltms := sorted_ltms d in
  let r := analyze_ltm_decomposition d num_periods in
  let rest := skipn (Z.to_nat (- num_periods)) all_ltms in
  ((List.length all_ltms < 2)%nat -> periods r = [] /\ decomposition r = [])
  /\ ((2 <= List.length all_ltms)%nat -> num_periods <= 0 ->
      decomposition r
      = map (fun pc => decomp_record d (fst pc) (snd pc)) (consecutive_pairs rest)
      /\ periods r = tl rest
      /\ List.length (decomposition r)
         = (List.length all_ltms - Z.to_nat (- num_periods) - 1)%nat)
  /\ ((2 <= List.length all_ltms)%nat -> num_periods = 0 ->
      periods r = tl all_ltms
      /\ List.length (decomposition r) = (List.length all_ltms - 1)%nat).
Proof.
  cbv zeta. unfold analyze_ltm_decomposition.
  assert (T : forall l : list string, slice_from 1 l = tl l).
  { intros l. unfold slice_from. change (1 <? 0) with false. cbv iota.
    destruct l as [|x t]; [reflexivity|]. simpl List.length.
    replace (Z.to_nat (Z.min 1 (Z.of_nat (S (List.length t))))) with 1%nat by lia.
    reflexivity. }
  split; [|split].
  - intros H. apply Nat.ltb_lt in H. rewrite H. split; reflexivity.
  - intros H Np.
    destruct (List.length (sorted_ltms d) <? 2)%nat eqn:E;
      [apply Nat.ltb_lt in E; lia|].
    unfold periods, decomposition.
    rewrite (recent_window_nonpositive _ _ Np), T.
    split; [reflexivity|]. split; [reflexivity|].
    rewrite length_map, consecutive_pairs_length, length_skipn. reflexivity.
  - intros H ->.
    destruct (List.length (sorted_ltms d) <? 2)%nat eqn:E;
      [apply Nat.ltb_lt in E; lia|].
    unfold periods, decomposition.
    rewrite (recent_window_nonpositive _ 0) by lia. rewrite T.
    change (Z.to_nat (- 0)) with 0%nat. cbn [skipn].
    split; [reflexivity|].
    now rewrite length_map, consecutive_pairs_length.
Qed.

(** The thirteen-key ledger read with [num_periods = 0] and [-12]: twelve
    records, and one. *)
Example decomposition_edge_thirteen :
  List.length (decomposition (analyze_ltm_decomposition thirteen_ltm_data 0)) = 12%nat
  /\ List.length (decomposition (analyze_ltm_decomposition thirteen_ltm_data (-11))) = 1%nat
  /\ analyze_ltm_trajectories thirteen_ltm_data (-13) = None.
Proof. repeat split; vm_compute; reflexivity. Qed.

(** ** Industry classifier *)

Lemma drop_while_all (p : ascii -> bool) (s : string) :
  Py.drop_while p s = "" <-> Py.all_chars p s = true.
Proof.
  induction s as [|c s IH]; simpl; [tauto|].
  destruct (p c); simpl; [exact IH | split; discriminate].
Qed.

Lemma drop_while_head (p : ascii -> bool) (s t : string) (c : ascii) :
  Py.drop_while p s = String c t -> p c = false.
Proof.
  induction s as [|a s IH]; simpl; [discriminate|].
  destruct (p a) eqn:E; [exact IH|].
  intros H. inversion H. subst. exact E.
Qed.

Lemma drop_while_snoc (p : ascii -> bool) (u : string) (c : ascii) :
  p c = false -> Py.drop_while p (u ++ String c "") <> "".
Proof.
  intros H. induction u as [|a u IH]; simpl; [rewrite H; discriminate|].
  destruct (p a); [exact IH | discriminate].
Qed.

Lemma rev_string_empty (s : string) : Py.rev_string "" s = "" -> s = "".
Proof.
  destruct s as [|a s]; [reflexivity|]. simpl. rewrite rev_string_acc.
  destruct (Py.rev_string "" s); discriminate.
Qed.

(** [s.strip() == ''] exactly when [s] is white space throughout. *)
Lemma strip_blank (s : string) :
  Py.strip s = "" <-> Py.all_chars Py.is_space s = true.
Proof.
  rewrite <- drop_while_all. unfold Py.strip, Py.drop_while_end.
  destruct (Py.drop_while Py.is_space s) as [|c t] eqn:E; [simpl; tauto|].
  split; [|discriminate]. intros H. apply rev_string_empty in H.
  exfalso. revert H. simpl. rewrite rev_string_acc.
  apply drop_while_snoc. eapply drop_while_head; eassumption.
Qed.

Lemma is_space_lower (c : ascii) :
  Py.is_space (Py.lower_char c) = Py.is_space c.
Proof.
  apply Bool.eqb_prop.
  exact (forall_ascii
           (fun c => Bool.eqb (Py.is_space (Py.lower_char c)) (Py.is_space c))
           eq_refl c).
Qed.

Lemma lower_char_idem (c : ascii) :
  Py.lower_char (Py.lower_char c) = Py.lower_char c.
Proof.
  apply Ascii.eqb_eq.
  exact (forall_ascii
           (fun c => Ascii.eqb (Py.lower_char (Py.lower_char c)) (Py.lower_char c))
           eq_refl c).
Qed.

Lemma lower_idem (s : string) : Py.lower (Py.lower s) = Py.lower s.
Proof.
  unfold Py.lower. induction s as [|c s IH]; simpl; [reflexivity|].
  now rewrite lower_char_idem, IH.
Qed.

Lemma all_space_lower (s : string) :
  Py.all_chars Py.is_space (Py.lower s) = Py.all_chars Py.is_space s.
Proof.
  unfold Py.lower. induction s as [|c s IH]; simpl; [reflexivity|].
  now rewrite is_space_lower, IH.
Qed.

Lemma classify_unfold (name : string) :
  classify_customer_industry name
  = if Py.all_chars Py.is_space name then other_general
    else match find (fun entry => matches_any (Py.lower name) (snd entry))
                    industry_keywords with
         | Some entry => fst entry
         | None => other_general
         end.
Proof.
  unfold classify_customer_industry.
  destruct (Py.all_chars Py.is_space name) eqn:A.
  - apply strip_blank in A. rewrite A. simpl. now rewrite Bool.orb_true_r.
  - assert (N1 : String.eqb name "" = false).
    { apply String.eqb_neq. intros ->. discriminate. }
    assert (N2 : String.eqb (Py.strip name) "" = false).
    { apply String.eqb_neq. intros E. apply strip_blank in E. congruence. }
    now rewrite N1, N2.
Qed.

Lemma find_app_skip {A : Type} (f : A -> bool) (pre l : list A) :
  (forall x, In x pre -> f x = false) -> find f (pre ++ l) = find f l.
Proof.
  induction pre as [|x pre IH]; intros H; simpl; [reflexivity|].
  rewrite (H x) by now left. apply IH. intros y Hy. apply H. now right.
Qed.

(** X17.  The classifier gives the first industry of the table, in the
    order the table is written, that has a keyword occurring in the
    lower-cased name: a name that is not blank, matches a keyword of an
    industry and matches no keyword of the industries listed before it is
    classified as that industry, whatever later industries it matches. *)
Theorem industry_first_match (name : string)
        (pre post : list (string * list string))
        (industry : string) (keywords : list string) :
  industry_keywords = pre ++ (industry, keywords) :: post ->
  Py.strip name <> "" ->
  matches_any (Py.lower name) keywords = true ->
  (forall e, In e pre -> matches_any (Py.lower name) (snd e) = false) ->
  classify_customer_industry name = industry.
Proof.
  intros T B M P. rewrite classify_unfold.
  destruct (Py.all_chars Py.is_space name) eqn:A;
    [apply strip_blank in A; congruence|].
  rewrite T, (find_app_skip _ pre _ P). simpl. now rewrite M.
Qed.

(** Witness of X17: a name with the keyword [abb] of the second industry
    and the keyword [power] of the fifth. *)
Lemma industry_first_match_abb :
  classify_customer_industry "ABB Power Grids" = "Manufacturing/Industrial"
  /\ contains "power" (Py.lower "ABB Power Grids") = true.
Proof.
  split; [|vm_compute; reflexivity].
  apply (industry_first_match "ABB Power Grids"
           (firstn 1 industry_keywords) (skipn 2 industry_keywords)
           "Manufacturing/Industrial"
           (snd (nth 1 industry_keywords ("", [])))).
  - reflexivity.
  - vm_compute. discriminate.
  - vm_compute. reflexivity.
  - intros e He. vm_compute in He. destruct He as [<-|[]].
    vm_compute. reflexivity.
Defined.

(** X18.  The classifier returns ["Other/General"] or an industry of the
    table, and ["Other/General"] exactly for a name that is empty or white
    space throughout or has no keyword of the table in its lower-cased
    form.  No keyword is shadowed: each keyword of the table, taken as a
    name, is classified as its own industry. *)
Theorem industry_classification_range (name : string) :
  In (classify_customer_industry name)
     (other_general :: map fst industry_keywords)
  /\ (classify_customer_industry name = other_general
      <-> Py.strip name = ""
          \/ forall e, In e industry_keywords ->
                       matches_any (Py.lower name) (snd e) = false)
  /\ (forall industry keywords kw,
        In (industry, keywords) industry_keywords -> In kw keywords ->
        classify_customer_industry kw = industry).
Proof.
  assert (K : forall e, In e industry_keywords -> fst e <> other_general).
  { assert (F : forallb (fun e => negb (String.eqb (fst e) other_general))
                        industry_keywords = true) by reflexivity.
    rewrite forallb_forall in F. intros e He E. specialize (F e He).
    rewrite E, String.eqb_refl in F. discriminate. }
  split; [|split].
  - rewrite classify_unfold.
    destruct (Py.all_chars Py.is_space name); [now left|].
    destruct (find _ industry_keywords) as [e|] eqn:F; [|now left].
    right. apply find_some in F. apply in_map, F.
  - rewrite classify_unfold, strip_blank.
    destruct (Py.all_chars Py.is_space name); [split; [now left | reflexivity]|].
    destruct (find _ industry_keywords) as [e|] eqn:F.
    + apply find_some in F. destruct F as [Fi Fm]. split.
      * intros E. exfalso. exact (K e Fi E).
      * intros [X|X]; [discriminate|]. rewrite (X e Fi) in Fm. discriminate.
    + split; [|reflexivity]. intros _. right. intros e He.
      exact (find_none _ _ F e He).
  - assert (F : forallb
                  (fun e => forallb
                     (fun kw => String.eqb (classify_customer_industry kw) (fst e))
                     (snd e))
                  industry_keywords = true) by (vm_compute; reflexivity).
    rewrite forallb_forall in F. intros industry keywords kw He Hk.
    specialize (F _ He). cbn [fst snd] in F. rewrite forallb_forall in F.
    apply String.eqb_eq, F, Hk.
Qed.

(** X19.  The classifier ignores letter case: two names with the same
    lower-cased form get the same industry, and a name and its lower-cased
    form do. *)
Theorem industry_case_insensitive (n1 n2 : string) :
  Py.lower n1 = Py.lower n2 ->
  classify_customer_industry n1 = classify_customer_industry n2
  /\ classify_customer_industry (Py.lower n1) = classify_customer_industry n1.
Proof.
  intros H. rewrite !classify_unfold, lower_idem.
  rewrite <- (all_space_lower n1), <- (all_space_lower n2).
  rewrite H. split; reflexivity.
Qed.

(** Witness of X19: two spellings of one name. *)
Lemma industry_case_insensitive_volvo :
  classify_customer_industry "VOLVO Penta ab" = "Automotive/EV"
  /\ classify_customer_industry "Volvo PENTA AB" = "Automotive/EV".
Proof.
  assert (H : Py.lower "VOLVO Penta ab" = Py.lower "Volvo PENTA AB")
    by reflexivity.
  split; [reflexivity|].
  rewrite <- (proj1 (industry_case_insensitive _ _ H)). reflexivity.
Defined.

(** ** Sheet lookup *)

Lemma lower_index_get (l : list string) (d0 : Dict.t string) (k : string) :
  Dict.get k (fold_left (fun d n => Dict.set (Py.lower n) n d) l d0)
  = match find (fun n => String.eqb (Py.lower n) k) (rev l) with
    | Some n => Some n
    | None => Dict.get k d0
    end.
Proof.
  induction l as [|x l IH] using rev_ind; [reflexivity|].
  rewrite fold_left_app, rev_app_distr. simpl.
  destruct (String.eqb_spec (Py.lower x) k) as [<-|N].
  - apply get_set_same.
  - rewrite get_set_other by congruence. exact IH.
Qed.

Lemma find_is_existsb {A : Type} (f : A -> bool) (l : list A) :
  match find f l with Some _ => true | None => false end = existsb f l.
Proof. induction l as [|x l IH]; simpl; [reflexivity|]. now destruct (f x). Qed.

Lemma existsb_rev {A : Type} (f : A -> bool) (l : list A) :
  existsb f (rev l) = existsb f l.
Proof.
  induction l as [|x l IH]; simpl; [reflexivity|].
  rewrite existsb_app, IH. simpl. rewrite Bool.orb_false_r. apply Bool.orb_comm.
Qed.

Lemma find_pointwise {A : Type} (f g : A -> bool) (l : list A) :
  (forall x, f x = g x) -> find f l = find g l.
Proof.
  intros H. induction l as [|x l IH]; simpl; [reflexivity|].
  now rewrite H, IH.
Qed.

(** X20.  The sheet lookup without its dictionary: the first candidate that
    equals some sheet title up to letter case decides, and the sheet
    returned is the last one with that title up to case; when no candidate
    matches, the only sheet of a one-sheet workbook is returned and
    otherwise nothing.  So a returned sheet is always a sheet of the
    workbook, a candidate that names a sheet up to case always gives a
    sheet, and [None] is returned only by a workbook that has no candidate
    sheet and not exactly one sheet. *)
Theorem find_sheet_resolution (sheetnames names : list string) :
  find_sheet sheetnames names
  = match find (fun name => existsb (sheet_named name) sheetnames) names with
    | Some name => find (sheet_named name) (rev sheetnames)
    | None => match sheetnames with [n] => Some n | _ => None end
    end
  /\ (forall n, find_sheet sheetnames names = Some n ->
        In n sheetnames
        /\ ((exists name, In name names /\ Py.lower n = Py.lower name)
            \/ sheetnames = [n]))
  /\ (forall name n, In name names -> In n sheetnames ->
        Py.lower n = Py.lower name ->
        exists m, find_sheet sheetnames names = Some m)
  /\ (find_sheet sheetnames names = None ->
        List.length sheetnames <> 1%nat
        /\ forall name n, In name names -> In n sheetnames ->
                          Py.lower n <> Py.lower name).
Proof.
  assert (E : find_sheet sheetnames names
              = match find (fun name => existsb (sheet_named name) sheetnames)
                           names with
                | Some name => find (sheet_named name) (rev sheetnames)
                | None => match sheetnames with [n] => Some n | _ => None end
                end).
  { unfold find_sheet. cbv zeta.
    set (D := fold_left (fun d n => Dict.set (Py.lower n) n d) sheetnames Dict.empty).
    assert (G : forall k, Dict.get k D
                          = find (fun n => String.eqb (Py.lower n) k) (rev sheetnames)).
    { intros k. unfold D. rewrite lower_index_get.
      now destruct (find _ (rev sheetnames)). }
    rewrite (find_pointwise _ (fun name => existsb (sheet_named name) sheetnames)).
    - destruct (find _ names) as [name|]; [|reflexivity]. apply G.
    - intros name. unfold Dict.mem. rewrite G.
      rewrite <- (existsb_rev _ sheetnames). apply find_is_existsb. }
  assert (M : forall name n, In name names -> In n sheetnames ->
                Py.lower n = Py.lower name ->
                exists m, find_sheet sheetnames names = Some m).
  { intros name n Hn Hs L. rewrite E.
    destruct (find _ names) as [name'|] eqn:F.
    - apply find_some in F. destruct F as [_ F].
      apply existsb_exists in F. destruct F as [n' [Hn' Fn']].
      destruct (find (sheet_named name') (rev sheetnames)) as [m|] eqn:F2;
        [eauto|].
      pose proof (find_none _ _ F2 n' (proj1 (in_rev _ _) Hn')) as X.
      cbv beta in X. congruence.
    - pose proof (find_none _ _ F name Hn) as X. cbv beta in X.
      assert (existsb (sheet_named name) sheetnames = true) as Y.
      { apply existsb_exists. exists n. split; [exact Hs|].
        unfold sheet_named. rewrite L. apply String.eqb_refl. }
      congruence. }
  split; [exact E|]. split; [|split; [exact M|]].
  - intros n. rewrite E.
    destruct (find _ names) as [name|] eqn:F.
    + intros F2. apply find_some in F, F2. destruct F as [F _], F2 as [I L].
      split; [now apply in_rev|]. left. exists name. split; [exact F|].
      now apply String.eqb_eq.
    + destruct sheetnames as [|a [|b t]]; try discriminate.
      intros [= <-]. split; [now left | now right].
  - intros N. split.
    + rewrite E in N. destruct (find _ names) as [name|] eqn:F.
      * exfalso. apply find_some in F. destruct F as [F1 F2].
        apply existsb_exists in F2. destruct F2 as [n' [Hn' Fn']].
        pose proof (find_none _ _ N n' (proj1 (in_rev _ _) Hn')) as X.
        cbv beta in X. congruence.
      * destruct sheetnames as [|a [|b t]]; simpl; try discriminate; lia.
    + intros name n Hn Hs L. destruct (M name n Hn Hs L) as [m Em]. congruence.
Qed.

(** A workbook with two sheets whose titles differ in case only: the
    dictionary keeps the later one. *)
Example find_sheet_last_wins :
  find_sheet ["Customers"; "Articles"; "CUSTOMERS"] ["Kunder"; "customers"]
  = Some "CUSTOMERS"
  /\ find_sheet ["Blad1"] ["Kunder"] = Some "Blad1"
  /\ find_sheet ["Blad1"; "Blad2"] ["Kunder"] = None.
Proof. repeat split. Qed.

(** ** Period selection of the dashboard *)

Lemma parsed_ltm_keys_nodup (art_ws cust_ws : option worksheet) :
  NoDup (Dict.keys (ltm_trend (parse_master art_ws cust_ws))).
Proof.
  unfold parse_master. cbn [ltm_trend].
  rewrite keys_totals by (apply sort_by_nodup, all_keys_nodup).
  apply sort_by_nodup, all_keys_nodup.
Qed.

Lemma last_in {A : Type} (l : list A) (d : A) : l <> [] -> In (last l d) l.
Proof.
  intros H. rewrite (app_removelast_last d H) at 2.
  apply in_or_app. right. now left.
Qed.

Lemma last_is_greatest (l : list string) :
  StronglySorted (fun a b => chrono_le a b = true) l ->
  forall x, In x l -> chrono_le x (last l "") = true.
Proof.
  intros S x Hx. destruct l as [|a t]; [contradiction|].
  assert (N : a :: t <> []) by discriminate.
  rewrite (app_removelast_last "" N) in Hx, S.
  apply in_app_or in Hx. destruct Hx as [Hx|[<-|[]]].
  - apply (strongly_sorted_split _ _ _ S); [exact Hx | now left].
  - destruct (chrono_le_total (last (a :: t) "") (last (a :: t) "")); assumption.
Qed.

(** X21.  The period selection on the chronological LTM labels of a trend
    with distinct keys.  Without labels both periods are [None].  Otherwise
    the current period is the latest label, no label is later than it, and
    the previous period is not later than the current one: with more than
    twelve labels it is the label twelve places before the last, with
    fewer the first label.  The two periods are the same label exactly when
    the trend has a single label. *)
Theorem period_selection (d : dataset) :
  NoDup (Dict.keys (ltm_trend d)) ->
  let ltms := sorted_ltms d in
  (ltms = [] -> select_periods ltms = (None, None))
  /\ (ltms <> [] ->
      exists curr prev,
        select_periods ltms = (Some curr, Some prev)
        /\ In curr ltms /\ In prev ltms
        /\ (forall l, In l ltms -> chrono_le l curr = true)
        /\ chrono_le prev curr = true
        /\ (prev = curr <-> List.length ltms = 1%nat)
        /\ ((12 < List.length ltms)%nat ->
            exists pre mid, ltms = pre ++ prev :: mid ++ [curr]
                            /\ List.length mid = 11%nat)
        /\ ((List.length ltms <= 12)%nat -> exists rest, ltms = prev :: rest)).
Proof.
  intros ND. cbv zeta.
  assert (Srt : StronglySorted (fun a b => chrono_le a b = true) (sorted_ltms d))
    by apply (sort_by_strongly_sorted chrono_le chrono_le_total chrono_le_trans).
  assert (NDs : NoDup (sorted_ltms d)) by (apply sort_by_nodup, ND).
  set (l := sorted_ltms d) in *.
  split; [intros ->; reflexivity|]. intros Hl.
  pose proof (last_in l "" Hl) as Ic.
  pose proof (last_is_greatest l Srt) as G.
  assert (Sel : fst (select_periods l) = Some (last l ""))
    by (destruct l; [congruence | reflexivity]).
  destruct (Nat.lt_ge_cases 12 (List.length l)) as [Long|Short].
  - assert (E12 : (12 <? List.length l)%nat = true) by now apply Nat.ltb_lt.
    destruct (nth_error l (List.length l - 13)) as [p|] eqn:Ep.
    2:{ apply nth_error_None in Ep. lia. }
    destruct (nth_error_split _ _ Ep) as [pre [post [El Lp]]].
    assert (Lpost : List.length post = 12%nat).
    { apply (f_equal (@List.length string)) in El.
      rewrite length_app in El. simpl in El. lia. }
    assert (Np : post <> []) by (intros ->; discriminate).
    pose proof (app_removelast_last "" Np) as Epost.
    assert (Ec : last l "" = last post "").
    { rewrite El at 1. rewrite Epost at 1.
      change (pre ++ p :: removelast post ++ [last post ""])
        with (pre ++ (p :: removelast post) ++ [last post ""]).
      rewrite app_assoc. apply last_last. }
    exists (last l ""), p.
    assert (Ip : In p l) by (rewrite El; apply in_or_app; right; now left).
    split.
    { unfold select_periods. rewrite E12, Ep.
      destruct l; [congruence | reflexivity]. }
    split; [exact Ic|]. split; [exact Ip|]. split; [exact G|].
    split; [now apply G|]. split; [|split].
    + split; [|lia]. intros E. exfalso.
      rewrite El in NDs. apply NoDup_remove_2 in NDs. apply NDs.
      apply in_or_app. right. rewrite E, Ec. now apply last_in.
    + intros _. exists pre, (removelast post). split.
      * rewrite Ec, <- Epost. exact El.
      * apply (f_equal (@List.length string)) in Epost.
        rewrite length_app in Epost. simpl in Epost. lia.
    + intros Hx. exfalso. lia.
  - assert (E12 : (12 <? List.length l)%nat = false) by now apply Nat.ltb_ge.
    destruct l as [|p rest] eqn:El; [congruence|].
    exists (last (p :: rest) ""), p.
    split; [unfold select_periods; rewrite E12; reflexivity|].
    split; [exact Ic|]. split; [now left|]. split; [exact G|].
    split; [apply G; now left|]. split; [|split].
    + destruct rest as [|q rest']; [split; reflexivity|].
      split; [|simpl; lia]. intros E. exfalso.
      inversion NDs as [|? ? Nin _]. apply Nin.
      rewrite E. change (last (p :: q :: rest') "") with (last (q :: rest') "").
      apply last_in. discriminate.
    + intros Hx. exfalso. lia.
    + intros _. now exists rest.
Qed.

(** Witness of X21: thirteen labels, the previous period is the first. *)
Lemma period_selection_thirteen :
  NoDup (Dict.keys (ltm_trend thirteen_ltm_data))
  /\ exists curr prev,
       select_periods (sorted_ltms thirteen_ltm_data) = (Some curr, Some prev)
       /\ chrono_le prev curr = true
       /\ (prev = curr <-> List.length (sorted_ltms thirteen_ltm_data) = 1%nat).
Proof.
  assert (H : NoDup (Dict.keys (ltm_trend thirteen_ltm_data)))
    by apply parsed_ltm_keys_nodup.
  split; [exact H|].
  assert (N : sorted_ltms thirteen_ltm_data <> [])
    by (vm_compute; discriminate).
  destruct (proj2 (period_selection thirteen_ltm_data H) N)
    as (curr & prev & E & _ & _ & _ & L & Q & _).
  exists curr, prev. split; [exact E|]. split; [exact L | exact Q].
Defined.

Lemma filter_none {A : Type} (f : A -> bool) (l : list A) :
  (forall x, f x = false) -> filter f l = [].
Proof.
  intros H. induction l as [|x l IH]; simpl; [reflexivity|]. now rewrite H.
Qed.

(** X22.  Comparing a period with itself, as the dashboard does when the
    trend has a single LTM label, finds no movement: the four cohort lists
    and the churn timeline are empty, the four bridge aggregates and the
    year-on-year change are zero. *)
Theorem same_period_no_movement (d : dataset) (k : string) :
  let r := analyze_cohorts d k k in
  churned (lists r) = [] /\ declining (lists r) = []
  /\ growing (lists r) = [] /\ new (lists r) = []
  /\ churn_timeline r = []
  /\ churn_loss r = 0 /\ decline_loss r = 0
  /\ growth_gain r = 0 /\ new_gain r = 0
  /\ yoy_chg d k k = 0.
Proof.
  cbv zeta.
  assert (E : sort_cohorts (classify_all d k k)
              = {| churned := []; declining := []; growing := []; new := [] |}).
  { destruct (classify_all_lists d k k) as (Hc & Hd & Hg & Hn).
    cbv zeta in *. unfold sort_cohorts. rewrite Hc, Hd, Hg, Hn.
    unfold customers_where.
    rewrite !filter_none; [reflexivity| | | |]; intros c;
      unfold is_churned, is_new, is_declining, is_growing, is_churned, is_new;
      destruct (0 <? ltm_at k c) eqn:E1; destruct (ltm_at k c =? 0) eqn:E2;
      destruct (ltm_at k c <? ltm_at k c) eqn:E3;
      try reflexivity; exfalso; lia. }
  unfold churn_loss, decline_loss, growth_gain, new_gain, analyze_cohorts,
    yoy_chg, total_ltm.
  cbn [lists churn_timeline]. rewrite E. cbn.
  repeat split; lia.
Qed.

(** ** Amount parser: sign and pairing *)

Lemma digits_value_nonneg (s : string) (acc : Z) :
  Py.all_chars Py.is_digit s = true -> 0 <= acc -> 0 <= Py.digits_value acc s.
Proof.
  revert acc. induction s as [|c s IH]; intros acc H A;
    cbn [Py.digits_value Py.all_chars] in *; [exact A|].
  apply andb_prop in H. destruct H as [Hc Hs].
  pose proof (digit_val_range c Hc). apply IH; [exact Hs | lia].
Qed.

Lemma float_nonneg (s : string) (v : Q) : Py.float s = Some v -> (0 <= v)%Q.
Proof.
  unfold Py.float.
  destruct (Py.span Py.is_digit _) as [ip rest] eqn:E.
  pose proof (span_all _ _ _ _ E) as Hip.
  pose proof (digits_value_nonneg ip 0 Hip (Z.le_refl 0)) as N0.
  set (n := Py.digits_value 0 ip) in *. clearbody n.
  destruct rest as [|c fp].
  - destruct ip; [discriminate|]. intros [= <-].
    unfold Qle, inject_Z. cbn [Qnum Qden]. lia.
  - destruct ((Py.code c =? 46)%N && Py.all_chars Py.is_digit fp
              && negb (String.eqb ip "" && String.eqb fp "")) eqn:C;
      [|discriminate].
    apply andb_prop in C. destruct C as [C _]. apply andb_prop in C.
    destruct C as [_ Hfp]. intros H.
    assert (Ev : v = Qred (Py.digits_value n fp
                           # Z.to_pos (10 ^ Z.of_nat (String.length fp))))
      by congruence.
    rewrite Ev.
    eapply Qle_trans; [|apply Qle_lteq; right; apply Qeq_sym, Qred_correct].
    unfold Qle. cbn [Qnum Qden].
    pose proof (digits_value_nonneg fp _ Hfp N0). lia.
Qed.

(** X23.  The amount parser returns a value and a currency together or
    neither, and never a negative value: a text whose first character after
    stripping is not a digit, white space, a full stop or a comma, such as
    a minus sign, gives [(None, None)]. *)
Theorem clean_amount_unsigned (raw : option string) :
  (fst (clean_amount raw) = None <-> snd (clean_amount raw) = None)
  /\ (forall v, fst (clean_amount raw) = Some v -> (0 <= v)%Q)
  /\ (forall text c rest,
        raw = Some text -> Py.strip text = String c rest ->
        amount_char c = false -> clean_amount raw = (None, None)).
Proof.
  split; [|split].
  - unfold clean_amount. destruct raw as [text|]; [|tauto].
    destruct (match_amount _) as [[g1 g2]|]; [|tauto].
    destruct (Py.float _); simpl; split; intros; congruence.
  - intros v. unfold clean_amount. destruct raw as [text|]; [|discriminate].
    destruct (match_amount _) as [[g1 g2]|]; [|discriminate].
    destruct (Py.float _) as [q|] eqn:F; [|discriminate].
    intros [= <-]. exact (float_nonneg _ _ F).
  - intros text c rest -> S A. unfold clean_amount, match_amount.
    rewrite S. simpl. now rewrite A.
Qed.

(** A negative amount and a currency sign in front are both rejected. *)
Example clean_amount_minus :
  clean_amount (Some "-500 SEK") = (None, None)
  /\ clean_amount (Some "$ 12.50") = (None, None)
  /\ clean_amount (Some "  12,50 eur") = (Some (25 # 2), Some "EUR").
Proof. repeat split; vm_compute; reflexivity. Qed.

(** ** Commentary generator: the brace search and the outcomes *)

Lemma drop_while_split (p : ascii -> bool) (s : string) :
  exists pre, s = (pre ++ Py.drop_while p s)%string /\ Py.all_chars p pre = true.
Proof.
  induction s as [|c s [pre [E A]]]; simpl.
  - exists "". split; reflexivity.
  - destruct (p c) eqn:Pc.
    + exists (String c pre). simpl. rewrite Pc, A. split; [now f_equal | reflexivity].
    + exists "". split; reflexivity.
Qed.

Lemma drop_while_app (p : ascii -> bool) (pre s : string) :
  Py.all_chars p pre = true ->
  Py.drop_while p (pre ++ s) = Py.drop_while p s.
Proof.
  induction pre as [|c pre IH]; simpl; [reflexivity|].
  intros H. apply andb_prop in H. destruct H as [Hc Hp]. rewrite Hc. now apply IH.
Qed.

Lemma all_chars_rev (p : ascii -> bool) (s acc : string) :
  Py.all_chars p (Py.rev_string acc s) = Py.all_chars p s && Py.all_chars p acc.
Proof.
  revert acc. induction s as [|c s IH]; intros acc; simpl; [reflexivity|].
  rewrite IH. simpl. destruct (p c); simpl;
    [reflexivity | now rewrite Bool.andb_false_r].
Qed.

Lemma rev_string_append (a b : string) :
  Py.rev_string "" (a ++ b) = (Py.rev_string "" b ++ Py.rev_string "" a)%string.
Proof. rewrite rev_string_app. apply rev_string_acc. Qed.

Lemma not_open_head (c : ascii) : not_open c = false -> c = "{"%char.
Proof.
  unfold not_open. intros H. apply Bool.negb_false_iff in H.
  now apply Ascii.eqb_eq.
Qed.

Lemma not_close_head (c : ascii) : not_close c = false -> c = "}"%char.
Proof.
  unfold not_close. intros H. apply Bool.negb_false_iff in H.
  now apply Ascii.eqb_eq.
Qed.

(** X24.  The brace search is the leftmost, greedy match of an opening
    brace, any text and a closing brace.  A result is the text from the
    first opening brace of the content to its last closing brace; a content
    of that shape gives that result; and there is no result exactly when
    the content has no opening brace or no closing brace after the first
    opening one. *)
Theorem search_braces_greedy (content : string) :
  (forall m, search_braces content = Some m ->
     exists pre body post,
       content = (pre ++ String "{" (body ++ String "}" post))%string
       /\ m = String "{" (body ++ String "}" "")
       /\ Py.all_chars not_open pre = true
       /\ Py.all_chars not_close post = true)
  /\ (forall pre body post,
        content = (pre ++ String "{" (body ++ String "}" post))%string ->
        Py.all_chars not_open pre = true ->
        Py.all_chars not_close post = true ->
        search_braces content = Some (String "{" (body ++ String "}" "")))
  /\ (search_braces content = None
      <-> Py.all_chars not_open content = true
          \/ exists pre rest,
               content = (pre ++ String "{" rest)%string
               /\ Py.all_chars not_open pre = true
               /\ Py.all_chars not_close rest = true).
Proof.
  assert (Complete : forall pre body post,
            content = (pre ++ String "{" (body ++ String "}" post))%string ->
            Py.all_chars not_open pre = true ->
            Py.all_chars not_close post = true ->
            search_braces content = Some (String "{" (body ++ String "}" ""))).
  { intros pre body post -> Hpre Hpost. unfold search_braces. cbv zeta.
    fold not_open. fold not_close.
    rewrite (drop_while_app not_open pre _ Hpre).
    change (Py.drop_while not_open (String "{" (body ++ String "}" post)))
      with (String "{" (body ++ String "}" post)).
    cbv beta iota.
    assert (R : Py.rev_string "" (body ++ String "}" post)
                = (Py.rev_string "" post
                   ++ String "}" (Py.rev_string "" body))%string).
    { rewrite rev_string_append. cbn [Py.rev_string].
      rewrite (rev_string_acc (String "}" "") post).
      rewrite append_assoc. reflexivity. }
    rewrite R, drop_while_app by (rewrite all_chars_rev, Hpost; reflexivity).
    change (Py.drop_while not_close (String "}" (Py.rev_string "" body)))
      with (String "}" (Py.rev_string "" body)).
    cbv beta iota. do 2 f_equal. cbn [Py.rev_string].
    rewrite (rev_string_acc (String "}" "")), rev_string_involutive.
    reflexivity. }
  destruct (drop_while_split not_open content) as [pre [Ec Hpre]].
  unfold search_braces. cbv zeta. fold not_open. fold not_close.
  destruct (Py.drop_while not_open content) as [|b rest] eqn:Eo.
  - (* no opening brace *)
    split; [discriminate|]. split.
    + intros pre' body post E Hp _. exfalso.
      rewrite E, (drop_while_app not_open pre' _ Hp) in Eo. discriminate.
    + split; [|reflexivity]. intros _. left. now apply drop_while_all.
  - pose proof (not_open_head b (drop_while_head _ _ _ _ Eo)) as ->.
    destruct (drop_while_split not_close (Py.rev_string "" rest)) as [q [Er Hq]].
    destruct (Py.drop_while not_close (Py.rev_string "" rest)) as [|e t] eqn:Ecl.
    + (* no closing brace after the first opening one *)
      split; [discriminate|]. split.
      * intros pre' body post E Hp Hpost.
        pose proof (Complete pre' body post E Hp Hpost) as X.
        unfold search_braces in X. cbv zeta in X.
        fold not_open in X. fold not_close in X.
        rewrite Eo, Ecl in X. discriminate.
      * split; [|reflexivity]. intros _. right. exists pre, rest.
        split; [exact Ec|]. split; [exact Hpre|].
        apply drop_while_all in Ecl. rewrite all_chars_rev in Ecl.
        apply andb_prop in Ecl. apply Ecl.
    + pose proof (not_close_head e (drop_while_head _ _ _ _ Ecl)) as ->.
      assert (Erest : rest = (Py.rev_string "" t ++ String "}" (Py.rev_string "" q))%string).
      { rewrite <- (rev_string_involutive rest), Er, rev_string_append. simpl.
        rewrite (rev_string_acc (String "}" "")), append_assoc. reflexivity. }
      assert (Hpost : Py.all_chars not_close (Py.rev_string "" q) = true)
        by (rewrite all_chars_rev, Hq; reflexivity).
      assert (Em : String "{" (Py.rev_string "" (String "}" t))
                   = String "{" (Py.rev_string "" t ++ String "}" "")).
      { simpl. now rewrite (rev_string_acc (String "}" "")). }
      split; [|split].
      * intros m [= <-]. exists pre, (Py.rev_string "" t), (Py.rev_string "" q).
        split; [rewrite Ec, Erest; reflexivity|].
        split; [exact Em|]. split; [exact Hpre | exact Hpost].
      * intros pre' body post E Hp Hpo.
        pose proof (Complete pre' body post E Hp Hpo) as X.
        unfold search_braces in X. cbv zeta in X.
        fold not_open in X. fold not_close in X.
        rewrite Eo, Ecl in X. exact X.
      * split; [discriminate|]. intros [A|[pre' [rest' [E [Hp Hr]]]]].
        -- apply drop_while_all in A. rewrite A in Eo. discriminate.
        -- exfalso. rewrite E, (drop_while_app not_open pre' _ Hp) in Eo.
           simpl in Eo. inversion Eo. subst rest'.
           assert (Py.all_chars not_close (Py.rev_string "" rest) = true) as Z
             by (rewrite all_chars_rev, Hr; reflexivity).
           apply drop_while_all in Z. rewrite Z in Ecl. discriminate.
Qed.

(** A reply with text around a nested object, and one with the braces in the
    wrong order. *)
Example search_braces_samples :
  search_braces "see {a: {b: 1}} and }, no more" = Some "{a: {b: 1}} and }"
  /\ search_braces "} then {" = None.
Proof. split; reflexivity. Qed.

(** X25.  What the commentary generator returns, from the request on (the
    prompt is formatted before the [try] block and is not modelled).
    Without a key it returns the empty mapping.  With a key, it returns
    something other than the empty mapping only when the request gives
    status 200 with a body that decodes and [result['content'][0]['text']]
    is a string; it then returns [None] when that string has no
    brace-delimited part, what [json.loads] makes of the brace-delimited
    part when it loads, and the empty mapping when it does not load. *)
Theorem commentary_outcomes (json_loads : string -> option json)
        (api_key : string) (post : post_outcome) :
  generate_ai_commentary json_loads "" post = Returned (JObj [])
  /\ (forall v,
        generate_ai_commentary json_loads api_key post = Returned v ->
        v <> JObj [] ->
        api_key <> ""
        /\ exists result content,
             post = Response 200 (Some result)
             /\ reply_text result = Some (JStr content)
             /\ ((search_braces content = None /\ v = JNull)
                 \/ exists m, search_braces content = Some m
                              /\ json_loads m = Some v))
  /\ (forall result content,
        api_key <> "" ->
        post = Response 200 (Some result) ->
        reply_text result = Some (JStr content) ->
        generate_ai_commentary json_loads api_key post
        = Returned match search_braces content with
                   | None => JNull
                   | Some m => match json_loads m with
                               | Some v => v
                               | None => JObj []
                               end
                   end).
Proof.
  unfold generate_ai_commentary, reply_text.
  split; [reflexivity|]. split.
  - intros v. destruct (String.eqb_spec api_key "") as [->|Nk];
      [intros [= <-] N; now contradiction N|].
    destruct post as [|status body]; [intros [= <-] N; now contradiction N|].
    unfold commentary_body.
    destruct (Z.eqb_spec status 200) as [->|Ns];
      [|intros [= <-] N; now contradiction N].
    destruct body as [result|]; [|intros [= <-] N; now contradiction N].
    destruct (subscript_key "content" result) as [l|] eqn:E1;
      [|intros [= <-] N; now contradiction N].
    destruct (subscript_0 l) as [item|] eqn:E2;
      [|intros [= <-] N; now contradiction N].
    destruct (subscript_key "text" item) as [text|] eqn:E3;
      [|intros [= <-] N; now contradiction N].
    destruct text as [|b|q|content|l0|m0];
      try (intros [= <-] N; now contradiction N).
    intros H N. split; [exact Nk|]. exists result, content.
    split; [reflexivity|]. split; [now rewrite E1, E2|].
    destruct (search_braces content) as [m|].
    + right. exists m. split; [reflexivity|].
      destruct (json_loads m) as [w|]; [congruence|].
      injection H as <-. now contradiction N.
    + left. split; [reflexivity | congruence].
  - intros result content Nk -> R.
    destruct (String.eqb_spec api_key "") as [E|_]; [contradiction|].
    unfold commentary_body. change (200 =? 200) with true. cbv iota.
    destruct (subscript_key "content" result) as [l|]; [|discriminate].
    destruct (subscript_0 l) as [item|]; [|discriminate].
    rewrite R.
    destruct (search_braces content) as [m|]; [|reflexivity].
    destruct (json_loads m); reflexivity.
Qed.

(** Witness of X25: a reply that declines in plain words gives [None]. *)
Lemma commentary_outcomes_refusal :
  "sk-key" <> ""
  /\ reply_text refusal_body
     = Some (JStr "I am unable to analyse these figures.")
  /\ generate_ai_commentary (fun _ => None) "sk-key"
       (Response 200 (Some refusal_body))
     = Returned JNull.
Proof.
  assert (Nk : "sk-key" <> "") by discriminate.
  assert (R : reply_text refusal_body
              = Some (JStr "I am unable to analyse these figures."))
    by reflexivity.
  split; [exact Nk|]. split; [exact R|].
  exact (proj2 (proj2 (commentary_outcomes (fun _ => None) "sk-key"
                         (Response 200 (Some refusal_body))))
               refusal_body _ Nk eq_refl R).
Defined.

(** ** Industry aggregation *)

Lemma set_keys_nodup {V : Type} (k : string) (v : V) (d : Dict.t V) :
  NoDup (Dict.keys d) -> NoDup (Dict.keys (Dict.set k v d)).
Proof.
  induction d as [|[k' v'] d IH]; simpl; intros H.
  - repeat constructor. intros [].
  - inversion H as [|? ? Nin Hd]; subst.
    destruct (String.eqb_spec k k') as [->|N]; simpl.
    + now constructor.
    + constructor; [|now apply IH].
      intros X. apply keys_set_in in X. destruct X as [X|X]; [now apply Nin|].
      congruence.
Qed.

Lemma Zsum_filter_if {A : Type} (f : A -> Z) (p : A -> bool) (l : list A) :
  Zsum (map f (filter p l)) = Zsum (map (fun x => if p x then f x else 0) l).
Proof.
  induction l as [|x l IH]; simpl; [reflexivity|].
  destruct (p x); simpl; lia.
Qed.

Lemma classify_in_labels (name : string) :
  In (classify_customer_industry name)
     (other_general :: map fst industry_keywords).
Proof.
  rewrite classify_unfold.
  destruct (Py.all_chars Py.is_space name); [now left|].
  destruct (find _ industry_keywords) as [e|] eqn:F; [|now left].
  right. apply find_some in F. apply in_map, F.
Qed.

Lemma nodup_get {V : Type} (d : Dict.t V) (k : string) (v : V) :
  NoDup (Dict.keys d) -> In (k, v) d -> Dict.get k d = Some v.
Proof.
  induction d as [|[k' v'] d IH]; simpl; intros N H; [contradiction|].
  inversion N as [|? ? Nin Nd]; subst. destruct H as [H|H].
  - inversion H; subst. now rewrite String.eqb_refl.
  - destruct (String.eqb_spec k k') as [->|_]; [|now apply IH].
    exfalso. apply Nin. apply in_map_iff. exists (k', v). auto.
Qed.

(** What one customer adds to the five sums over the entries. *)
Lemma industry_step_sums (curr prev : string) (st : Dict.t Industry.stats)
      (c : Customer.t) :
  let st' := industry_step curr prev st c in
  let total f := fun s => Zsum (map f (Dict.values s)) in
  total Industry.curr st' = total Industry.curr st + ltm_at curr c
  /\ total Industry.prev st' = total Industry.prev st + ltm_at prev c
  /\ total Industry.count st'
     = total Industry.count st + (if has_revenue curr prev c then 1 else 0)
  /\ total Industry.churned_rev st'
     = total Industry.churned_rev st
       + (if is_churned (ltm_at prev c) (ltm_at curr c) then ltm_at prev c else 0)
  /\ total Industry.new_rev st'
     = total Industry.new_rev st
       + (if is_new (ltm_at prev c) (ltm_at curr c) then ltm_at curr c else 0).
Proof.
  cbv zeta. unfold industry_step, has_revenue, is_churned, is_new.
  fold (ltm_at curr c). fold (ltm_at prev c).
  set (cv := ltm_at curr c). set (pv := ltm_at prev c).
  destruct (cv =? 0) eqn:E1; destruct (pv =? 0) eqn:E2;
    destruct (0 <? pv) eqn:E3; destruct (0 <? cv) eqn:E4;
    try (exfalso; lia);
    cbn [andb negb]; rewrite ?set_measure; unfold Dict.get_default;
    try destruct (Dict.get _ st);
    cbn [Industry.curr Industry.prev Industry.count Industry.churned_rev
         Industry.new_rev industry_zero];
    repeat split; lia.
Qed.

Lemma industry_step_keys (curr prev : string) (st : Dict.t Industry.stats)
      (c : Customer.t) :
  (NoDup (Dict.keys st) -> NoDup (Dict.keys (industry_step curr prev st c)))
  /\ forall k, In k (Dict.keys (industry_step curr prev st c)) ->
       In k (Dict.keys st)
       \/ (k = classify_customer_industry (Customer.kund c)
           /\ has_revenue curr prev c = true).
Proof.
  unfold industry_step, has_revenue. fold (ltm_at curr c). fold (ltm_at prev c).
  destruct ((ltm_at curr c =? 0) && (ltm_at prev c =? 0)).
  - split; [auto | intros k H; now left].
  - split; [apply set_keys_nodup|].
    intros k H. apply keys_set_in in H. destruct H as [H| ->]; [now left|].
    right. split; reflexivity.
Qed.

Lemma industry_loop (curr prev : string) (cs : list Customer.t)
      (st : Dict.t Industry.stats) :
  let res := fold_left (industry_step curr prev) cs st in
  let total f := fun s => Zsum (map f (Dict.values s)) in
  total Industry.curr res = total Industry.curr st + Zsum (map (ltm_at curr) cs)
  /\ total Industry.prev res = total Industry.prev st + Zsum (map (ltm_at prev) cs)
  /\ total Industry.count res
     = total Industry.count st
       + Z.of_nat (List.length (filter (has_revenue curr prev) cs))
  /\ total Industry.churned_rev res
     = total Industry.churned_rev st
       + Zsum (map (ltm_at prev)
                   (filter (fun c => is_churned (ltm_at prev c) (ltm_at curr c)) cs))
  /\ total Industry.new_rev res
     = total Industry.new_rev st
       + Zsum (map (ltm_at curr)
                   (filter (fun c => is_new (ltm_at prev c) (ltm_at curr c)) cs))
  /\ (NoDup (Dict.keys st) -> NoDup (Dict.keys res))
  /\ (forall k, In k (Dict.keys res) ->
        In k (Dict.keys st)
        \/ exists c, In c cs /\ has_revenue curr prev c = true
                     /\ k = classify_customer_industry (Customer.kund c)).
Proof.
  cbv zeta. revert st. induction cs as [|c cs IH]; intros st.
  - simpl. repeat split; try lia; auto.
  - cbn [fold_left]. destruct (IH (industry_step curr prev st c))
      as (I1 & I2 & I3 & I4 & I5 & I6 & I7).
    destruct (industry_step_sums curr prev st c) as (S1 & S2 & S3 & S4 & S5).
    destruct (industry_step_keys curr prev st c) as [K1 K2].
    cbv zeta in *. rewrite I1, I2, I3, I4, I5, S1, S2, S3, S4, S5.
    rewrite !Zsum_filter_if in *. cbn [map filter].
    split; [unfold Zsum; cbn [fold_right]; fold (Zsum (map (ltm_at curr) cs)); lia|].
    split; [unfold Zsum; cbn [fold_right]; fold (Zsum (map (ltm_at prev) cs)); lia|].
    split; [destruct (has_revenue curr prev c); cbn [List.length]; lia|].
    split; [unfold Zsum; cbn [fold_right]; lia|].
    split; [unfold Zsum; cbn [fold_right]; lia|].
    split; [auto|].
    intros k Hk. destruct (I7 k Hk) as [H|[c0 [H0 [R0 E0]]]].
    + destruct (K2 k H) as [H1|[E R]]; [now left | right].
      exists c. split; [now left | now split].
    + right. exists c0. split; [now right | now split].
Qed.

(** X26.  On a ledger of integer amounts the industry aggregation of the
    dashboard loses no revenue: over the industry entries, current and
    previous revenue add up to the customers' values at the two periods,
    the counts to the number of customers with revenue in one of them, the
    churned revenue to the churn loss and the new revenue to the new gain
    of the cohort analysis of the same periods.  Each industry has one entry, named ["Other/General"] or
    by the industry table, and it is the industry of a customer with
    revenue.  The rows of the report are entries in decreasing order of
    current revenue, each with positive revenue in one of the periods.  On
    a parsed dataset the current revenues add up to the LTM total. *)
Theorem industry_totals :
  (forall (d : dataset) (curr prev : string),
     let st := industry_stats d curr prev in
     let total f := Zsum (map f (Dict.values st)) in
     total Industry.curr = Zsum (map (ltm_at curr) (customers d))
     /\ total Industry.prev = Zsum (map (ltm_at prev) (customers d))
     /\ total Industry.count
        = Z.of_nat (List.length (filter (has_revenue curr prev) (customers d)))
     /\ total Industry.churned_rev = churn_loss (analyze_cohorts d curr prev)
     /\ total Industry.new_rev = new_gain (analyze_cohorts d curr prev)
     /\ NoDup (Dict.keys st)
     /\ (forall k, In k (Dict.keys st) ->
           In k (other_general :: map fst industry_keywords)
           /\ exists c, In c (customers d) /\ has_revenue curr prev c = true
                        /\ k = classify_customer_industry (Customer.kund c))
     /\ StronglySorted (fun x y => Industry.curr_ltm y <= Industry.curr_ltm x)
                       (industry_data d curr prev)
     /\ (forall r, In r (industry_data d curr prev) ->
           (0 < Industry.curr_ltm r
            \/ exists s, Dict.get (Industry.industry r) st = Some s
                         /\ 0 < Industry.prev s)
           /\ In (Industry.industry r) (Dict.keys st)))
  /\ (forall (art_ws cust_ws : option worksheet) (curr prev : string),
        let d := parse_master art_ws cust_ws in
        Zsum (map Industry.curr (Dict.values (industry_stats d curr prev)))
        = total_ltm d curr).
Proof.
  assert (G : forall (d : dataset) (curr prev : string),
            Zsum (map Industry.curr (Dict.values (industry_stats d curr prev)))
            = Zsum (map (ltm_at curr) (customers d))).
  { intros d curr prev.
    destruct (industry_loop curr prev (customers d) Dict.empty) as [I1 _].
    cbv zeta in I1. unfold industry_stats. rewrite I1. reflexivity. }
  split.
  - intros d curr prev. cbv zeta.
    destruct (industry_loop curr prev (customers d) Dict.empty)
      as (I1 & I2 & I3 & I4 & I5 & I6 & I7).
    destruct (bridge_totals d curr prev) as (B1 & _ & _ & B4).
    cbv zeta in *. fold (industry_stats d curr prev) in *.
    split; [apply G|]. split; [rewrite I2; reflexivity|].
    split; [rewrite I3; reflexivity|].
    split; [rewrite I4, B1; reflexivity|].
    split; [rewrite I5, B4; reflexivity|].
    split; [apply I6; constructor|].
    assert (K : forall k, In k (Dict.keys (industry_stats d curr prev)) ->
              exists c, In c (customers d) /\ has_revenue curr prev c = true
                        /\ k = classify_customer_industry (Customer.kund c)).
    { intros k Hk. destruct (I7 k Hk) as [[]|X]. exact X. }
    split.
    { intros k Hk. split; [|now apply K].
      destruct (K k Hk) as [c [_ [_ ->]]].
      apply classify_in_labels. }
    split.
    { unfold industry_data.
      set (srt := sort_by _ (Dict.items (industry_stats d curr prev))).
      assert (S : StronglySorted
                    (fun x y : string * Industry.stats =>
                       Industry.curr (snd y) <= Industry.curr (snd x)) srt)
        by exact (sort_by_key_desc (fun x => Industry.curr (snd x)) _).
      clearbody srt. induction S as [|x l Hs IH Hf]; simpl; [constructor|].
      destruct ((0 <? Industry.curr (snd x)) || (0 <? Industry.prev (snd x)));
        [|exact IH].
      cbn [map]. constructor; [exact IH|].
      rewrite Forall_forall in *. intros y Hy. apply in_map_iff in Hy.
      destruct Hy as [kv [<- Hkv]]. apply filter_In in Hkv.
      cbn [Industry.curr_ltm]. apply Hf, Hkv. }
    intros r Hr. unfold industry_data in Hr. apply in_map_iff in Hr.
    destruct Hr as [[k s] [<- Hkv]]. apply filter_In in Hkv.
    destruct Hkv as [Hin Hpos]. apply sort_by_in in Hin.
    cbn [Industry.curr_ltm Industry.industry fst snd] in *.
    assert (Hk : In k (Dict.keys (industry_stats d curr prev)))
      by (apply in_map_iff; exists (k, s); split; [reflexivity | exact Hin]).
    split; [|exact Hk].
    apply Bool.orb_true_iff in Hpos. destruct Hpos as [P|P];
      apply Z.ltb_lt in P; [now left | right].
    exists s. split; [|exact P].
    apply (nodup_get _ _ _ (I6 (NoDup_nil _)) Hin).
  - intros art_ws cust_ws curr prev. cbv zeta. rewrite G.
    unfold total_ltm. now rewrite parsed_ltm_trend.
Qed.

(** X28.  The currency the amount parser returns, on every text made of
    the characters below U+0100, the long s and the kelvin sign: no
    currency, one of ["SEK"], ["EUR"], ["USD"], ["GBP"], or [SEK] spelled
    with the kelvin sign.  A missing or unmatched code gives ["SEK"]. *)
Theorem wide_currency_codes (raw : option Wide.text) :
  snd (Wide.clean_amount raw) = None
  \/ (exists code, In code currency_codes
                   /\ snd (Wide.clean_amount raw) = Some (Wide.of_string code))
  \/ snd (Wide.clean_amount raw) = Some Wide.sek_kelvin.
Proof.
  unfold Wide.clean_amount. destruct raw as [t|]; [|now left].
  destruct (Wide.span_amount (Wide.strip t)) as [g1 rest].
  destruct g1 as [|c g1]; [now left|].
  destruct (Py.float _); [|now left]. right. cbn [snd].
  destruct (Wide.match_currency _) as [w|] eqn:M.
  - apply wide_match_currency_code in M. destruct M as [[code [Hc E]]|E].
    + left. exists code. now rewrite E.
    + right. now rewrite E.
  - left. exists "SEK". split; [simpl; tauto | reflexivity].
Qed.
